(** * Source resolution for COPY / ADD: a shallow embedding of copy.go

    The development embeds the [copier] of the Dockerfile builder
    (package dockerfile, file copy.go): source resolution
    ([createCopyInstruction], [getCopyInfosForSourcePaths],
    [getCopyInfoForSourcePath], [calcCopyInfo], [copyWithWildcards],
    [copyInfoForFile], [walkSource]), the remote download
    ([getFilenameForDownload], [downloadSource]), the session clean-up
    ([Cleanup]) and the copy executor ([performCopyForInfo],
    [copyDirectory], [copyFile], [isExistingDirectory]).

    Conventions.
    - Paths follow the non-Windows build: [os_PathSeparator] is "/".
    - A Go [error] is [option err]; [None] is [nil].  A Go function that
      returns [(v, err)] returns a pair here, with the zero value of [v]
      where Go returns [nil].
    - Everything the package calls but does not define (the operating
      system, net/http, mime, the archiver, remotecontext, the layer
      store) is a field of the record [Env]; every call that touches the
      outside world is recorded as an [Event].
    - The copier is threaded through a state monad [M]; the path cache,
      which several copiers share by reference, lives in the [World]. *)

From Stdlib Require Import String Ascii List ZArith Lia Permutation.
From stdpp Require Import base option list strings gmap sorting.

Local Open Scope string_scope.
Local Open Scope list_scope.

(** ** Strings and paths *)

Definition os_PathSeparator : ascii := "/"%char.

Definition string_of_char (c : ascii) : string := String c EmptyString.

(** strings.HasPrefix *)
Fixpoint strings_HasPrefix (s prefix : string) {struct prefix} : bool :=
  match prefix with
  | EmptyString => true
  | String a prefix' =>
      match s with
      | EmptyString => false
      | String b s' => if Ascii.eqb a b then strings_HasPrefix s' prefix' else false
      end
  end.

(** strings.HasSuffix *)
Definition strings_HasSuffix (s suffix : string) : bool :=
  strings_HasPrefix (String.rev s) (String.rev suffix).

(** strings.TrimPrefix: [s] without the leading [prefix], or [s] itself. *)
Definition strings_TrimPrefix (s prefix : string) : string :=
  if strings_HasPrefix s prefix
  then String.substring (String.length prefix)
         (String.length s - String.length prefix) s
  else s.

(** filepath.FromSlash: every slash becomes the separator. *)
Fixpoint filepath_FromSlash (path : string) : string :=
  match path with
  | EmptyString => EmptyString
  | String c rest =>
      String (if Ascii.eqb c "/"%char then os_PathSeparator else c)
             (filepath_FromSlash rest)
  end.

Definition os_IsPathSeparator (c : ascii) : bool := Ascii.eqb c os_PathSeparator.

Fixpoint dropWhile {A} (p : A -> bool) (l : list A) : list A :=
  match l with
  | [] => []
  | x :: l' => if p x then dropWhile p l' else l
  end.

Fixpoint takeWhile {A} (p : A -> bool) (l : list A) : list A :=
  match l with
  | [] => []
  | x :: l' => if p x then x :: takeWhile p l' else []
  end.

(** filepath.Base (there is no volume name on this platform): strip the
    trailing separators, keep what follows the last separator; the empty
    path gives ".", a path of separators only gives the separator. *)
Definition filepath_Base (path : string) : string :=
  if String.eqb path "" then "."
  else
    let r := List.rev (list_ascii_of_string path) in
    let stripped := dropWhile os_IsPathSeparator r in
    let last := takeWhile (fun c => negb (os_IsPathSeparator c)) stripped in
    match last with
    | [] => string_of_char os_PathSeparator
    | _ => string_of_list_ascii (List.rev last)
    end.

(** ** Errors *)

(** Go errors, with the wrapping structure that [errors.Is] looks through. *)
Inductive err : Type :=
| os_ErrNotExist
| PathError (op path : string) (e : err)
| Wrapf (e : err) (msg : string)
| WithStack (e : err)
| Errorf (msg : string)
| External (msg : string)
| Panic (msg : string).

Definition error := option err.

(** errors.Is(e, os.ErrNotExist) *)
Fixpoint isNotExist (e : err) : bool :=
  match e with
  | os_ErrNotExist => true
  | PathError _ _ e' => isNotExist e'
  | Wrapf e' _ => isNotExist e'
  | WithStack e' => isNotExist e'
  | _ => false
  end.

(** ** Data model *)

Definition Time := Z.
(** time.Time{} *)
Definition zeroTime : Time := 0%Z.

Record FileInfo := { IsDir : bool }.

(** builder.Source *)
Record Source := {
  Root : string;
  Hash : string -> string * error
}.

(** builder.RWLayer *)
Record RWLayer := { layerRoot : string }.

(** The part of *imageMount the copier uses.  [NewRWLayer n] is the
    answer of the n-th call. *)
Record imageMount := {
  ImageID : string;
  NewRWLayer : nat -> RWLayer * error
}.

Record copyInfo := {
  root : string;
  path : string;
  hash : string;
  noDecompress : bool
}.

Record copyInstruction := {
  cmdName : string;
  infos : list copyInfo;
  dest : string;
  chownStr : string;
  allowLocalDecompression : bool;
  preserveOwnership : bool
}.

(** instructions.SourcesAndDest *)
Record SourcesAndDest := {
  DestPath : string;
  SourcePaths : list string
}.

Definition set_infos (inst : copyInstruction) (i : list copyInfo) : copyInstruction :=
  {| cmdName := cmdName inst; infos := i; dest := dest inst;
     chownStr := chownStr inst;
     allowLocalDecompression := allowLocalDecompression inst;
     preserveOwnership := preserveOwnership inst |}.

Record identity := { UID : Z; GID : Z; SID : string }.

Record copyFileOptions := {
  decompress : bool;
  opt_identity : option identity
}.

(** net/http: what the package reads of a response. *)
Record Response := {
  Header_Get : string -> string;
  ContentLength : Z
}.

(** Calls that reach outside the package. *)
Inductive Event : Type :=
| EvCacheLoad (key : string)
| EvCacheStore (key value : string)
| EvNewRWLayer (layer : RWLayer) (e : error)
| EvRelease (layer : RWLayer)
| EvRemoveAll (p : string)
| EvStatAt (root p : string)
| EvHash (root p : string)
| EvWalkDir (p : string)
| EvHttpGet (url : string)
| EvMkdirTemp
| EvOpenFile (name : string)
| EvIoCopy (name : string)
| EvFprintln
| EvClose (name : string)
| EvChtimes (name : string) (atime mtime : Time)
| EvOsStat (p : string)
| EvOsOpen (p : string)
| EvUntar (src dst : string)
| EvCopyWithTar (src dst : string)
| EvCopyFileWithTar (src dst : string)
| EvMkdirAll (p : string)
| EvMkdirAllAndChown (p : string) (uid gid : Z)
| EvFixPermissions (src dst : string) (id : identity) (overrideSkip : bool).

(** [IO]: a computation that only talks to the outside world. *)
Definition IO (A : Type) : Type := A * list Event.

(** type sourceDownloader func(string) (builder.Source, string, error) *)
Definition sourceDownloader : Type :=
  string -> IO (option Source * string * error).

(** The copier.  Its [pathCache] field is a reference to the map held in
    the [World]; the platform is not read by the functions below. *)
Record copier := {
  imageSource : option imageMount;
  source : option Source;
  download : sourceDownloader;
  activeLayer : option RWLayer;
  tmpPaths : list string
}.

(** What outlives a copier: the shared path cache (a sync.Map from
    string keys to string fingerprints) and the number of layers the
    layer store was asked for. *)
Record World := {
  pathCache : gmap string string;
  layerCalls : nat
}.

Definition set_source (o : copier) (s : option Source) : copier :=
  {| imageSource := imageSource o; source := s; download := download o;
     activeLayer := activeLayer o; tmpPaths := tmpPaths o |}.

Definition set_activeLayer (o : copier) (l : option RWLayer) : copier :=
  {| imageSource := imageSource o; source := source o; download := download o;
     activeLayer := l; tmpPaths := tmpPaths o |}.

Definition set_tmpPaths (o : copier) (t : list string) : copier :=
  {| imageSource := imageSource o; source := source o; download := download o;
     activeLayer := activeLayer o; tmpPaths := t |}.

(** The collaborators. *)
Record Env := {
  (* this package, outside copy.go *)
  validateCopySourcePath : option imageMount -> string -> error;
  containsWildcards : string -> bool;
  digest : list string -> string;
  fixPermissions : string -> string -> identity -> bool -> error;
  (* urlutil, remotecontext *)
  urlutil_IsURL : string -> bool;
  NewLazySource : string -> option Source * error;
  StatAt : Source -> string -> FileInfo * error;
  FullPath : Source -> string -> string * error;
  GetWithStatusError : string -> Response * error;
  (* path/filepath *)
  filepath_WalkDir : string -> list (string * error);
  filepath_Rel : string -> string -> string * error;
  filepath_Match : string -> string -> bool * error;
  filepath_Join : string -> string -> string;
  filepath_Dir : string -> string;
  (* net/url, mime, net/http *)
  url_Parse : string -> string * error;
  mime_ParseMediaType : string -> string * gmap string string * error;
  http_ParseTime : string -> Time * error;
  (* os, longpath, system, io *)
  longpath_MkdirTemp : string -> string -> string * error;
  os_OpenFile : string -> error;
  io_Copy : string -> Response -> error;
  system_Chtimes : string -> Time -> Time -> error;
  os_Stat : string -> FileInfo * error;
  os_Open : string -> error;
  os_MkdirAll : string -> error;
  user_MkdirAllAndChown : string -> Z -> Z -> error;
  (* symlink, archive *)
  symlink_FollowSymlinkInScope : string -> string -> string * error;
  archive_IsArchivePath : string -> bool;
  archiver_Untar : string -> string -> error;
  archiver_CopyWithTar : string -> string -> error;
  archiver_CopyFileWithTar : string -> string -> error
}.

(** ** The effect monads *)

#[global] Instance IO_ret : MRet IO := fun _ a => (a, []).
#[global] Instance IO_bind : MBind IO := fun _ _ k m =>
  let r := k (fst m) in (fst r, snd m ++ snd r).

Definition io_emit (e : Event) : IO unit := (tt, [e]).

(** [M]: a method of the copier; it may also update the copier and the
    world. *)
Definition M (A : Type) : Type := copier -> World -> IO (A * copier * World).

#[global] Instance M_ret : MRet M := fun _ a o w => ((a, o, w), []).
#[global] Instance M_bind : MBind M := fun _ _ k m o w =>
  let r := m o w in
  let r' := k (fst (fst (fst r))) (snd (fst (fst r))) (snd (fst r)) in
  (fst r', snd r ++ snd r').

Definition liftIO {A} (m : IO A) : M A := fun o w => ((fst m, o, w), snd m).
Definition emit (e : Event) : M unit := liftIO (io_emit e).
Definition getCopier : M copier := fun o w => ((o, o, w), []).
Definition putCopier (o' : copier) : M unit := fun _ w => ((tt, o', w), []).

(** Projections of a finished run. *)
Definition result {A} (r : IO (A * copier * World)) : A := fst (fst (fst r)).
Definition copierOf {A} (r : IO (A * copier * World)) : copier := snd (fst (fst r)).
Definition worldOf {A} (r : IO (A * copier * World)) : World := snd (fst r).
Definition eventsOf {A} (r : IO A) : list Event := snd r.

(** The loop of filepath.WalkDir over the entries it visits: [fn] is
    called on each entry in turn with the value accumulated so far, and
    the first error it returns ends the walk. *)
Fixpoint walkDir `{MRet F, MBind F} {S : Type}
    (fn : S -> string -> error -> F (S * error)%type)
    (entries : list (string * error)) (acc : S) : F (S * error)%type :=
  match entries with
  | [] => mret (acc, None)
  | (p, e) :: rest =>
      r ← fn acc p e;
      match snd r with
      | Some x => mret (fst r, Some x)
      | None => walkDir fn rest (fst r)
      end
  end.

(** sort.Strings: ascending byte-wise order. *)
Definition sort_Strings (l : list string) : list string :=
  merge_sort String.le l.

Definition unnamedFilename : string := "__unnamed__".

Definition zeroCopyInfo : copyInfo :=
  {| root := ""; path := ""; hash := ""; noDecompress := false |}.

Definition newCopyInfoFromSource (source : Source) (path hash : string) : copyInfo :=
  {| root := Root source; path := path; hash := hash; noDecompress := false |}.

Definition newCopyInfos (copyInfos : list copyInfo) : list copyInfo := copyInfos.

Definition set_noDecompress (c : copyInfo) (b : bool) : copyInfo :=
  {| root := root c; path := path c; hash := hash c; noDecompress := b |}.

(** ** The program *)

Section Program.
Context (env : Env).

(** *** Calls to the collaborators, with their events *)

Definition source_Hash (s : Source) (p : string) : IO (string * error) :=
  (Hash s p, [EvHash (Root s) p]).

Definition remotecontext_StatAt (s : Source) (p : string) : IO (FileInfo * error) :=
  (StatAt env s p, [EvStatAt (Root s) p]).

Definition pathCache_Load (key : string) : M (string * bool) := fun o w =>
  ((match pathCache w !! key with
    | Some h => (h, true)
    | None => ("", false)
    end, o, w), [EvCacheLoad key]).

Definition pathCache_Store (key value : string) : M unit := fun o w =>
  ((tt, o, {| pathCache := <[key := value]> (pathCache w);
              layerCalls := layerCalls w |}),
   [EvCacheStore key value]).

Definition imageMount_NewRWLayer (im : imageMount) : M (RWLayer * error) := fun o w =>
  let r := NewRWLayer im (layerCalls w) in
  ((r, o, {| pathCache := pathCache w; layerCalls := S (layerCalls w) |}),
   [EvNewRWLayer (fst r) (snd r)]).

(** Modelled from the spec: hashStringSlice is defined outside copy.go; the
    combined fingerprint is a digest over the list, tagged with the kind
    prefix. *)
Definition hashStringSlice (prefix : string) (slice : list string) : string :=
  prefix +:+ ":" +:+ digest env slice.

(** *** copyInfoForFile *)

Definition copyInfoForFile (source : Source) (path : string) : IO (copyInfo * error) :=
  r ← remotecontext_StatAt source path;
  let '(fi, err) := r in
  match err with
  | Some e =>
      if isNotExist e
      then mret (zeroCopyInfo, Some (WithStack (PathError "stat" path os_ErrNotExist)))
      else mret (zeroCopyInfo, Some e)
  | None =>
      if IsDir fi then mret (zeroCopyInfo, None)
      else
        r ← source_Hash source path;
        let '(hash, err) := r in
        match err with
        | Some e => mret (zeroCopyInfo, Some e)
        | None => mret (newCopyInfoFromSource source path ("file:" +:+ hash), None)
        end
  end.

(** *** walkSource *)

(** The function literal passed to filepath.WalkDir by walkSource. *)
Definition walkSource_fn (source : Source)
    (subfiles : list string) (path : string) (err : error)
  : IO (list string * error) :=
  match err with
  | Some e => mret (subfiles, Some e)
  | None =>
      let '(rel, err) := filepath_Rel env (Root source) path in
      match err with
      | Some e => mret (subfiles, Some e)
      | None =>
          if String.eqb rel "." then mret (subfiles, None)
          else
            r ← source_Hash source rel;
            let '(hash, err) := r in
            match err with
            | Some _ => mret (subfiles, None)
            | None => mret (subfiles ++ [hash], None)
            end
      end
  end.

Definition walkSource (source : Source) (origPath : string) : IO (list string * error) :=
  let '(fp, err) := FullPath env source origPath in
  match err with
  | Some e => mret ([], Some e)
  | None =>
      _ ← io_emit (EvWalkDir fp);
      r ← walkDir (walkSource_fn source) (filepath_WalkDir env fp) [];
      let '(subfiles, err) := r in
      match err with
      | Some e => mret ([], Some e)
      | None => mret (sort_Strings subfiles, None)
      end
  end.

(** *** storeInPathCache *)

Definition storeInPathCache (im : option imageMount) (path hash : string) : M unit :=
  match im with
  | Some im => pathCache_Store (ImageID im +:+ path) hash
  | None => mret tt
  end.

(** *** calcCopyInfo *)

(** The path as calcCopyInfo rewrites it before use. *)
Definition normalizeOrigPath (origPath : string) : string :=
  let origPath := filepath_FromSlash origPath in
  let origPath := strings_TrimPrefix origPath (string_of_char os_PathSeparator) in
  strings_TrimPrefix origPath ("." +:+ string_of_char os_PathSeparator).

(** The body of calcCopyInfo; [copyWithWildcards] stands for the method
    of that name, which is defined from this body below. *)
Definition calcCopyInfoBody
    (copyWithWildcards : string -> M (list copyInfo * error))
    (origPath : string) (allowWildcards : bool) : M (list copyInfo * error) :=
  o ← getCopier;
  let imageSource := imageSource o in
  match validateCopySourcePath env imageSource origPath with
  | Some e => mret ([], Some e)
  | None =>
  failed ←
    match imageSource, activeLayer o with
    | Some im, None =>
        r ← imageMount_NewRWLayer im;
        let '(rwLayer, err) := r in
        match err with
        | Some e => mret (Some e)
        | None =>
            o ← getCopier;
            _ ← putCopier (set_activeLayer o (Some rwLayer));
            let '(src, err) := NewLazySource env (layerRoot rwLayer) in
            o ← getCopier;
            _ ← putCopier (set_source o src);
            match err with
            | Some e =>
                mret (Some (Wrapf e ("failed to create context for copy from "
                                       +:+ layerRoot rwLayer)))
            | None => mret None
            end
        end
    | _, _ => mret None
    end;
  match failed with
  | Some e => mret ([], Some e)
  | None =>
  o ← getCopier;
  match source o with
  | None => mret ([], Some (Errorf "missing build context"))
  | Some o_source =>
  let origPath := normalizeOrigPath origPath in
  if allowWildcards && containsWildcards env origPath
  then copyWithWildcards origPath
  else
  cached ←
    match imageSource with
    | Some im =>
        if negb (String.eqb (ImageID im) "") then
          r ← pathCache_Load (ImageID im +:+ origPath);
          let '(h, ok) := r in
          if ok : bool then mret (Some h) else mret None
        else mret None
    | None => mret None
    end;
  match cached with
  | Some h => mret (newCopyInfos [newCopyInfoFromSource o_source origPath h], None)
  | None =>
  r ← liftIO (copyInfoForFile o_source origPath);
  let '(info, err) := r in
  match imageSource, err with
  | None, Some e =>
      if isNotExist e
      then mret ([], Some (Wrapf e
             "file not found in build context or excluded by .dockerignore"))
      else mret ([], Some e)
  | Some _, Some e => mret ([], Some e)
  | _, None =>
  if negb (String.eqb (hash info) "") then
    _ ← storeInPathCache imageSource origPath (hash info);
    mret (newCopyInfos [info], err)
  else
  r ← liftIO (walkSource o_source origPath);
  let '(subfiles, err) := r in
  match err with
  | Some e => mret ([], Some e)
  | None =>
  let hash := hashStringSlice "dir" subfiles in
  _ ← storeInPathCache imageSource origPath hash;
  mret (newCopyInfos [newCopyInfoFromSource o_source origPath hash], None)
  end end end end end end.

(** calcCopyInfo(rel, false), as copyWithWildcards calls it: with
    allowWildcards false the wildcard branch is never taken. *)
Definition calcCopyInfoNoWildcards (origPath : string) : M (list copyInfo * error) :=
  calcCopyInfoBody
    (fun _ => mret ([] : list copyInfo, Some (Panic "unreachable")))
    origPath false.

(** The function literal passed to filepath.WalkDir by copyWithWildcards. *)
Definition copyWithWildcards_fn (root origPath : string)
    (copyInfos : list copyInfo) (path : string) (err : error)
  : M (list copyInfo * error) :=
  match err with
  | Some e => mret (copyInfos, Some e)
  | None =>
      let '(rel, err) := filepath_Rel env root path in
      match err with
      | Some e => mret (copyInfos, Some e)
      | None =>
          if String.eqb rel "." then mret (copyInfos, None)
          else
            let '(matched, _) := filepath_Match env origPath rel in
            if negb matched then mret (copyInfos, None)
            else
              r ← calcCopyInfoNoWildcards rel;
              let '(subInfos, err) := r in
              match err with
              | Some e => mret (copyInfos, Some e)
              | None => mret (copyInfos ++ subInfos, None)
              end
      end
  end.

Definition copyWithWildcards (origPath : string) : M (list copyInfo * error) :=
  o ← getCopier;
  match source o with
  | None => mret ([], Some (Panic "nil pointer dereference"))
  | Some o_source =>
      let root := Root o_source in
      _ ← emit (EvWalkDir root);
      r ← walkDir (copyWithWildcards_fn root origPath) (filepath_WalkDir env root) [];
      let '(copyInfos, err) := r in
      match err with
      | Some e => mret ([], Some e)
      | None => mret (copyInfos, None)
      end
  end.

Definition calcCopyInfo (origPath : string) (allowWildcards : bool)
  : M (list copyInfo * error) :=
  calcCopyInfoBody copyWithWildcards origPath allowWildcards.

(** *** getCopyInfoForSourcePath, getCopyInfosForSourcePaths *)

Definition getCopyInfoForSourcePath (orig dest : string) : M (list copyInfo * error) :=
  if negb (urlutil_IsURL env orig) then calcCopyInfo orig true
  else
  o ← getCopier;
  r ← liftIO (download o orig);
  let '(remote, path, err) := r in
  match err with
  | Some e => mret ([], Some e)
  | None =>
  let unnamed := String.eqb path "" in
  if unnamed && strings_HasSuffix dest "/"
  then mret ([], Some (Errorf ("cannot determine filename for source " +:+ orig)))
  else
  let path := if unnamed then unnamedFilename else path in
  match remote with
  | None => mret ([], Some (Panic "nil pointer dereference"))
  | Some remote =>
  o ← getCopier;
  _ ← putCopier (set_tmpPaths o (tmpPaths o ++ [Root remote]));
  r ← liftIO (source_Hash remote path);
  let '(hash, err) := r in
  let ci := newCopyInfoFromSource remote path hash in
  let ci := set_noDecompress ci true in
  mret (newCopyInfos [ci], err)
  end end.

(** The range loop of getCopyInfosForSourcePaths. *)
Fixpoint getCopyInfosForSourcePaths_loop (sources : list string) (dest : string)
    (infos : list copyInfo) : M (list copyInfo * error) :=
  match sources with
  | [] => mret (infos, None)
  | orig :: rest =>
      r ← getCopyInfoForSourcePath orig dest;
      let '(subinfos, err) := r in
      match err with
      | Some e => mret ([], Some e)
      | None => getCopyInfosForSourcePaths_loop rest dest (infos ++ subinfos)
      end
  end.

Definition getCopyInfosForSourcePaths (sources : list string) (dest : string)
  : M (list copyInfo * error) :=
  r ← getCopyInfosForSourcePaths_loop sources dest [];
  let '(infos, err) := r in
  match err with
  | Some e => mret ([], Some e)
  | None =>
      if Nat.eqb (List.length infos) 0
      then mret ([], Some (Errorf "no source files were specified"))
      else mret (infos, None)
  end.

(** *** createCopyInstruction *)

Definition createCopyInstruction (sourcesAndDest : SourcesAndDest) (cmdName : string)
  : M (copyInstruction * error) :=
  let inst := {| cmdName := cmdName; infos := [];
                 dest := filepath_FromSlash (DestPath sourcesAndDest);
                 chownStr := ""; allowLocalDecompression := false;
                 preserveOwnership := false |} in
  r ← getCopyInfosForSourcePaths (SourcePaths sourcesAndDest) (dest inst);
  let '(infos, err) := r in
  match err with
  | Some e => mret (inst, Some (Wrapf e (cmdName +:+ " failed")))
  | None =>
      if Nat.ltb 1 (List.length infos)
         && negb (strings_HasSuffix (dest inst) (string_of_char os_PathSeparator))
      then mret (inst, Some (Errorf ("When using " +:+ cmdName +:+
             " with more than one source file, the destination must be a directory and end with a /")))
      else mret (set_infos inst infos, None)
  end.

(** *** Cleanup *)

Fixpoint removeAll (paths : list string) : M unit :=
  match paths with
  | [] => mret tt
  | p :: rest => _ ← emit (EvRemoveAll p); removeAll rest
  end.

Definition Cleanup : M unit :=
  o ← getCopier;
  _ ← removeAll (tmpPaths o);
  o ← getCopier;
  _ ← putCopier (set_tmpPaths o []);
  o ← getCopier;
  match activeLayer o with
  | Some l =>
      _ ← emit (EvRelease l);
      o ← getCopier;
      putCopier (set_activeLayer o None)
  | None => mret tt
  end.

(** *** getFilenameForDownload *)

Definition getFilenameForDownload (path : string) (resp : Response) : string :=
  let fromHeader :=
    let contentDisposition := Header_Get resp "Content-Disposition" in
    if negb (String.eqb contentDisposition "") then
      let '(_, params, err) := mime_ParseMediaType env contentDisposition in
      match err with
      | None =>
          let param := default "" (params !! "filename") in
          if negb (String.eqb param "") && negb (strings_HasSuffix param "/") then
            let filename := filepath_Base (filepath_FromSlash param) in
            if negb (String.eqb filename "") then filename else ""
          else ""
      | Some _ => ""
      end
    else "" in
  if negb (String.eqb path "") && negb (strings_HasSuffix path "/") then
    let filename := filepath_Base (filepath_FromSlash path) in
    if negb (String.eqb filename "") then filename else fromHeader
  else fromHeader.

(** *** downloadSource *)

(** The value of mTime at the call of system.Chtimes. *)
Definition downloadSource_mTime (resp : Response) : Time :=
  let mTime := zeroTime in
  let lastMod := Header_Get resp "Last-Modified" in
  if negb (String.eqb lastMod "") then
    let '(parsedMTime, err) := http_ParseTime env lastMod in
    match err with
    | None => parsedMTime
    | Some _ => mTime
    end
  else mTime.

Definition downloadSource (srcURL : string) : IO (option Source * string * error) :=
  let '(u_Path, err) := url_Parse env srcURL in
  match err with
  | Some e => mret (None, "", Some e)
  | None =>
  _ ← io_emit (EvHttpGet srcURL);
  let '(resp, err) := GetWithStatusError env srcURL in
  match err with
  | Some e => mret (None, "", Some e)
  | None =>
  let filename := getFilenameForDownload u_Path resp in
  _ ← io_emit EvMkdirTemp;
  let '(tmpDir, err) := longpath_MkdirTemp env "" "docker-remote" in
  match err with
  | Some e => mret (None, "", Some e)
  | None =>
  (* first defer: on error, remove tmpDir *)
  let deferred1 : IO unit := io_emit (EvRemoveAll tmpDir) in
  let tmpFileName := if String.eqb filename "" then unnamedFilename else filename in
  let tmpFileName := filepath_Join env tmpDir tmpFileName in
  _ ← io_emit (EvOpenFile tmpFileName);
  match os_OpenFile env tmpFileName with
  | Some e => _ ← deferred1; mret (None, "", Some e)
  | None =>
  (* second defer: on error, close tmpFile; it runs before the first *)
  let deferred2 : IO unit := io_emit (EvClose tmpFileName) in
  _ ← io_emit (EvIoCopy tmpFileName);
  match io_Copy env tmpFileName resp with
  | Some e => _ ← deferred2; _ ← deferred1; mret (None, "", Some e)
  | None =>
  _ ← io_emit EvFprintln;
  let mTime := downloadSource_mTime resp in
  _ ← io_emit (EvClose tmpFileName);
  _ ← io_emit (EvChtimes tmpFileName mTime mTime);
  match system_Chtimes env tmpFileName mTime mTime with
  | Some e => _ ← deferred2; _ ← deferred1; mret (None, "", Some e)
  | None =>
  let '(lc, err) := NewLazySource env tmpDir in
  match err with
  | Some e => _ ← deferred2; _ ← deferred1; mret (lc, filename, Some e)
  | None => mret (lc, filename, None)
  end end end end end end end.

(** newRemoteSourceDownloader *)
Definition newRemoteSourceDownloader : sourceDownloader :=
  fun url => downloadSource url.

Definition errOnSourceDownload : sourceDownloader :=
  fun _ => ((None, "", Some (Errorf "source can't be a URL for COPY")), []).

(** *** performCopyForInfo *)

Definition copyInfo_fullPath (c : copyInfo) : string * error :=
  symlink_FollowSymlinkInScope env (filepath_Join env (root c) (path c)) (root c).

Definition isExistingDirectory (path : string) : IO (bool * error) :=
  _ ← io_emit (EvOsStat path);
  let '(destStat, err) := os_Stat env path in
  match err with
  | Some e => if isNotExist e then mret (false, None) else mret (false, Some e)
  | None => mret (IsDir destStat, None)
  end.

Definition copyDirectory (source dest : string) (identity : option identity) : IO error :=
  r ← isExistingDirectory dest;
  let '(destExists, err) := r in
  match err with
  | Some e => mret (Some (Wrapf e "failed to query destination path"))
  | None =>
  _ ← io_emit (EvCopyWithTar source dest);
  match archiver_CopyWithTar env source dest with
  | Some e => mret (Some (Wrapf e "failed to copy directory"))
  | None =>
  match identity with
  | Some id =>
      _ ← io_emit (EvFixPermissions source dest id (negb destExists));
      mret (fixPermissions env source dest id (negb destExists))
  | None => mret None
  end end end.

Definition copyFile (source dest : string) (identity : option identity) : IO error :=
  created ←
    match identity with
    | None =>
        _ ← io_emit (EvMkdirAll (filepath_Dir env dest));
        mret (os_MkdirAll env (filepath_Dir env dest))
    | Some id =>
        _ ← io_emit (EvMkdirAllAndChown (filepath_Dir env dest) (UID id) (GID id));
        match user_MkdirAllAndChown env (filepath_Dir env dest) (UID id) (GID id) with
        | Some e => mret (Some (Wrapf e "failed to create new directory"))
        | None => mret None
        end
    end;
  match created with
  | Some e => mret (Some e)
  | None =>
  _ ← io_emit (EvCopyFileWithTar source dest);
  match archiver_CopyFileWithTar env source dest with
  | Some e => mret (Some (Wrapf e "failed to copy file"))
  | None =>
  match identity with
  | Some id =>
      _ ← io_emit (EvFixPermissions source dest id false);
      mret (fixPermissions env source dest id false)
  | None => mret None
  end end end.

Definition performCopyForInfo (dest source : copyInfo) (options : copyFileOptions)
  : IO error :=
  let '(srcPath, err) := copyInfo_fullPath source in
  match err with
  | Some e => mret (Some e)
  | None =>
  let '(destPath, err) := copyInfo_fullPath dest in
  match err with
  | Some e => mret (Some e)
  | None =>
  _ ← io_emit (EvOsStat srcPath);
  let '(src, err) := os_Stat env srcPath in
  match err with
  | Some e => mret (Some (Wrapf e "source path not found"))
  | None =>
  if IsDir src then copyDirectory srcPath destPath (opt_identity options)
  else
  if decompress options && archive_IsArchivePath env srcPath
     && negb (noDecompress source)
  then
    _ ← io_emit (EvOsOpen srcPath);
    match os_Open env srcPath with
    | Some e => mret (Some e)
    | None =>
        _ ← io_emit (EvUntar srcPath destPath);
        let r := archiver_Untar env srcPath destPath in
        _ ← io_emit (EvClose srcPath);
        mret r
    end
  else
  r ← isExistingDirectory destPath;
  let '(destExistsAsDir, err) := r in
  match err with
  | Some e => mret (Some e)
  | None =>
  let destPath :=
    if destExistsAsDir
       || strings_HasSuffix (path dest) (string_of_char os_PathSeparator)
    then filepath_Join env destPath (filepath_Base (path source))
    else destPath in
  copyFile srcPath destPath (opt_identity options)
  end end end end.

End Program.

(** ** A concrete environment

    A build context rooted at /ctx that holds the file x, the directory
    dir and, in it, the files a and b; a remote file server; a toy
    digest that joins the member fingerprints with commas. *)

Module Fixture.

Definition ctxSource : Source :=
  {| Root := "/ctx";
     Hash := fun p => ("h(" +:+ strings_TrimPrefix p "/" +:+ ")", None) |}.

Definition layerSource : Source :=
  {| Root := "/layer";
     Hash := fun p => ("h(" +:+ strings_TrimPrefix p "/" +:+ ")", None) |}.

Definition tmpSource : Source :=
  {| Root := "/tmp/docker-remote1";
     Hash := fun p => ("h(" +:+ p +:+ ")", None) |}.

Definition statTable (p : string) : FileInfo * error :=
  if String.eqb p "dir" then ({| IsDir := true |}, None)
  else if String.eqb p "" then ({| IsDir := true |}, None)
  else if String.eqb p "x" then ({| IsDir := false |}, None)
  else if String.eqb p "/x" then ({| IsDir := false |}, None)
  else if String.eqb p "dir/a" then ({| IsDir := false |}, None)
  else if String.eqb p "dir/b" then ({| IsDir := false |}, None)
  else ({| IsDir := false |}, Some (PathError "lstat" p os_ErrNotExist)).

Definition walkTable (r p : string) : list (string * error) :=
  if String.eqb p (r +:+ "/dir")
  then [(r +:+ "/dir", None); (r +:+ "/dir/a", None); (r +:+ "/dir/b", None)]
  else if String.eqb p r
  then [(r, None); (r +:+ "/dir", None); (r +:+ "/dir/a", None);
        (r +:+ "/dir/b", None); (r +:+ "/x", None)]
  else [(p, Some (PathError "lstat" p os_ErrNotExist))].

Definition walkAny (p : string) : list (string * error) :=
  if strings_HasPrefix p "/ctx" then walkTable "/ctx" p else walkTable "/layer" p.

Definition relTable (basepath targpath : string) : string * error :=
  if String.eqb basepath targpath then (".", None)
  else if strings_HasPrefix targpath (basepath +:+ "/")
  then (strings_TrimPrefix targpath (basepath +:+ "/"), None)
  else ("", Some (External "Rel: can't make path relative"))%string.

Fixpoint hasStar (s : string) : bool :=
  match s with
  | EmptyString => false
  | String c s' => Ascii.eqb c "*"%char || hasStar s'
  end.

(** A matcher for the patterns used below: "*" matches every name
    without separator, any other pattern matches itself. *)
Definition matchTable (pattern name : string) : bool * error :=
  if String.eqb pattern "*"
  then (negb (List.existsb os_IsPathSeparator (list_ascii_of_string name)), None)
  else (String.eqb pattern name, None).

(** The header value attachment; filename="sub/a.txt", with its quotes. *)
Definition dispositionHeader : string :=
  "attachment; filename=" +:+ String (Ascii.ascii_of_nat 34)
     ("sub/a.txt" +:+ String (Ascii.ascii_of_nat 34) "").

Definition response (url : string) : Response :=
  {| Header_Get := fun k =>
       if String.eqb url "http://host/dl/" && String.eqb k "Content-Disposition"
       then dispositionHeader
       else if String.eqb url "http://host/archive.tar" && String.eqb k "Last-Modified"
       then "Wed, 21 Oct 2015 07:28:00 GMT"
       else "";
     ContentLength := 3 |}.

Definition env : Env :=
  {| validateCopySourcePath := fun _ _ => None;
     containsWildcards := hasStar;
     digest := String.concat ",";
     fixPermissions := fun _ _ _ _ => None;
     urlutil_IsURL := fun s => strings_HasPrefix s "http://";
     NewLazySource := fun r =>
       if String.eqb r "/layer" then (Some layerSource, None)
       else (Some tmpSource, None);
     StatAt := fun _ p => statTable p;
     FullPath := fun s p => (Root s +:+ "/" +:+ p, None);
     GetWithStatusError := fun u => (response u, None);
     filepath_WalkDir := walkAny;
     filepath_Rel := relTable;
     filepath_Match := matchTable;
     filepath_Join := fun a b => a +:+ "/" +:+ b;
     filepath_Dir := fun p => p;
     url_Parse := fun u => (strings_TrimPrefix u "http://host", None);
     mime_ParseMediaType := fun v =>
       if String.eqb v dispositionHeader
       then ("attachment", {[ "filename" := "sub/a.txt" ]}, None)
       else ("", ∅, Some (External "mime: no media type"));
     http_ParseTime := fun v =>
       if String.eqb v "Wed, 21 Oct 2015 07:28:00 GMT"
       then (1445412480%Z, None)
       else (zeroTime, Some (External "parsing time"));
     longpath_MkdirTemp := fun _ _ => ("/tmp/docker-remote1", None);
     os_OpenFile := fun _ => None;
     io_Copy := fun _ _ => None;
     system_Chtimes := fun _ _ _ => None;
     os_Stat := fun p =>
       if String.eqb p "/tmp/docker-remote1/archive.tar"
       then ({| IsDir := false |}, None)
       else ({| IsDir := false |}, Some (PathError "stat" p os_ErrNotExist));
     os_Open := fun _ => None;
     os_MkdirAll := fun _ => None;
     user_MkdirAllAndChown := fun _ _ _ => None;
     symlink_FollowSymlinkInScope := fun p _ => (p, None);
     archive_IsArchivePath := fun p => strings_HasSuffix p ".tar";
     archiver_Untar := fun _ _ => None;
     archiver_CopyWithTar := fun _ _ => None;
     archiver_CopyFileWithTar := fun _ _ => None |}.

Definition world0 : World := {| pathCache := ∅; layerCalls := 0 |}.

(** A copier over the local build context. *)
Definition localCopier : copier :=
  {| imageSource := None; source := Some ctxSource;
     download := newRemoteSourceDownloader env;
     activeLayer := None; tmpPaths := [] |}.

Definition image (id : string) : imageMount :=
  {| ImageID := id; NewRWLayer := fun _ => ({| layerRoot := "/layer" |}, None) |}.

(** A copier over a prior image. *)
Definition imageCopier (id : string) : copier :=
  {| imageSource := Some (image id); source := None;
     download := errOnSourceDownload;
     activeLayer := None; tmpPaths := [] |}.

End Fixture.

(** ** What resolution does to the copier and to the outside world *)

Definition isCreated (e : Event) : bool :=
  match e with EvNewRWLayer _ None => true | _ => false end.

Definition isRelease (e : Event) : bool :=
  match e with EvRelease _ => true | _ => false end.

Definition isCacheEvent (e : Event) : bool :=
  match e with EvCacheLoad _ | EvCacheStore _ _ => true | _ => false end.

(** The calls of the copy executor that change the target filesystem. *)
Definition isCopyEvent (e : Event) : bool :=
  match e with
  | EvUntar _ _ | EvCopyWithTar _ _ | EvCopyFileWithTar _ _
  | EvMkdirAll _ | EvMkdirAllAndChown _ _ _ | EvFixPermissions _ _ _ _ => true
  | _ => false
  end.

(** Reading the source tree. *)
Definition isReadEvent (e : Event) : bool :=
  match e with EvStatAt _ _ | EvHash _ _ | EvWalkDir _ => true | _ => false end.

(** What a downloader may do: fetch, and manage its temporary files. *)
Definition isDownloadEvent (e : Event) : bool :=
  match e with
  | EvHttpGet _ | EvMkdirTemp | EvOpenFile _ | EvIoCopy _ | EvFprintln
  | EvClose _ | EvChtimes _ _ _ | EvRemoveAll _ => true
  | _ => false
  end.

Definition plainEvent (e : Event) : bool := isReadEvent e || isDownloadEvent e.

Definition countEv (p : Event -> bool) (evs : list Event) : nat :=
  List.length (List.filter p evs).

Definition wellBehaved (d : sourceDownloader) : Prop :=
  forall url, Forall (fun e => isDownloadEvent e = true) (snd (d url)).

(** The events resolution may emit for the copier [o]: the cache and the
    layer store are only touched when the copier has an image source. *)
Definition resolutionEvent (o : copier) (e : Event) : Prop :=
  match e with
  | EvCacheLoad _ | EvCacheStore _ _ | EvNewRWLayer _ _ => imageSource o <> None
  | _ => plainEvent e = true
  end.

Definition layerFacts (o : copier) (evs : list Event) (o' : copier) : Prop :=
  match activeLayer o with
  | Some l => activeLayer o' = Some l /\ countEv isCreated evs = 0
  | None =>
      (activeLayer o' = None /\ countEv isCreated evs = 0)
      \/ (is_Some (activeLayer o') /\ countEv isCreated evs = 1)
  end.

(** One or several resolution calls, seen from outside: the image source
    and the downloader stay, only resolution events are emitted, at most
    one layer is created, and without an image source the world is left
    as it was. *)
Definition step (o : copier) (w : World) (evs : list Event)
    (o' : copier) (w' : World) : Prop :=
  imageSource o' = imageSource o /\ download o' = download o
  /\ Forall (resolutionEvent o) evs /\ layerFacts o evs o'
  /\ (imageSource o = None -> w' = w).

Definition plain (evs : list Event) : Prop :=
  Forall (fun e => plainEvent e = true) evs.

(** [steps m]: whatever the copier and the world, a run of [m] is a
    [step], provided the downloader only downloads. *)
Definition steps {A} (m : M A) : Prop :=
  forall o w, wellBehaved (download o) ->
    step o w (eventsOf (m o w)) (copierOf (m o w)) (worldOf (m o w)).


(** ** Sessions

    A session is what a build step asks of one copier before it calls
    Cleanup: any sequence of the resolution entry points. *)

Inductive request : Type :=
| ReqCalcCopyInfo (origPath : string) (allowWildcards : bool)
| ReqSourcePath (orig dest : string)
| ReqSourcePaths (sources : list string) (dest : string)
| ReqInstruction (sourcesAndDest : SourcesAndDest) (cmdName : string).

Definition serve (env : Env) (r : request) : M unit :=
  match r with
  | ReqCalcCopyInfo p aw => _ ← calcCopyInfo env p aw; mret tt
  | ReqSourcePath orig dest => _ ← getCopyInfoForSourcePath env orig dest; mret tt
  | ReqSourcePaths sources dest =>
      _ ← getCopyInfosForSourcePaths env sources dest; mret tt
  | ReqInstruction sd cmd => _ ← createCopyInstruction env sd cmd; mret tt
  end.

Fixpoint session (env : Env) (rs : list request) : M unit :=
  match rs with
  | [] => mret tt
  | r :: rest => _ ← serve env r; session env rest
  end.

(** The copier Cleanup leaves behind, and the events it emits. *)
Definition cleaned (o : copier) : copier :=
  set_activeLayer (set_tmpPaths o []) None.

Definition cleanupEvents (o : copier) : list Event :=
  List.map EvRemoveAll (tmpPaths o)
  ++ match activeLayer o with Some l => [EvRelease l] | None => [] end.

(** ** Directory fingerprints *)

(** What the walk of walkSource contributes for one visited entry: the
    hash of the entry, unless its path relative to the source root is
    "." or the hash fails. *)
Definition memberHash (env : Env) (source : Source) (entry : string * error)
  : list string :=
  let rel := fst (filepath_Rel env (Root source) (fst entry)) in
  if String.eqb rel "." then []
  else match Hash source rel with
       | (h, None) => [h]
       | (_, Some _) => []
       end.

(** A walk that reports no error and whose paths can all be made
    relative to the source root. *)
Definition walkable (env : Env) (source : Source) (entries : list (string * error))
  : Prop :=
  Forall (fun entry =>
            snd entry = None
            /\ snd (filepath_Rel env (Root source) (fst entry)) = None) entries.

(** The members as the specification words them: every entry of the
    subtree except the root entry of the subtree, the directory [fp]
    itself. *)
Definition spec_directoryMembers (env : Env) (source : Source) (fp : string)
    (entries : list (string * error)) : list string :=
  List.flat_map
    (fun entry =>
       if String.eqb (fst entry) fp then []
       else [fst (Hash source (fst (filepath_Rel env (Root source) (fst entry))))])
    entries.

(** The same collaborators, with another enumeration of directories. *)
Definition with_WalkDir (env : Env) (enumerate : string -> list (string * error))
  : Env :=
  {| validateCopySourcePath := validateCopySourcePath env;
     containsWildcards := containsWildcards env;
     digest := digest env;
     fixPermissions := fixPermissions env;
     urlutil_IsURL := urlutil_IsURL env;
     NewLazySource := NewLazySource env;
     StatAt := StatAt env;
     FullPath := FullPath env;
     GetWithStatusError := GetWithStatusError env;
     filepath_WalkDir := enumerate;
     filepath_Rel := filepath_Rel env;
     filepath_Match := filepath_Match env;
     filepath_Join := filepath_Join env;
     filepath_Dir := filepath_Dir env;
     url_Parse := url_Parse env;
     mime_ParseMediaType := mime_ParseMediaType env;
     http_ParseTime := http_ParseTime env;
     longpath_MkdirTemp := longpath_MkdirTemp env;
     os_OpenFile := os_OpenFile env;
     io_Copy := io_Copy env;
     system_Chtimes := system_Chtimes env;
     os_Stat := os_Stat env;
     os_Open := os_Open env;
     os_MkdirAll := os_MkdirAll env;
     user_MkdirAllAndChown := user_MkdirAllAndChown env;
     symlink_FollowSymlinkInScope := symlink_FollowSymlinkInScope env;
     archive_IsArchivePath := archive_IsArchivePath env;
     archiver_Untar := archiver_Untar env;
     archiver_CopyWithTar := archiver_CopyWithTar env;
     archiver_CopyFileWithTar := archiver_CopyFileWithTar env |}.

(** The source a resolution reads: the one the copier holds, or, when
    the copier has an image source and no layer yet, the lazy source
    over the layer that this resolution creates. *)
Definition resolvesFrom (env : Env) (o : copier) (w : World) (src : Source) : Prop :=
  match imageSource o, activeLayer o with
  | Some im, None =>
      snd (NewRWLayer im (layerCalls w)) = None
      /\ NewLazySource env (layerRoot (fst (NewRWLayer im (layerCalls w))))
         = (Some src, None)
  | _, _ => source o = Some src
  end.

(** The state in which a single-path resolution of [p] computes a fresh
    fingerprint from the source [src]: the path passes validation,
    wildcards are out of play and the cache has no entry for the
    path. *)
Definition freshResolution (env : Env) (o : copier) (w : World) (src : Source)
    (p : string) (aw : bool) : Prop :=
  validateCopySourcePath env (imageSource o) p = None
  /\ resolvesFrom env o w src
  /\ aw && containsWildcards env (normalizeOrigPath p) = false
  /\ (forall im, imageSource o = Some im -> ImageID im <> "" ->
        pathCache w !! (ImageID im +:+ normalizeOrigPath p) = None).

(** ** Copy options *)

Definition set_decompress (options : copyFileOptions) (b : bool) : copyFileOptions :=
  {| decompress := b; opt_identity := opt_identity options |}.

(** The extraction branch of performCopyForInfo: opening the archive and
    untarring it. *)
Definition isExtractEvent (e : Event) : bool :=
  match e with EvOsOpen _ | EvUntar _ _ => true | _ => false end.

(** ** Path segments *)

(** A path element: not empty, no separator in it. *)
Definition isName (name : string) : Prop :=
  name <> ""
  /\ Forall (fun c => os_IsPathSeparator c = false) (list_ascii_of_string name).

(** ** Download events *)

Definition isChtimes (e : Event) : bool :=
  match e with EvChtimes _ _ _ => true | _ => false end.

(** The calls that change a filesystem, the host's or the target's:
    making, writing, stamping and removing files and directories. *)
Definition isFilesystemMutation (e : Event) : bool :=
  match e with
  | EvMkdirTemp | EvOpenFile _ | EvIoCopy _ | EvChtimes _ _ _ | EvRemoveAll _ => true
  | _ => isCopyEvent e
  end.

(** The same collaborators, with another content of the sources. *)
Definition with_StatAt (env : Env) (stat : Source -> string -> FileInfo * error)
  : Env :=
  {| validateCopySourcePath := validateCopySourcePath env;
     containsWildcards := containsWildcards env;
     digest := digest env;
     fixPermissions := fixPermissions env;
     urlutil_IsURL := urlutil_IsURL env;
     NewLazySource := NewLazySource env;
     StatAt := stat;
     FullPath := FullPath env;
     GetWithStatusError := GetWithStatusError env;
     filepath_WalkDir := filepath_WalkDir env;
     filepath_Rel := filepath_Rel env;
     filepath_Match := filepath_Match env;
     filepath_Join := filepath_Join env;
     filepath_Dir := filepath_Dir env;
     url_Parse := url_Parse env;
     mime_ParseMediaType := mime_ParseMediaType env;
     http_ParseTime := http_ParseTime env;
     longpath_MkdirTemp := longpath_MkdirTemp env;
     os_OpenFile := os_OpenFile env;
     io_Copy := io_Copy env;
     system_Chtimes := system_Chtimes env;
     os_Stat := os_Stat env;
     os_Open := os_Open env;
     os_MkdirAll := os_MkdirAll env;
     user_MkdirAllAndChown := user_MkdirAllAndChown env;
     symlink_FollowSymlinkInScope := symlink_FollowSymlinkInScope env;
     archive_IsArchivePath := archive_IsArchivePath env;
     archiver_Untar := archiver_Untar env;
     archiver_CopyWithTar := archiver_CopyWithTar env;
     archiver_CopyFileWithTar := archiver_CopyFileWithTar env |}.

(** The layer of [Fixture] with one more file in it, imgx. *)
Definition statWithImgx (s : Source) (p : string) : FileInfo * error :=
  if String.eqb p "imgx" then ({| IsDir := false |}, None)
  else StatAt Fixture.env s p.

(** ** Resolution against the local build context *)

(** [readOnly m]: run by a copier without image source, [m] leaves the
    copier and the world as they were. *)
Definition readOnly {A} (m : M A) : Prop :=
  forall o w, imageSource o = None ->
    copierOf (m o w) = o /\ worldOf (m o w) = w.

(** The entries of a walk that copyWithWildcards resolves, by their path
    relative to [root], in the order of the walk: those whose relative
    path is not "." and is matched by [pattern]. *)
Definition wildcardMatches (env : Env) (root pattern : string)
    (entries : list (string * error)) : list string :=
  List.flat_map
    (fun entry =>
       let rel := fst (filepath_Rel env root (fst entry)) in
       if String.eqb rel "." then []
       else if fst (filepath_Match env pattern rel) then [rel] else [])
    entries.

(** The instruction createCopyInstruction starts from, and returns when
    it fails. *)
Definition emptyInstruction (sourcesAndDest : SourcesAndDest) (cmdName : string)
  : copyInstruction :=
  {| cmdName := cmdName; infos := [];
     dest := filepath_FromSlash (DestPath sourcesAndDest);
     chownStr := ""; allowLocalDecompression := false;
     preserveOwnership := false |}.

(** ** Fingerprints *)

(** A fingerprint as calcCopyInfo computes it: that of a file, or that
    of a directory. *)
Definition tagged (env : Env) (h : string) : Prop :=
  (exists x, h = "file:" +:+ x)
  \/ (exists subfiles, h = hashStringSlice env "dir" subfiles).

Definition cacheTagged (env : Env) (w : World) : Prop :=
  forall key h, pathCache w !! key = Some h -> tagged env h.

(** [taggedInfos m]: from a cache that holds fingerprints only, [m]
    resolves to copyInfos that carry fingerprints and leaves such a
    cache. *)
Definition taggedInfos (env : Env) (m : M (list copyInfo * error)) : Prop :=
  forall o w, cacheTagged env w ->
    Forall (fun ci => tagged env (hash ci)) (fst (result (m o w)))
    /\ cacheTagged env (worldOf (m o w)).

(** ** Temporary directories *)

(** [contextInfos m]: [m] tracks no temporary directory and resolves to
    copyInfos that are not exempt from extraction. *)
Definition contextInfos (m : M (list copyInfo * error)) : Prop :=
  forall o w,
    tmpPaths (copierOf (m o w)) = tmpPaths o
    /\ Forall (fun ci => noDecompress ci = false) (fst (result (m o w))).

(** The roots of the downloads among [infos] are all tracked by [o]. *)
Definition downloadsTracked (o : copier) (infos : list copyInfo) : Prop :=
  Forall (fun ci => noDecompress ci = true -> root ci ∈ tmpPaths o) infos.

Definition isRemoveAll (e : Event) : bool :=
  match e with EvRemoveAll _ => true | _ => false end.

(** ** The copy executor *)

(** Whether [path] is a directory when performCopyForInfo looks:
    isExistingDirectory without its error. *)
Definition existsAsDirectory (env : Env) (path : string) : bool :=
  match os_Stat env path with
  | (destStat, None) => IsDir destStat
  | (_, Some _) => false
  end.

(** Where performCopyForInfo copies a plain file to. *)
Definition fileTarget (env : Env) (dest source : copyInfo) (destPath : string)
  : string :=
  if existsAsDirectory env destPath
     || strings_HasSuffix (path dest) (string_of_char os_PathSeparator)
  then filepath_Join env destPath (filepath_Base (path source))
  else destPath.

Definition isFixPermissions (e : Event) : bool :=
  match e with EvFixPermissions _ _ _ _ => true | _ => false end.

Definition isChown (e : Event) : bool :=
  match e with
  | EvFixPermissions _ _ _ _ | EvMkdirAllAndChown _ _ _ => true
  | _ => false
  end.

(** ** A concrete environment with failures

    The environment of [Fixture] in which one collaborator may fail, and
    with a target filesystem: /ctx/dir is a directory, /ctx/x and
    /ctx/a.tar are files, /rootfs/etc is a directory, /rootfs/locked
    cannot be queried, and nothing else exists. *)

Module Faulty.

Inductive fault : Type :=
| NoFault
| LazySourceFails
| IoCopyFails
| CopyFileFails.

Definition failing (f g : fault) : bool :=
  match f, g with
  | LazySourceFails, LazySourceFails | IoCopyFails, IoCopyFails
  | CopyFileFails, CopyFileFails => true
  | _, _ => false
  end.

Definition targetTable (p : string) : FileInfo * error :=
  if String.eqb p "/ctx/dir" then ({| IsDir := true |}, None)
  else if String.eqb p "/ctx/x" then ({| IsDir := false |}, None)
  else if String.eqb p "/ctx/a.tar" then ({| IsDir := false |}, None)
  else if String.eqb p "/rootfs/etc" then ({| IsDir := true |}, None)
  else if String.eqb p "/rootfs/locked"
  then ({| IsDir := false |}, Some (PathError "stat" p (External "permission denied")))
  else ({| IsDir := false |}, Some (PathError "stat" p os_ErrNotExist)).

Definition env (f : fault) : Env :=
  {| validateCopySourcePath := validateCopySourcePath Fixture.env;
     containsWildcards := containsWildcards Fixture.env;
     digest := digest Fixture.env;
     fixPermissions := fixPermissions Fixture.env;
     urlutil_IsURL := urlutil_IsURL Fixture.env;
     NewLazySource := fun r =>
       if failing f LazySourceFails
       then (None, Some (External "cannot create lazy source"))
       else NewLazySource Fixture.env r;
     StatAt := StatAt Fixture.env;
     FullPath := FullPath Fixture.env;
     GetWithStatusError := GetWithStatusError Fixture.env;
     filepath_WalkDir := filepath_WalkDir Fixture.env;
     filepath_Rel := filepath_Rel Fixture.env;
     filepath_Match := filepath_Match Fixture.env;
     filepath_Join := filepath_Join Fixture.env;
     filepath_Dir := filepath_Dir Fixture.env;
     url_Parse := url_Parse Fixture.env;
     mime_ParseMediaType := mime_ParseMediaType Fixture.env;
     http_ParseTime := http_ParseTime Fixture.env;
     longpath_MkdirTemp := longpath_MkdirTemp Fixture.env;
     os_OpenFile := os_OpenFile Fixture.env;
     io_Copy := fun _ _ =>
       if failing f IoCopyFails then Some (External "connection reset") else None;
     system_Chtimes := system_Chtimes Fixture.env;
     os_Stat := targetTable;
     os_Open := os_Open Fixture.env;
     os_MkdirAll := os_MkdirAll Fixture.env;
     user_MkdirAllAndChown := user_MkdirAllAndChown Fixture.env;
     symlink_FollowSymlinkInScope := symlink_FollowSymlinkInScope Fixture.env;
     archive_IsArchivePath := archive_IsArchivePath Fixture.env;
     archiver_Untar := archiver_Untar Fixture.env;
     archiver_CopyWithTar := archiver_CopyWithTar Fixture.env;
     archiver_CopyFileWithTar := fun _ _ =>
       if failing f CopyFileFails then Some (External "no space left on device")
       else None |}.

(** An image whose layer store refuses to create a layer. *)
Definition brokenImage : imageMount :=
  {| ImageID := "img";
     NewRWLayer := fun _ => ({| layerRoot := "" |}, Some (External "no layer")) |}.

Definition brokenImageCopier : copier :=
  {| imageSource := Some brokenImage; source := None;
     download := errOnSourceDownload;
     activeLayer := None; tmpPaths := [] |}.

(** A copier of ADD that already tracks a download. *)
Definition addCopier (f : fault) : copier :=
  {| imageSource := None; source := Some Fixture.ctxSource;
     download := newRemoteSourceDownloader (env f);
     activeLayer := None; tmpPaths := ["/tmp/docker-remote0"] |}.

Definition inContext (p : string) : copyInfo :=
  {| root := "/ctx"; path := p; hash := ""; noDecompress := false |}.

Definition inRootfs (p : string) : copyInfo :=
  {| root := "/rootfs"; path := p; hash := ""; noDecompress := false |}.

Definition asUser : copyFileOptions :=
  {| decompress := true;
     opt_identity := Some {| UID := 1000; GID := 1000; SID := "" |} |}.

Definition asRoot : copyFileOptions :=
  {| decompress := true; opt_identity := None |}.

End Faulty.

(** * Properties *)

(** ** Reasoning about runs *)

Section Runs.

Lemma M_bind_run {A B} (m : M A) (k : A -> M B) o w b o2 w2 evs :
  (m ≫= k) o w = ((b, o2, w2), evs) ->
  exists a o1 w1 e1 e2,
    m o w = ((a, o1, w1), e1) /\ k a o1 w1 = ((b, o2, w2), e2) /\ evs = e1 ++ e2.
Proof.
  unfold mbind, M_bind. intros H.
  destruct (m o w) as [[[a o1] w1] e1]. simpl in H.
  destruct (k a o1 w1) as [[[b' o2'] w2'] e2] eqn:E. simpl in H.
  inversion H; subst. eexists _, _, _, _, _. repeat split; eauto.
Qed.

Lemma M_bind_eq {A B} (m : M A) (k : A -> M B) o w :
  (m ≫= k) o w
  = (fst (k (result (m o w)) (copierOf (m o w)) (worldOf (m o w))),
     eventsOf (m o w)
     ++ eventsOf (k (result (m o w)) (copierOf (m o w)) (worldOf (m o w)))).
Proof. reflexivity. Qed.

Lemma M_ret_run {A} (a : A) o w a' o' w' evs :
  (mret a : M A) o w = ((a', o', w'), evs) ->
  a' = a /\ o' = o /\ w' = w /\ evs = [].
Proof. unfold mret, M_ret. intros H; inversion H; auto. Qed.

Lemma getCopier_run o w a o' w' evs :
  getCopier o w = ((a, o', w'), evs) -> a = o /\ o' = o /\ w' = w /\ evs = [].
Proof. unfold getCopier. intros H; inversion H; auto. Qed.

Lemma putCopier_run c o w a o' w' evs :
  putCopier c o w = ((a, o', w'), evs) -> o' = c /\ w' = w /\ evs = [].
Proof. unfold putCopier. intros H; inversion H; auto. Qed.

Lemma emit_run e o w a o' w' evs :
  emit e o w = ((a, o', w'), evs) -> o' = o /\ w' = w /\ evs = [e].
Proof. unfold emit, liftIO, io_emit. simpl. intros H; inversion H; auto. Qed.

Lemma liftIO_run {A} (m : IO A) o w a o' w' evs :
  liftIO m o w = ((a, o', w'), evs) -> m = (a, evs) /\ o' = o /\ w' = w.
Proof.
  unfold liftIO. destruct m as [x t]. simpl. intros H; inversion H; auto.
Qed.

Lemma IO_bind_run {A B} (m : IO A) (k : A -> IO B) b evs :
  (m ≫= k) = (b, evs) ->
  exists a e1 e2, m = (a, e1) /\ k a = (b, e2) /\ evs = e1 ++ e2.
Proof.
  unfold mbind, IO_bind. destruct m as [a e1]. simpl.
  destruct (k a) as [b' e2] eqn:E. simpl. intros H; inversion H; subst.
  eexists _, _, _. repeat split; eauto.
Qed.

Lemma IO_bind_eq {A B} (m : IO A) (k : A -> IO B) :
  (m ≫= k) = (fst (k (fst m)), snd m ++ snd (k (fst m))).
Proof. reflexivity. Qed.

Lemma IO_ret_run {A} (a a' : A) evs :
  (mret a : IO A) = (a', evs) -> a' = a /\ evs = [].
Proof. unfold mret, IO_ret. intros H; inversion H; auto. Qed.

Lemma io_emit_run e a evs : io_emit e = (a, evs) -> evs = [e].
Proof. unfold io_emit. intros H; inversion H; auto. Qed.

End Runs.

(** Symbolic execution of a run given as an equation in the context. *)
Ltac run_step :=
  match goal with
  | H : (_ ≫= _) _ _ = (_, _) |- _ =>
      let a := fresh "a" in let o1 := fresh "o" in let w1 := fresh "w" in
      let e1 := fresh "evs" in let e2 := fresh "evs" in
      let H1 := fresh "Hrun" in let H2 := fresh "Hrun" in
      apply M_bind_run in H;
      destruct H as (a & o1 & w1 & e1 & e2 & H1 & H2 & ->)
  | H : mret _ _ _ = (_, _) |- _ =>
      apply M_ret_run in H; destruct H as (? & ? & ? & ?); subst
  | H : getCopier _ _ = (_, _) |- _ =>
      apply getCopier_run in H; destruct H as (? & ? & ? & ?); subst
  | H : putCopier _ _ _ = (_, _) |- _ =>
      apply putCopier_run in H; destruct H as (? & ? & ?); subst
  | H : emit _ _ _ = (_, _) |- _ =>
      apply emit_run in H; destruct H as (? & ? & ?); subst
  | H : liftIO _ _ _ = (_, _) |- _ =>
      apply liftIO_run in H; destruct H as (? & ? & ?); subst
  | H : (_ ≫= _) = (_, _) |- _ =>
      let a := fresh "a" in
      let e1 := fresh "evs" in let e2 := fresh "evs" in
      let H1 := fresh "Hio" in let H2 := fresh "Hio" in
      apply IO_bind_run in H;
      destruct H as (a & e1 & e2 & H1 & H2 & ->)
  | H : mret _ = (_, _) |- _ =>
      apply IO_ret_run in H; destruct H as (? & ?); subst
  | H : io_emit _ = (_, _) |- _ =>
      apply io_emit_run in H; subst
  | H : pathCache_Load _ _ _ = (_, _) |- _ =>
      unfold pathCache_Load in H; inversion H; subst; clear H
  | H : pathCache_Store _ _ _ _ = (_, _) |- _ =>
      unfold pathCache_Store in H; inversion H; subst; clear H
  | H : imageMount_NewRWLayer _ _ _ = (_, _) |- _ =>
      unfold imageMount_NewRWLayer in H; inversion H; subst; clear H
  | H : source_Hash _ _ = (_, _) |- _ =>
      unfold source_Hash in H; inversion H; subst; clear H
  | H : remotecontext_StatAt _ _ _ = (_, _) |- _ =>
      unfold remotecontext_StatAt in H; inversion H; subst; clear H
  | H : (match ?x with _ => _ end) _ _ = (_, _) |- _ => destruct x eqn:?
  | H : (match ?x with _ => _ end) = (_, _) |- _ => destruct x eqn:?
  | H : (if ?x then _ else _) _ _ = (_, _) |- _ => destruct x eqn:?
  | H : (if ?x then _ else _) = (_, _) |- _ => destruct x eqn:?
  end.

Ltac run_all :=
  repeat (run_step; cbv beta iota zeta in *; cbn [fst snd] in *; simplify_eq).

(** Bring a [resolvesFrom] hypothesis, unfolded, in line with the branch
    the run has taken. *)
Ltac fresh_source Hr :=
  repeat match type of Hr with
  | context [imageSource ?o] =>
      match goal with H : imageSource o = _ |- _ => rewrite H in Hr end
  | context [activeLayer ?o] =>
      match goal with H : activeLayer o = _ |- _ => rewrite H in Hr end
  | context [NewRWLayer ?i ?n] =>
      match goal with H : NewRWLayer i n = _ |- _ => rewrite H in Hr end
  end;
  cbn [fst snd] in Hr;
  try match type of Hr with _ /\ _ => destruct Hr as [? Hr] end;
  simplify_eq.

(** ** Resolution steps *)

Section Steps.

Lemma countEv_app p l1 l2 : countEv p (l1 ++ l2) = countEv p l1 + countEv p l2.
Proof. unfold countEv. by rewrite List.filter_app, List.length_app. Qed.

Lemma countEv_plain l : plain l -> countEv isCreated l = 0.
Proof.
  induction 1 as [|e l He _ IH]; [done|].
  unfold countEv in *. simpl. destruct e; simpl in *; try done.
Qed.

Lemma plain_app l1 l2 : plain l1 -> plain l2 -> plain (l1 ++ l2).
Proof. intros. apply Forall_app; auto. Qed.

Lemma plain_resolution o l : plain l -> Forall (resolutionEvent o) l.
Proof.
  intros H. eapply Forall_impl; [exact H|].
  intros e He. destruct e; simpl in *; try done.
Qed.

Lemma step_refl o w : step o w [] o w.
Proof.
  repeat split; auto. unfold layerFacts. destruct (activeLayer o); auto.
Qed.

Lemma step_plain o w evs o' :
  imageSource o' = imageSource o -> download o' = download o ->
  activeLayer o' = activeLayer o ->
  plain evs -> step o w evs o' w.
Proof.
  intros Hi Hd Ha Hp. repeat split; auto using plain_resolution.
  unfold layerFacts. rewrite Ha, (countEv_plain _ Hp).
  destruct (activeLayer o); auto.
Qed.

Lemma step_trans o w e1 o1 w1 e2 o2 w2 :
  step o w e1 o1 w1 -> step o1 w1 e2 o2 w2 -> step o w (e1 ++ e2) o2 w2.
Proof.
  intros (Hi1 & Hd1 & He1 & Hl1 & Hw1) (Hi2 & Hd2 & He2 & Hl2 & Hw2).
  split; [congruence|]. split; [congruence|]. split; [|split].
  3:{ intros Hn. rewrite Hw2, Hw1; auto. congruence. }
  - apply Forall_app; split; [done|].
    eapply Forall_impl; [exact He2|]. intros e. unfold resolutionEvent.
    by rewrite Hi1.
  - unfold layerFacts in *. rewrite countEv_app.
    destruct (activeLayer o) as [l|].
    + destruct Hl1 as [Ha1 Hc1]. rewrite Ha1 in Hl2. destruct Hl2. split; [done|lia].
    + destruct Hl1 as [[Ha1 Hc1]|[[l Ha1] Hc1]]; rewrite Ha1 in Hl2.
      * destruct Hl2 as [[? ?]|[? ?]]; [left|right]; split; auto; lia.
      * destruct Hl2 as [? ?]. right. split; [by eexists|lia].
Qed.

End Steps.

Ltac plain_tac :=
  repeat first [ apply plain_app | apply List.Forall_cons | apply List.Forall_nil
               | assumption | reflexivity ].

Section ResolutionSteps.
Context (env : Env).

(** Reading the source tree emits read events only. *)

Lemma copyInfoForFile_plain s p : plain (snd (copyInfoForFile env s p)).
Proof.
  destruct (copyInfoForFile env s p) as [r evs] eqn:H. simpl.
  unfold copyInfoForFile in H. run_all; plain_tac.
Qed.

Lemma walkDir_IO_plain {S} (fn : S -> string -> error -> IO (S * error)) entries :
  (forall acc p e, plain (snd (fn acc p e))) ->
  forall acc, plain (snd (walkDir fn entries acc)).
Proof.
  intros Hfn. induction entries as [|[p e] rest IH]; intros acc; simpl.
  - apply List.Forall_nil.
  - unfold mbind, IO_bind. simpl.
    pose proof (Hfn acc p e) as Hp.
    destruct (fn acc p e) as [[acc' [x|]] evs]; simpl in *.
    + by rewrite app_nil_r.
    + apply plain_app; [done | apply IH].
Qed.

Lemma walkSource_fn_plain s acc p e : plain (snd (walkSource_fn env s acc p e)).
Proof.
  destruct (walkSource_fn env s acc p e) as [r evs] eqn:H. simpl.
  unfold walkSource_fn in H. run_all; plain_tac.
Qed.

Lemma walkSource_plain s p : plain (snd (walkSource env s p)).
Proof.
  destruct (walkSource env s p) as [r evs] eqn:H. simpl.
  unfold walkSource in H. run_all.
  all: plain_tac.
  all: match goal with
       | H : walkDir ?f ?l ?a = (_, ?e) |- plain ?e =>
           replace e with (snd (walkDir f l a)) by (rewrite H; done);
           apply walkDir_IO_plain, walkSource_fn_plain
       end.
Qed.

Lemma steps_ret {A} (a : A) : steps (mret a).
Proof. intros o w _. apply step_refl. Qed.

Lemma steps_bind {A B} (m : M A) (k : A -> M B) :
  steps m -> (forall a, steps (k a)) -> steps (m ≫= k).
Proof.
  intros Hm Hk o w Hwb. unfold mbind, M_bind, eventsOf, copierOf, worldOf. simpl.
  eapply step_trans; [apply Hm, Hwb|].
  apply Hk. destruct (Hm o w Hwb) as (_ & Hd & _). unfold copierOf in Hd.
  by rewrite Hd.
Qed.

Lemma steps_liftIO {A} (m : IO A) : plain (snd m) -> steps (liftIO m).
Proof. intros Hp o w _. apply step_plain; auto. Qed.

Lemma steps_getCopier : steps getCopier.
Proof. intros o w _. apply step_refl. Qed.

Lemma steps_emit e : plainEvent e = true -> steps (emit e).
Proof. intros He. apply steps_liftIO. by constructor. Qed.

Lemma steps_walkDir {S} (fn : S -> string -> error -> M (S * error)) entries :
  (forall acc p e, steps (fn acc p e)) ->
  forall acc, steps (walkDir fn entries acc).
Proof.
  intros Hfn. induction entries as [|[p e] rest IH]; intros acc; simpl.
  - apply steps_ret.
  - apply steps_bind; [apply Hfn|].
    intros [acc' [x|]]; simpl; [apply steps_ret | apply IH].
Qed.

Ltac ev_facts :=
  repeat match goal with
  | H : copyInfoForFile _ ?s ?p = (_, ?evs) |- _ =>
      assert (plain evs)
        by (pose proof (copyInfoForFile_plain s p) as Hp; rewrite H in Hp; exact Hp);
      clear H
  | H : walkSource _ ?s ?p = (_, ?evs) |- _ =>
      assert (plain evs)
        by (pose proof (walkSource_plain s p) as Hp; rewrite H in Hp; exact Hp);
      clear H
  end.

Ltac step_direct :=
  unfold step, layerFacts;
  cbn [imageSource download activeLayer source tmpPaths
       set_source set_activeLayer set_tmpPaths];
  repeat match goal with
  | H : activeLayer _ = _ |- _ => rewrite H
  end;
  rewrite ?countEv_app;
  repeat match goal with
  | H : plain ?evs |- _ => rewrite (countEv_plain evs H)
  end;
  split; [reflexivity|]; split; [reflexivity|]; split;
  [ repeat first
      [ apply Forall_app_2 | apply List.Forall_cons | apply List.Forall_nil
      | apply plain_resolution; assumption
      | (simpl; congruence) | reflexivity ]
  | split;
    [ try (match goal with
           | |- context [match ?x with _ => _ end] => destruct x eqn:?
           end);
      cbn; eauto
    | intros ?; first [reflexivity | congruence] ] ].

Lemma calcCopyInfoBody_steps cw p aw :
  (forall p', steps (cw p')) -> steps (calcCopyInfoBody env cw p aw).
Proof.
  intros Hcw o w Hwb.
  destruct (calcCopyInfoBody env cw p aw o w) as [[[r o'] w'] evs] eqn:H.
  unfold eventsOf, copierOf, worldOf. simpl.
  unfold calcCopyInfoBody, storeInPathCache in H. run_all.
  all: ev_facts.
  all: rewrite ?app_nil_l, ?app_nil_r.
  all: try (step_direct; fail).
  all: match goal with
       | H : _ ?q ?o2 ?w2 = (_, ?o3, ?w3, ?e) |- step _ _ _ ?o3 ?w3 =>
           assert (Hs : step o2 w2 e o3 w3)
             by (pose proof (Hcw q o2 w2) as Hs;
                 unfold eventsOf, copierOf, worldOf in Hs;
                 rewrite H in Hs; apply Hs; exact Hwb);
           clear H
       end.
  all: try exact Hs.
  eapply step_trans; [|exact Hs]. step_direct.
Qed.

Lemma calcCopyInfoNoWildcards_steps p : steps (calcCopyInfoNoWildcards env p).
Proof. apply calcCopyInfoBody_steps. intros _. apply steps_ret. Qed.

Lemma copyWithWildcards_fn_steps r p acc q e :
  steps (copyWithWildcards_fn env r p acc q e).
Proof.
  unfold copyWithWildcards_fn.
  destruct e; [apply steps_ret|].
  destruct (filepath_Rel env r q) as [rel [e|]]; [apply steps_ret|].
  destruct (String.eqb rel "."); [apply steps_ret|].
  destruct (filepath_Match env p rel) as [[] ?]; simpl; [|apply steps_ret].
  apply steps_bind; [apply calcCopyInfoNoWildcards_steps|].
  intros [subInfos [x|]]; apply steps_ret.
Qed.

Lemma copyWithWildcards_steps p : steps (copyWithWildcards env p).
Proof.
  unfold copyWithWildcards.
  apply steps_bind; [apply steps_getCopier|]. intros o.
  destruct (source o); [|apply steps_ret].
  apply steps_bind; [by apply steps_emit|]. intros _.
  apply steps_bind; [apply steps_walkDir, copyWithWildcards_fn_steps|].
  intros [infos [x|]]; apply steps_ret.
Qed.

Lemma calcCopyInfo_steps p aw : steps (calcCopyInfo env p aw).
Proof. apply calcCopyInfoBody_steps, copyWithWildcards_steps. Qed.

Lemma getCopyInfoForSourcePath_steps orig dest :
  steps (getCopyInfoForSourcePath env orig dest).
Proof.
  destruct (urlutil_IsURL env orig) eqn:Hurl;
    [|unfold getCopyInfoForSourcePath; rewrite Hurl; apply calcCopyInfo_steps].
  intros o w Hwb.
  destruct (getCopyInfoForSourcePath env orig dest o w) as [[[r o'] w'] evs] eqn:H.
  unfold getCopyInfoForSourcePath in H. rewrite Hurl in H.
  unfold eventsOf, copierOf, worldOf. simpl in *. run_all.
  all: pose proof (Hwb orig) as Hd.
  all: match goal with Hx : download _ _ = (_, ?e) |- _ =>
         rewrite Hx in Hd; simpl in Hd;
         assert (plain e) by
           (eapply Forall_impl; [exact Hd|];
            intros x Hx'; unfold plainEvent; rewrite Hx'; apply orb_true_r);
         clear Hx end.
  all: rewrite ?app_nil_l, ?app_nil_r.
  all: apply step_plain; try reflexivity; plain_tac.
Qed.

Lemma getCopyInfosForSourcePaths_loop_steps sources dest :
  forall infos, steps (getCopyInfosForSourcePaths_loop env sources dest infos).
Proof.
  induction sources as [|orig rest IH]; intros infos; simpl.
  - apply steps_ret.
  - apply steps_bind; [apply getCopyInfoForSourcePath_steps|].
    intros [sub [x|]]; [apply steps_ret | apply IH].
Qed.

Lemma getCopyInfosForSourcePaths_steps sources dest :
  steps (getCopyInfosForSourcePaths env sources dest).
Proof.
  unfold getCopyInfosForSourcePaths.
  apply steps_bind; [apply getCopyInfosForSourcePaths_loop_steps|].
  intros [infos [x|]]; [apply steps_ret|].
  destruct (Nat.eqb _ _); apply steps_ret.
Qed.

Lemma createCopyInstruction_steps sd cmd :
  steps (createCopyInstruction env sd cmd).
Proof.
  unfold createCopyInstruction.
  apply steps_bind; [apply getCopyInfosForSourcePaths_steps|].
  intros [infos [x|]]; [apply steps_ret|].
  match goal with |- context [if ?b then _ else _] => destruct b end;
    apply steps_ret.
Qed.

End ResolutionSteps.

(** ** The layer and the temporary directories *)

Section Lifecycle.
Context (env : Env).

Lemma serve_steps r : steps (serve env r).
Proof.
  destruct r; simpl; (apply steps_bind; [|intros; apply steps_ret]).
  - apply calcCopyInfo_steps.
  - apply getCopyInfoForSourcePath_steps.
  - apply getCopyInfosForSourcePaths_steps.
  - apply createCopyInstruction_steps.
Qed.

Lemma session_steps rs : steps (session env rs).
Proof.
  induction rs as [|r rest IH]; simpl; [apply steps_ret|].
  apply steps_bind; [apply serve_steps | intros; apply IH].
Qed.

Lemma resolution_no_release o evs :
  Forall (resolutionEvent o) evs -> countEv isRelease evs = 0.
Proof.
  induction 1 as [|e l He _ IH]; [done|].
  unfold countEv in *. simpl. destruct e; simpl in *; try done.
Qed.

Lemma resolution_no_copy o evs :
  Forall (resolutionEvent o) evs -> countEv isCopyEvent evs = 0.
Proof.
  induction 1 as [|e l He _ IH]; [done|].
  unfold countEv in *. simpl. destruct e; simpl in *; try done.
Qed.

Lemma resolution_local o evs :
  imageSource o = None -> Forall (resolutionEvent o) evs ->
  countEv isCreated evs = 0 /\ countEv isCacheEvent evs = 0.
Proof.
  intros Hn. induction 1 as [|e l He _ IH]; [done|].
  unfold countEv in *. simpl. destruct e; simpl in *; try done.
Qed.

Lemma layerFacts_once o evs o' : layerFacts o evs o' -> countEv isCreated evs <= 1.
Proof.
  unfold layerFacts. destruct (activeLayer o); intros H.
  - destruct H as [_ ->]. lia.
  - destruct H as [[_ ->]|[_ ->]]; lia.
Qed.

Lemma countEv_removeAll paths :
  countEv isRelease (List.map EvRemoveAll paths) = 0.
Proof. induction paths as [|p rest IH]; [reflexivity|exact IH]. Qed.

Lemma removeAll_run paths o w :
  removeAll paths o w = ((tt, o, w), List.map EvRemoveAll paths).
Proof.
  induction paths as [|p rest IH]; [done|].
  simpl. unfold mbind, M_bind, emit, liftIO, io_emit. simpl. by rewrite IH.
Qed.

Lemma Cleanup_run o w : Cleanup o w = ((tt, cleaned o, w), cleanupEvents o).
Proof.
  unfold Cleanup, cleanupEvents, cleaned, mbind, M_bind. simpl.
  rewrite removeAll_run. simpl.
  destruct (activeLayer o) as [l|] eqn:Ha; simpl; rewrite ?app_nil_r.
  - done.
  - unfold set_activeLayer, set_tmpPaths. simpl. by rewrite Ha.
Qed.

(** C9. Whatever a session asks of the copier, it creates the read-write
    layer at most once, never when the copier has no image source (the
    local build context), never when a layer is already active, and it
    never releases the layer.  Cleanup then releases the layer exactly
    when one is active, removes every tracked temporary directory and
    forgets both; a second Cleanup, or a Cleanup when no layer is
    active, emits no release, and a second Cleanup does nothing at
    all. *)
Theorem layer_lifecycle (rs : list request) (o : copier) (w : World) :
  wellBehaved (download o) ->
  let r := session env rs o w in
  let c1 := Cleanup (copierOf r) (worldOf r) in
  let c2 := Cleanup (copierOf c1) (worldOf c1) in
  countEv isCreated (eventsOf r) <= 1
  /\ (imageSource o = None -> countEv isCreated (eventsOf r) = 0)
  /\ (is_Some (activeLayer o) -> countEv isCreated (eventsOf r) = 0)
  /\ countEv isRelease (eventsOf r) = 0
  /\ countEv isRelease (eventsOf c1)
      = match activeLayer (copierOf r) with Some _ => 1 | None => 0 end
  /\ Forall (fun p => EvRemoveAll p ∈ eventsOf c1) (tmpPaths (copierOf r))
  /\ activeLayer (copierOf c1) = None
  /\ tmpPaths (copierOf c1) = []
  /\ eventsOf c2 = [] /\ copierOf c2 = copierOf c1 /\ worldOf c2 = worldOf c1.
Proof.
  intros Hwb r c1 c2.
  destruct (session_steps rs o w Hwb) as (Hi & Hd & He & Hl & Hw).
  fold r in Hi, Hd, He, Hl, Hw. clearbody r.
  subst c2 c1. rewrite !Cleanup_run.
  unfold copierOf, eventsOf, worldOf in *. simpl.
  split; [eapply layerFacts_once; exact Hl|].
  split; [intros Hn; by apply (resolution_local o)|].
  split.
  { intros [l Hsome]. unfold layerFacts in Hl. rewrite Hsome in Hl. tauto. }
  split; [by apply (resolution_no_release o)|].
  split.
  { unfold cleanupEvents. rewrite countEv_app.
    rewrite countEv_removeAll. by destruct (activeLayer _). }
  split.
  { apply Forall_forall. intros p Hp. unfold cleanupEvents.
    apply elem_of_app. left. apply list_elem_of_fmap. by exists p. }
  repeat split; try done.
Qed.

End Lifecycle.

(** ** The path cache *)

Section Cache.
Context (env : Env).

Lemma plain_elem evs e : plain evs -> e ∈ evs -> plainEvent e = true.
Proof. intros Hp He. unfold plain in Hp. rewrite Forall_forall in Hp. auto. Qed.

Lemma countEv_plain_cache evs : plain evs -> countEv isCacheEvent evs = 0.
Proof.
  induction 1 as [|e l He _ IH]; [done|].
  unfold countEv in *. simpl. destruct e; simpl in *; try done.
Qed.

Lemma eqb_negb_ne (a b : string) : negb (String.eqb a b) = true -> a <> b.
Proof. intros H ->. by rewrite String.eqb_refl in H. Qed.

Lemma downloads_plain (d : sourceDownloader) url :
  wellBehaved d -> plain (snd (d url)).
Proof.
  intros Hwb. eapply Forall_impl; [exact (Hwb url)|].
  intros x Hx. unfold plainEvent. rewrite Hx. apply orb_true_r.
Qed.

Ltac read_facts :=
  repeat match goal with
  | H : copyInfoForFile _ ?s ?p = (_, ?evs) |- _ =>
      lazymatch goal with
      | _ : plain evs |- _ => fail
      | _ => assert (plain evs)
        by (pose proof (copyInfoForFile_plain env s p) as Hp;
            rewrite H in Hp; exact Hp)
      end
  | H : walkSource _ ?s ?p = (_, ?evs) |- _ =>
      lazymatch goal with
      | _ : plain evs |- _ => fail
      | _ => assert (plain evs)
        by (pose proof (walkSource_plain env s p) as Hp;
            rewrite H in Hp; exact Hp)
      end
  end.

Ltac elem_inv :=
  repeat match goal with
  | H : _ ∈ _ ++ _ |- _ => apply elem_of_app in H; destruct H as [H|H]
  | H : _ ∈ _ :: _ |- _ => apply elem_of_cons in H; destruct H as [H|H]
  | H : _ ∈ [] |- _ => by apply elem_of_nil in H
  | H : ?e ∈ ?evs, Hp : plain ?evs |- _ =>
      by (apply (plain_elem _ _ Hp) in H)
  end; simplify_eq.

(** One single-path resolution: when the cache is read, when a read
    hits, when the cache is written. *)
Lemma single_path_cache p aw o w :
  aw && containsWildcards env (normalizeOrigPath p) = false ->
  let r := calcCopyInfo env p aw o w in
  let key_of im := ImageID im +:+ normalizeOrigPath p in
  (forall key, EvCacheLoad key ∈ eventsOf r ->
     exists im, imageSource o = Some im /\ ImageID im <> "" /\ key = key_of im)
  /\ (forall key h, EvCacheLoad key ∈ eventsOf r -> pathCache w !! key = Some h ->
       exists src, source (copierOf r) = Some src
         /\ result r = ([newCopyInfoFromSource src (normalizeOrigPath p) h], None)
         /\ countEv isReadEvent (eventsOf r) = 0
         /\ (forall k v, EvCacheStore k v ∉ eventsOf r)
         /\ pathCache (worldOf r) = pathCache w)
  /\ (forall key v, EvCacheStore key v ∈ eventsOf r ->
       exists im, imageSource o = Some im /\ key = key_of im
         /\ pathCache (worldOf r) !! key = Some v)
  /\ (imageSource o = None ->
       countEv isCacheEvent (eventsOf r) = 0 /\ pathCache (worldOf r) = pathCache w).
Proof.
  intros Hnw r key_of. subst r.
  destruct (calcCopyInfo env p aw o w) as [[[r o'] w'] evs] eqn:H.
  unfold eventsOf, copierOf, worldOf, result. simpl.
  unfold calcCopyInfo, calcCopyInfoBody, storeInPathCache in H. run_all.
  all: read_facts.
  all: rewrite ?app_nil_l, ?app_nil_r.
  all: split;
    [intros key Hin; elem_inv;
     (eexists; (split; [reflexivity|(split; [by apply eqb_negb_ne|reflexivity])]))|].
  all: split;
    [intros key h Hin Hlook; elem_inv;
     cbn [pathCache layerCalls source set_source set_activeLayer] in *;
     simplify_eq;
     (eexists; (split; [simpl; first [eassumption|reflexivity]|
       (split; [reflexivity|(split; [reflexivity|
         (split; [intros k v Hin2; elem_inv | reflexivity])])])]))|].
  all: split;
    [intros key v Hin; elem_inv;
     (eexists; (split; [reflexivity|(split; [reflexivity|
        simpl; apply lookup_insert_eq])]))|].
  all: intros Hnone; simplify_eq.
  all: rewrite ?countEv_app.
  all: repeat match goal with
       | Hp : plain ?e |- _ => rewrite (countEv_plain_cache e Hp); clear Hp
       end.
  all: split; reflexivity.
Qed.

(** Resolving a URL leaves the cache alone. *)
Lemma remote_source_cache orig dest o w :
  urlutil_IsURL env orig = true -> wellBehaved (download o) ->
  let r := getCopyInfoForSourcePath env orig dest o w in
  countEv isCacheEvent (eventsOf r) = 0 /\ worldOf r = w.
Proof.
  intros Hurl Hwb r. subst r.
  destruct (getCopyInfoForSourcePath env orig dest o w) as [[[r o'] w'] evs] eqn:H.
  unfold getCopyInfoForSourcePath in H. rewrite Hurl in H.
  unfold eventsOf, worldOf. simpl in *. run_all.
  all: match goal with Hx : download ?o ?u = (_, ?e) |- _ =>
         assert (plain e) by
           (pose proof (downloads_plain (download o) u Hwb) as Hp;
            rewrite Hx in Hp; exact Hp) end.
  all: rewrite ?countEv_app.
  all: repeat match goal with
       | Hp : plain ?e |- _ => rewrite (countEv_plain_cache e Hp); clear Hp
       end.
  all: split; reflexivity.
Qed.

(** X22. In a single-path resolution the cache is read only for an
    image source whose ImageID is not empty, under the key ImageID
    + normalized path; a read that finds an entry ends the resolution
    with one copyInfo carrying the cached fingerprint, without any stat,
    hash or walk and without a store; every store is made by a copier
    with an image source, under the key ImageID + normalized path.  A
    copier without image source never touches the cache in any session,
    and resolving a URL never does. *)
Theorem pathCache_discipline (p : string) (aw : bool) (o : copier) (w : World) :
  aw && containsWildcards env (normalizeOrigPath p) = false ->
  wellBehaved (download o) ->
  let r := calcCopyInfo env p aw o w in
  let key_of im := ImageID im +:+ normalizeOrigPath p in
  (forall key, EvCacheLoad key ∈ eventsOf r ->
     exists im, imageSource o = Some im /\ ImageID im <> "" /\ key = key_of im)
  /\ (forall key h, EvCacheLoad key ∈ eventsOf r -> pathCache w !! key = Some h ->
       exists src, source (copierOf r) = Some src
         /\ result r = ([newCopyInfoFromSource src (normalizeOrigPath p) h], None)
         /\ countEv isReadEvent (eventsOf r) = 0
         /\ (forall k v, EvCacheStore k v ∉ eventsOf r)
         /\ pathCache (worldOf r) = pathCache w)
  /\ (forall key v, EvCacheStore key v ∈ eventsOf r ->
       exists im, imageSource o = Some im /\ key = key_of im
         /\ pathCache (worldOf r) !! key = Some v)
  /\ (forall rs, imageSource o = None ->
       countEv isCacheEvent (eventsOf (session env rs o w)) = 0
       /\ worldOf (session env rs o w) = w)
  /\ (forall orig dest, urlutil_IsURL env orig = true ->
       countEv isCacheEvent (eventsOf (getCopyInfoForSourcePath env orig dest o w)) = 0
       /\ worldOf (getCopyInfoForSourcePath env orig dest o w) = w).
Proof.
  intros Hnw Hwb r key_of.
  destruct (single_path_cache p aw o w Hnw) as (H1 & H2 & H3 & _).
  split; [exact H1|]. split; [exact H2|]. split; [exact H3|]. split.
  - intros rs Hnone.
    destruct (session_steps env rs o w Hwb) as (_ & _ & He & _ & Hw).
    split; [|by apply Hw]. by apply (resolution_local o).
  - intros orig dest Hurl. by apply remote_source_cache.
Qed.

End Cache.

(** ** The downloaders only download *)

Section Downloaders.
Context (env : Env).

Lemma errOnSourceDownload_wellBehaved : wellBehaved errOnSourceDownload.
Proof. intros url. apply List.Forall_nil. Qed.

Lemma newRemoteSourceDownloader_wellBehaved :
  wellBehaved (newRemoteSourceDownloader env).
Proof.
  intros url. unfold newRemoteSourceDownloader.
  destruct (downloadSource env url) as [r evs] eqn:H. simpl.
  unfold downloadSource in H. run_all.
  all: repeat first [ apply Forall_app_2 | apply List.Forall_cons
                    | apply List.Forall_nil | reflexivity ].
Qed.

End Downloaders.

(** ** Directory fingerprints *)

Section DirectoryFingerprint.
Context (env : Env).

Lemma sort_Strings_perm l1 l2 : l1 ≡ₚ l2 -> sort_Strings l1 = sort_Strings l2.
Proof.
  intros Hp. unfold sort_Strings.
  apply (Sorted_unique String.le).
  - apply Sorted_merge_sort; apply _.
  - apply Sorted_merge_sort; apply _.
  - by rewrite !merge_sort_Permutation.
Qed.

Lemma walkSource_walk src entries :
  walkable env src entries ->
  forall acc,
    fst (walkDir (walkSource_fn env src) entries acc)
    = (acc ++ List.flat_map (memberHash env src) entries, None).
Proof.
  induction 1 as [|[p e] rest [He Hrel] _ IH]; intros acc; simpl.
  - by rewrite app_nil_r.
  - simpl in He, Hrel. subst e.
    unfold mbind, IO_bind, walkSource_fn at 1 3, memberHash at 1. simpl.
    destruct (filepath_Rel env (Root src) p) as [rel e] eqn:Erel.
    simpl in Hrel. subst e. simpl.
    destruct (String.eqb rel "."); simpl.
    + apply IH.
    + unfold source_Hash. destruct (Hash src rel) as [h [e|]]; simpl.
      * apply IH.
      * rewrite IH. by rewrite <- app_assoc.
Qed.

Lemma walkSource_members src p fp :
  FullPath env src p = (fp, None) ->
  walkable env src (filepath_WalkDir env fp) ->
  fst (walkSource env src p)
  = (sort_Strings (List.flat_map (memberHash env src) (filepath_WalkDir env fp)),
     None).
Proof.
  intros Hfp Hw. unfold walkSource. rewrite Hfp.
  unfold mbind, IO_bind. simpl.
  pose proof (walkSource_walk src _ Hw []) as Hwalk.
  destruct (walkDir (walkSource_fn env src) (filepath_WalkDir env fp) [])
    as [[subfiles e] evs]. simpl in *. by simplify_eq.
Qed.

Lemma walkable_perm src l1 l2 :
  l1 ≡ₚ l2 -> walkable env src l1 -> walkable env src l2.
Proof. intros Hp. unfold walkable. by rewrite Hp. Qed.

(** A fresh resolution of a directory. *)
Lemma calcCopyInfo_directory o w src p aw fi fp :
  freshResolution env o w src p aw ->
  StatAt env src (normalizeOrigPath p) = (fi, None) -> IsDir fi = true ->
  FullPath env src (normalizeOrigPath p) = (fp, None) ->
  walkable env src (filepath_WalkDir env fp) ->
  result (calcCopyInfo env p aw o w)
  = ([newCopyInfoFromSource src (normalizeOrigPath p)
        (hashStringSlice env "dir"
           (sort_Strings (List.flat_map (memberHash env src)
                                        (filepath_WalkDir env fp))))], None).
Proof.
  intros (Hv & Hr & Hnw & Hc) Hstat Hdir Hfp Hw.
  pose proof (walkSource_members src _ fp Hfp Hw) as Hmem.
  destruct (calcCopyInfo env p aw o w) as [[[r o'] w'] evs] eqn:H.
  unfold result. simpl.
  unfold calcCopyInfo, calcCopyInfoBody, copyInfoForFile, storeInPathCache in H.
  unfold resolvesFrom in Hr.
  run_all.
  all: cbn [source set_source set_activeLayer pathCache] in *.
  all: fresh_source Hr.
  all: do 3 (repeat match goal with
             | H1 : ?t = _, H2 : ?t = _ |- _ => rewrite H1 in H2
             end; simplify_eq).
  all: try (match goal with
            | Hb : negb (ImageID ?i =? "") = true |- _ =>
                pose proof (Hc i eq_refl (eqb_negb_ne _ _ Hb))
            end; congruence).
  all: repeat match goal with
       | H : walkSource _ _ _ = _ |- _ =>
           rewrite H in Hmem; simpl in Hmem; clear H
       end; simplify_eq.
  all: reflexivity.
Qed.

End DirectoryFingerprint.

(** C2 (amended). A fresh resolution of a directory yields the digest,
    tagged "dir", of the sorted fingerprints of the entries the walk of
    the directory visits: every entry whose path relative to the source
    root is not "." and whose hash succeeds, the directory's own entry
    among them unless the directory is the source root.  The result is
    the same for every enumeration order of the same entries. *)
Theorem directory_fingerprint (env : Env) (o : copier) (w : World) (src : Source)
    (p : string) (aw : bool) (fi : FileInfo) (fp : string)
    (enumerate : string -> list (string * error)) :
  freshResolution env o w src p aw ->
  StatAt env src (normalizeOrigPath p) = (fi, None) -> IsDir fi = true ->
  FullPath env src (normalizeOrigPath p) = (fp, None) ->
  walkable env src (filepath_WalkDir env fp) ->
  filepath_WalkDir env fp ≡ₚ enumerate fp ->
  let members := List.flat_map (memberHash env src) (filepath_WalkDir env fp) in
  result (calcCopyInfo env p aw o w)
  = ([newCopyInfoFromSource src (normalizeOrigPath p)
        (hashStringSlice env "dir" (sort_Strings members))], None)
  /\ result (calcCopyInfo (with_WalkDir env enumerate) p aw o w)
     = result (calcCopyInfo env p aw o w).
Proof.
  intros Hf Hstat Hdir Hfp Hw Hperm members.
  pose proof (calcCopyInfo_directory env o w src p aw fi fp Hf Hstat Hdir Hfp Hw)
    as Hres.
  split; [exact Hres|]. rewrite Hres.
  rewrite (calcCopyInfo_directory (with_WalkDir env enumerate) o w src p aw fi fp);
    try done.
  - simpl. unfold hashStringSlice. simpl. do 2 f_equal.
    assert (sort_Strings (List.flat_map (memberHash (with_WalkDir env enumerate) src)
                            (enumerate fp))
            = sort_Strings members) as ->; [|done].
    apply sort_Strings_perm.
    change (memberHash (with_WalkDir env enumerate) src) with (memberHash env src).
    symmetry. by apply Permutation_flat_map.
  - simpl. eapply walkable_perm; [exact Hperm|]. exact Hw.
Qed.

(** ** Several sources need a directory *)

Section Instruction.
Context (env : Env).

(** C3 (amended). createCopyInstruction checks the destination after
    it has resolved all the sources, and does nothing else: its
    events, copier and world are those of getCopyInfosForSourcePaths
    -- downloads into temporary directories, the layer of an image
    source and stores in the path cache included --, and none of them
    is a call of the copy executor on the target filesystem.  When the
    resolution yields more than one copyInfo and the destination does
    not end with the separator, the construction fails; when it yields
    one copyInfo, or the destination ends with the separator, the
    instruction is returned with the resolved infos. *)
Theorem multi_source_needs_directory
    (sd : SourcesAndDest) (cmd : string) (o : copier) (w : World) :
  let d := filepath_FromSlash (DestPath sd) in
  let g := getCopyInfosForSourcePaths env (SourcePaths sd) d o w in
  let r := createCopyInstruction env sd cmd o w in
  let inst := {| cmdName := cmd; infos := []; dest := d; chownStr := "";
                 allowLocalDecompression := false; preserveOwnership := false |} in
  eventsOf r = eventsOf g /\ copierOf r = copierOf g /\ worldOf r = worldOf g
  /\ (wellBehaved (download o) -> countEv isCopyEvent (eventsOf r) = 0)
  /\ (forall e, snd (result g) = Some e ->
        result r = (inst, Some (Wrapf e (cmd +:+ " failed"))))
  /\ (forall resolved, result g = (resolved, None) ->
        (1 < List.length resolved ->
         strings_HasSuffix d (string_of_char os_PathSeparator) = false ->
         result r = (inst, Some (Errorf ("When using " +:+ cmd +:+
           " with more than one source file, the destination must be a directory and end with a /"))))
        /\ (List.length resolved = 1 \/
            strings_HasSuffix d (string_of_char os_PathSeparator) = true ->
            result r = (set_infos inst resolved, None))).
Proof.
  intros d g r inst.
  assert (Hsteps : wellBehaved (download o) -> countEv isCopyEvent (eventsOf g) = 0).
  { intros Hwb.
    destruct (getCopyInfosForSourcePaths_steps env (SourcePaths sd) d o w Hwb)
      as (_ & _ & Hres & _).
    by apply (resolution_no_copy o). }
  subst r. unfold createCopyInstruction. cbv zeta. cbn [dest].
  rewrite M_bind_eq. fold d. fold g. fold inst. clearbody g.
  destruct g as [[[[resolved [e|]] o'] w'] evs];
    unfold result, copierOf, worldOf, eventsOf in *; cbn [fst snd] in *.
  - rewrite app_nil_r. do 4 (split; [done|]).
    split; [intros e' He'; by simplify_eq | intros l Hl; discriminate Hl].
  - match goal with |- context [if ?b then _ else _] => destruct b eqn:Hb end;
      cbn [fst snd]; rewrite app_nil_r; do 4 (split; [done|]).
    + split; [intros e He'; discriminate He'|].
      intros l Hl. simplify_eq. split; [done|].
      apply andb_true_iff in Hb as [Hlen Hsuf]. apply Nat.ltb_lt in Hlen.
      intros [Hone|Hs]; [lia|]. rewrite Hs in Hsuf. discriminate Hsuf.
    + split; [intros e He'; discriminate He'|].
      intros l Hl. simplify_eq. split; [|done].
      intros Hlen Hsuf. apply Nat.ltb_lt in Hlen. rewrite Hlen, Hsuf in Hb.
      discriminate Hb.
Qed.

End Instruction.

(** ** Downloads are never extracted *)

Section NoDecompress.
Context (env : Env).

Lemma getCopyInfoForSourcePath_noDecompress orig dest o w :
  urlutil_IsURL env orig = true ->
  Forall (fun ci => noDecompress ci = true)
         (fst (result (getCopyInfoForSourcePath env orig dest o w))).
Proof.
  intros Hurl.
  destruct (getCopyInfoForSourcePath env orig dest o w) as [[[r o'] w'] evs] eqn:H.
  unfold getCopyInfoForSourcePath in H. rewrite Hurl in H.
  unfold result. simpl in *. run_all.
  all: repeat constructor.
Qed.

Lemma isExistingDirectory_quiet p :
  countEv isExtractEvent (snd (isExistingDirectory env p)) = 0.
Proof.
  destruct (isExistingDirectory env p) as [r evs] eqn:H. simpl.
  unfold isExistingDirectory in H. run_all; reflexivity.
Qed.

Lemma copyFile_quiet s d id : countEv isExtractEvent (snd (copyFile env s d id)) = 0.
Proof.
  destruct (copyFile env s d id) as [r evs] eqn:H. simpl.
  unfold copyFile in H. run_all; reflexivity.
Qed.

Lemma copyDirectory_quiet s d id :
  countEv isExtractEvent (snd (copyDirectory env s d id)) = 0.
Proof.
  destruct (copyDirectory env s d id) as [r evs] eqn:H. simpl.
  pose proof (isExistingDirectory_quiet d) as Hq.
  unfold copyDirectory in H. run_all.
  all: match goal with Hx : isExistingDirectory _ _ = _ |- _ =>
         rewrite Hx in Hq; simpl in Hq end.
  all: rewrite ?countEv_app, ?Hq; reflexivity.
Qed.

(** The plain-file branch of performCopyForInfo. *)
Lemma performCopyForInfo_plain dest source options srcPath destPath fi :
  copyInfo_fullPath env source = (srcPath, None) ->
  copyInfo_fullPath env dest = (destPath, None) ->
  os_Stat env srcPath = (fi, None) -> IsDir fi = false ->
  decompress options && archive_IsArchivePath env srcPath
    && negb (noDecompress source) = false ->
  performCopyForInfo env dest source options
  = (_ ← io_emit (EvOsStat srcPath);
     r ← isExistingDirectory env destPath;
     match snd r with
     | Some e => mret (Some e)
     | None =>
         copyFile env srcPath
           (if fst r || strings_HasSuffix (path dest) (string_of_char os_PathSeparator)
            then filepath_Join env destPath (filepath_Base (path source))
            else destPath)
           (opt_identity options)
     end).
Proof.
  intros Hs Hd Hst Hdir Hno. unfold performCopyForInfo.
  rewrite Hs, Hd, Hst, Hdir, Hno. rewrite !IO_bind_eq.
  destruct (isExistingDirectory env destPath) as [[b [e|]] evs]; reflexivity.
Qed.

Lemma performCopyForInfo_noDecompress dest source options :
  noDecompress source = true ->
  performCopyForInfo env dest source options
  = performCopyForInfo env dest source (set_decompress options false).
Proof.
  intros Hno. unfold performCopyForInfo.
  cbn [decompress opt_identity set_decompress]. rewrite Hno.
  destruct (copyInfo_fullPath env source) as [srcPath [e|]]; [done|].
  destruct (copyInfo_fullPath env dest) as [destPath [e|]]; [done|].
  cbv beta iota zeta. cbn [negb andb]. by rewrite andb_false_r.
Qed.

Lemma performCopyForInfo_quiet dest source options :
  decompress options = false ->
  countEv isExtractEvent (snd (performCopyForInfo env dest source options)) = 0.
Proof.
  intros Hoff.
  destruct (performCopyForInfo env dest source options) as [r evs] eqn:H. simpl.
  unfold performCopyForInfo in H. rewrite Hoff in H. cbn [andb] in H.
  run_all.
  all: repeat match goal with
       | Hx : copyDirectory _ ?s ?d ?i = (_, ?e) |- _ =>
           assert (countEv isExtractEvent e = 0)
             by (pose proof (copyDirectory_quiet s d i) as Hq;
                 rewrite Hx in Hq; exact Hq); clear Hx
       | Hx : copyFile _ ?s ?d ?i = (_, ?e) |- _ =>
           assert (countEv isExtractEvent e = 0)
             by (pose proof (copyFile_quiet s d i) as Hq;
                 rewrite Hx in Hq; exact Hq); clear Hx
       | Hx : isExistingDirectory _ ?d = (_, ?e) |- _ =>
           assert (countEv isExtractEvent e = 0)
             by (pose proof (isExistingDirectory_quiet d) as Hq;
                 rewrite Hx in Hq; exact Hq); clear Hx
       end.
  all: rewrite ?countEv_app.
  all: repeat match goal with Hq : countEv _ _ = 0 |- _ => rewrite Hq; clear Hq end.
  all: reflexivity.
Qed.

(** C4. Every copyInfo resolved from a URL has noDecompress set.  For a
    source with noDecompress set, performCopyForInfo never opens nor
    untars the source, whatever options.decompress and IsArchivePath
    say: it runs exactly as with decompress off, and when the source is
    not a directory, that run is the plain file copy: stat the source,
    test the destination, copyFile. *)
Theorem remote_content_is_not_extracted
    (orig dst : string) (o : copier) (w : World)
    (dest source : copyInfo) (options : copyFileOptions) :
  (urlutil_IsURL env orig = true ->
   Forall (fun ci => noDecompress ci = true)
          (fst (result (getCopyInfoForSourcePath env orig dst o w))))
  /\ (noDecompress source = true ->
      countEv isExtractEvent (snd (performCopyForInfo env dest source options)) = 0
      /\ performCopyForInfo env dest source options
         = performCopyForInfo env dest source (set_decompress options false)
      /\ forall srcPath destPath fi,
           copyInfo_fullPath env source = (srcPath, None) ->
           copyInfo_fullPath env dest = (destPath, None) ->
           os_Stat env srcPath = (fi, None) -> IsDir fi = false ->
           performCopyForInfo env dest source options
           = (_ ← io_emit (EvOsStat srcPath);
              r ← isExistingDirectory env destPath;
              match snd r with
              | Some e => mret (Some e)
              | None =>
                  copyFile env srcPath
                    (if fst r || strings_HasSuffix (path dest)
                                   (string_of_char os_PathSeparator)
                     then filepath_Join env destPath (filepath_Base (path source))
                     else destPath)
                    (opt_identity options)
              end)).
Proof.
  split; [apply getCopyInfoForSourcePath_noDecompress|].
  intros Hno. split; [|split].
  - rewrite (performCopyForInfo_noDecompress dest source options Hno).
    by apply performCopyForInfo_quiet.
  - by apply performCopyForInfo_noDecompress.
  - intros srcPath destPath fi Hs Hd Hst Hdir.
    apply (performCopyForInfo_plain dest source options srcPath destPath fi);
      try done.
    by rewrite Hno, andb_false_r.
Qed.

End NoDecompress.

(** ** The name of a download *)

Section Filename.
Context (env : Env).

Lemma string_of_list_ascii_nonempty c l :
  String.eqb (string_of_list_ascii (l ++ [c])) "" = false.
Proof. by destruct l. Qed.

Lemma filepath_Base_nonempty p : String.eqb (filepath_Base p) "" = false.
Proof.
  unfold filepath_Base. destruct (String.eqb p ""); [reflexivity|].
  destruct (takeWhile _ _) as [|c l]; [reflexivity|].
  simpl. apply string_of_list_ascii_nonempty.
Qed.

Lemma list_ascii_of_string_app a b :
  list_ascii_of_string (a +:+ b) = list_ascii_of_string a ++ list_ascii_of_string b.
Proof. induction a as [|c a IH]; simpl; [done|by rewrite IH]. Qed.

Lemma rev_app_list s1 s2 :
  String.rev_app s1 s2
  = string_of_list_ascii (List.rev (list_ascii_of_string s1) ++ list_ascii_of_string s2).
Proof.
  revert s2. induction s1 as [|c s1 IH]; intros s2; simpl.
  - by rewrite string_of_list_ascii_of_string.
  - rewrite IH. simpl. by rewrite <- app_assoc.
Qed.

Lemma String_rev_list s :
  String.rev s = string_of_list_ascii (List.rev (list_ascii_of_string s)).
Proof. unfold String.rev. rewrite rev_app_list. simpl. by rewrite app_nil_r. Qed.

Lemma filepath_FromSlash_id p : filepath_FromSlash p = p.
Proof.
  induction p as [|c p IH]; simpl; [done|]. rewrite IH.
  destruct (Ascii.eqb c "/") eqn:E; [|done].
  apply Ascii.eqb_eq in E. by subst.
Qed.

Lemma HasPrefix_cons a b s p :
  strings_HasPrefix (String b s) (String a p)
  = if Ascii.eqb a b then strings_HasPrefix s p else false.
Proof. reflexivity. Qed.

Lemma dropWhile_head {A} (f : A -> bool) x l : f x = false -> dropWhile f (x :: l) = x :: l.
Proof. intros H. simpl. by rewrite H. Qed.

Lemma takeWhile_app {A} (f : A -> bool) l x rest :
  Forall (fun c => f c = true) l -> f x = false ->
  takeWhile f (l ++ x :: rest) = l.
Proof.
  induction 1 as [|c l Hc _ IH]; intros Hx; simpl.
  - by rewrite Hx.
  - rewrite Hc. by rewrite IH.
Qed.

Lemma name_segment dir name :
  isName name ->
  strings_HasSuffix (dir +:+ "/" +:+ name) "/" = false
  /\ filepath_Base (dir +:+ "/" +:+ name) = name.
Proof.
  intros [Hne Hall].
  assert (Hrev : List.rev (list_ascii_of_string (dir +:+ "/" +:+ name))
                 = List.rev (list_ascii_of_string name)
                   ++ "/"%char :: List.rev (list_ascii_of_string dir)).
  { rewrite !list_ascii_of_string_app. simpl. rewrite List.rev_app_distr. simpl.
    by rewrite <- app_assoc. }
  assert (Hrn : Forall (fun c => os_IsPathSeparator c = false)
                  (List.rev (list_ascii_of_string name))).
  { apply Forall_forall. intros c Hc. rewrite Forall_forall in Hall.
    apply Hall. apply list_elem_of_In. apply List.in_rev. by apply list_elem_of_In. }
  destruct (List.rev (list_ascii_of_string name)) as [|c l] eqn:El.
  { exfalso. apply Hne. apply (f_equal (@List.rev _)) in El.
    rewrite List.rev_involutive in El. simpl in El.
    rewrite <- (string_of_list_ascii_of_string name). by rewrite El. }
  inversion Hrn as [|? ? Hc Hl]; subst.
  split.
  - unfold strings_HasSuffix. rewrite !String_rev_list, Hrev.
    change (strings_HasPrefix (String c (string_of_list_ascii
              (l ++ "/"%char :: List.rev (list_ascii_of_string dir)))) "/"
            = false).
    rewrite HasPrefix_cons.
    unfold os_IsPathSeparator, os_PathSeparator in Hc.
    rewrite Ascii.eqb_sym. by rewrite Hc.
  - unfold filepath_Base.
    assert (String.eqb (dir +:+ "/" +:+ name) "" = false) as ->.
    { destruct dir; reflexivity. }
    rewrite Hrev. rewrite <- app_comm_cons. rewrite dropWhile_head by done.
    rewrite app_comm_cons. rewrite (takeWhile_app _ (c :: l)).
    + rewrite <- El, List.rev_involutive. apply string_of_list_ascii_of_string.
    + eapply Forall_impl; [exact Hrn|]. intros x Hx. simpl. by rewrite Hx.
    + reflexivity.
Qed.

Lemma getFilenameForDownload_eq path resp :
  let cd := Header_Get resp "Content-Disposition" in
  let parsed := mime_ParseMediaType env cd in
  let param := default "" (snd (fst parsed) !! "filename") in
  getFilenameForDownload env path resp
  = (if negb (String.eqb path "") && negb (strings_HasSuffix path "/")
     then filepath_Base path
     else if negb (String.eqb cd "")
             && match snd parsed with None => true | Some _ => false end
             && negb (String.eqb param "") && negb (strings_HasSuffix param "/")
     then filepath_Base param
     else "").
Proof.
  intros cd parsed param.
  unfold getFilenameForDownload. rewrite !filepath_FromSlash_id.
  rewrite !filepath_Base_nonempty. simpl.
  fold cd. subst param parsed.
  destruct (negb (String.eqb path "") && negb (strings_HasSuffix path "/"));
    [reflexivity|].
  destruct (negb (String.eqb cd "")); [|reflexivity]. simpl.
  destruct (mime_ParseMediaType env cd) as [[media params] [e|]]; simpl;
    [reflexivity|].
  rewrite filepath_FromSlash_id, filepath_Base_nonempty. simpl.
  by destruct (negb (default "" (params !! "filename") =? "")
               && negb (strings_HasSuffix (default "" (params !! "filename")) "/")).
Qed.

(** C5 (amended). getFilenameForDownload returns the base of the URL
    path when the path is neither empty nor ends with "/" -- for a path
    dir/name that is name, its final segment --; otherwise the base of
    the filename parameter of Content-Disposition when the header is
    there and parses and the parameter is neither empty nor ends with
    "/"; otherwise the empty string. *)
Theorem filename_for_download (path : string) (resp : Response) :
  let cd := Header_Get resp "Content-Disposition" in
  let parsed := mime_ParseMediaType env cd in
  let param := default "" (snd (fst parsed) !! "filename") in
  getFilenameForDownload env path resp
  = (if negb (String.eqb path "") && negb (strings_HasSuffix path "/")
     then filepath_Base path
     else if negb (String.eqb cd "")
             && match snd parsed with None => true | Some _ => false end
             && negb (String.eqb param "") && negb (strings_HasSuffix param "/")
     then filepath_Base param
     else "")
  /\ (forall dir name, isName name ->
        getFilenameForDownload env (dir +:+ "/" +:+ name) resp = name).
Proof.
  intros cd parsed param. split; [apply getFilenameForDownload_eq|].
  intros dir name Hname.
  destruct (name_segment dir name Hname) as [Hsuf Hbase].
  rewrite getFilenameForDownload_eq, Hsuf, Hbase.
  assert (String.eqb (dir +:+ "/" +:+ name) "" = false) as ->
    by (destruct dir; reflexivity).
  reflexivity.
Qed.

End Filename.

(** ** Remote downloads *)

Section Download.
Context (env : Env).

(** A download that succeeds: what it created and which times it set. *)
Lemma downloadSource_success url remote p :
  fst (downloadSource env url) = (remote, p, None) ->
  exists u_Path resp tmpDir,
    url_Parse env url = (u_Path, None)
    /\ GetWithStatusError env url = (resp, None)
    /\ longpath_MkdirTemp env "" "docker-remote" = (tmpDir, None)
    /\ p = getFilenameForDownload env u_Path resp
    /\ remote = fst (NewLazySource env tmpDir)
    /\ let tmpFileName :=
         filepath_Join env tmpDir (if String.eqb p "" then unnamedFilename else p) in
       let mTime := downloadSource_mTime env resp in
       snd (downloadSource env url)
       = [EvHttpGet url; EvMkdirTemp; EvOpenFile tmpFileName; EvIoCopy tmpFileName;
          EvFprintln; EvClose tmpFileName; EvChtimes tmpFileName mTime mTime].
Proof.
  intros Hok.
  destruct (downloadSource env url) as [r evs] eqn:H. simpl in Hok. subst r.
  unfold downloadSource in H. run_all.
  eexists _, _, _. repeat (split; [first [eassumption | reflexivity]|]).
  split.
  { match goal with Hx : NewLazySource _ _ = _ |- _ => by rewrite Hx end. }
  reflexivity.
Qed.

(** A download that succeeds: every call that can fail returned nil. *)
Lemma downloadSource_calls_succeeded url remote p :
  fst (downloadSource env url) = (remote, p, None) ->
  exists u_Path resp tmpDir,
    url_Parse env url = (u_Path, None)
    /\ GetWithStatusError env url = (resp, None)
    /\ longpath_MkdirTemp env "" "docker-remote" = (tmpDir, None)
    /\ let tmpFileName :=
         filepath_Join env tmpDir (if String.eqb p "" then unnamedFilename else p) in
       let mTime := downloadSource_mTime env resp in
       os_OpenFile env tmpFileName = None
       /\ io_Copy env tmpFileName resp = None
       /\ system_Chtimes env tmpFileName mTime mTime = None
       /\ NewLazySource env tmpDir = (remote, None).
Proof.
  intros Hok.
  destruct (downloadSource env url) as [r evs] eqn:H. simpl in Hok. subst r.
  unfold downloadSource in H. run_all.
  eexists _, _, _. repeat (split; [first [eassumption | reflexivity]|]).
  cbv zeta. repeat (split; [assumption|]). assumption.
Qed.

(** C6. When a download completes, the body was copied into the file
    Join(tmpDir, name) of the temporary directory that the returned
    source is rooted at, the file was closed, and then, as the last
    call of the download, system.Chtimes was made on that file and
    returned nil, as io.Copy had; its access and modification time are
    both the time parsed from Last-Modified when the header is not
    empty and parses, and the zero time otherwise.  It is the only
    call that sets times and nothing touches the file after it.  The
    time is a function of the response alone; no clock is read. *)
Theorem download_mtime (url : string) (remote : option Source) (p : string) :
  fst (downloadSource env url) = (remote, p, None) ->
  exists resp tmpDir tmpFileName,
    GetWithStatusError env url = (resp, None)
    /\ longpath_MkdirTemp env "" "docker-remote" = (tmpDir, None)
    /\ NewLazySource env tmpDir = (remote, None)
    /\ tmpFileName
       = filepath_Join env tmpDir (if String.eqb p "" then unnamedFilename else p)
    /\ EvOpenFile tmpFileName ∈ snd (downloadSource env url)
    /\ let lastMod := Header_Get resp "Last-Modified" in
       let mTime :=
         if negb (String.eqb lastMod "")
         then match http_ParseTime env lastMod with
              | (parsedMTime, None) => parsedMTime
              | (_, Some _) => zeroTime
              end
         else zeroTime in
       List.filter isChtimes (snd (downloadSource env url))
       = [EvChtimes tmpFileName mTime mTime]
       /\ snd (downloadSource env url)
          = [EvHttpGet url; EvMkdirTemp; EvOpenFile tmpFileName;
             EvIoCopy tmpFileName; EvFprintln; EvClose tmpFileName;
             EvChtimes tmpFileName mTime mTime]
       /\ io_Copy env tmpFileName resp = None
       /\ system_Chtimes env tmpFileName mTime mTime = None.
Proof.
  intros Hok.
  destruct (downloadSource_success url remote p Hok)
    as (u & resp & tmpDir & Hu & Hget & Hmk & _ & _ & Hev).
  destruct (downloadSource_calls_succeeded url remote p Hok)
    as (u' & resp' & tmpDir' & _ & Hget' & Hmk' & Hcalls).
  rewrite Hget in Hget'. rewrite Hmk in Hmk'. simplify_eq.
  cbv zeta in Hev, Hcalls. destruct Hcalls as (_ & Hcopy & Hch & Hlazy).
  exists resp', tmpDir',
    (filepath_Join env tmpDir' (if String.eqb p "" then unnamedFilename else p)).
  split; [exact Hget|]. split; [exact Hmk|]. split; [exact Hlazy|].
  split; [reflexivity|]. rewrite Hev.
  split; [set_solver|].
  change (if negb (Header_Get resp' "Last-Modified" =? "")
          then match http_ParseTime env (Header_Get resp' "Last-Modified") with
               | (parsedMTime, None) => parsedMTime
               | (_, Some _) => zeroTime
               end
          else zeroTime) with (downloadSource_mTime env resp').
  cbv zeta. split; [reflexivity|]. split; [reflexivity|].
  split; [exact Hcopy | exact Hch].
Qed.

(** C7. A URL whose download succeeds without a derived filename: with
    a destination that ends with "/" the resolution fails with "cannot
    determine filename for source <url>"; otherwise it goes on with the
    name "__unnamed__": the temporary directory is tracked, that name is
    hashed and one copyInfo with that path is returned.  The downloader
    of ADD has written the body to the file of that name in its
    temporary directory. *)
Theorem unnamed_download (orig dest : string) (o : copier) (w : World)
    (remote : Source) :
  urlutil_IsURL env orig = true ->
  fst (download o orig) = (Some remote, "", None) ->
  let r := getCopyInfoForSourcePath env orig dest o w in
  unnamedFilename = "__unnamed__"
  /\ (strings_HasSuffix dest "/" = true ->
      result r
      = ([], Some (Errorf ("cannot determine filename for source " +:+ orig))))
  /\ (strings_HasSuffix dest "/" = false ->
      result r
      = ([{| root := Root remote; path := unnamedFilename;
             hash := fst (Hash remote unnamedFilename); noDecompress := true |}],
         snd (Hash remote unnamedFilename))
      /\ tmpPaths (copierOf r) = tmpPaths o ++ [Root remote]
      /\ EvHash (Root remote) unnamedFilename ∈ eventsOf r)
  /\ (download o = newRemoteSourceDownloader env ->
      exists tmpDir,
        longpath_MkdirTemp env "" "docker-remote" = (tmpDir, None)
        /\ EvOpenFile (filepath_Join env tmpDir unnamedFilename) ∈ eventsOf r
        /\ EvIoCopy (filepath_Join env tmpDir unnamedFilename) ∈ eventsOf r).
Proof.
  intros Hurl Hdl r. split; [reflexivity|].
  assert (Hevs : exists rest, eventsOf r = snd (download o orig) ++ rest).
  { subst r. unfold getCopyInfoForSourcePath. rewrite Hurl. cbn [negb].
    rewrite !M_bind_eq. unfold eventsOf. cbn [snd getCopier liftIO copierOf result fst].
    eexists. rewrite app_nil_l. reflexivity. }
  assert (Hrun : r = getCopyInfoForSourcePath env orig dest o w) by reflexivity.
  clearbody r.
  destruct r as [[[res o'] w'] evs].
  unfold getCopyInfoForSourcePath in Hrun. rewrite Hurl in Hrun. cbn [negb] in Hrun.
  symmetry in Hrun.
  unfold result, copierOf, eventsOf in *. cbn [fst snd] in *.
  split; [|split].
  - intros Hsuf. run_all;
      repeat match goal with
      | H1 : download _ _ = _ |- _ => rewrite H1 in Hdl; cbn [fst] in Hdl
      end; simplify_eq; cbn [String.eqb andb] in *; try congruence.
  - intros Hsuf. run_all;
      repeat match goal with
      | H1 : download _ _ = _ |- _ => rewrite H1 in Hdl; cbn [fst] in Hdl
      end; simplify_eq; cbn [String.eqb andb] in *; try congruence.
    match goal with Hh : Hash _ _ = _ |- _ => rewrite Hh end.
    split; [reflexivity|]. split; [reflexivity|].
    simpl. apply elem_of_app. right. apply list_elem_of_here.
  - intros Hd. rewrite Hd in Hdl. unfold newRemoteSourceDownloader in Hdl.
    destruct (downloadSource_success orig _ _ Hdl)
      as (u & resp & tmpDir & _ & _ & Hmk & _ & _ & Hev).
    cbn [String.eqb] in Hev. destruct Hevs as [rest ->].
    rewrite Hd. unfold newRemoteSourceDownloader. rewrite Hev.
    exists tmpDir. split; [exact Hmk|]. split; set_solver.
Qed.

End Download.

(** ** File and directory fingerprints *)

Section Kinds.
Context (env : Env).

(** A fresh resolution of a file. *)
Lemma calcCopyInfo_file o w src p aw fi h :
  freshResolution env o w src p aw ->
  StatAt env src (normalizeOrigPath p) = (fi, None) -> IsDir fi = false ->
  Hash src (normalizeOrigPath p) = (h, None) ->
  result (calcCopyInfo env p aw o w)
  = ([newCopyInfoFromSource src (normalizeOrigPath p) ("file:" +:+ h)], None).
Proof.
  intros (Hv & Hr & Hnw & Hc) Hstat Hdir Hh.
  destruct (calcCopyInfo env p aw o w) as [[[r o'] w'] evs] eqn:H.
  unfold result. simpl.
  unfold calcCopyInfo, calcCopyInfoBody, copyInfoForFile, storeInPathCache in H.
  unfold resolvesFrom in Hr.
  run_all.
  all: cbn [source set_source set_activeLayer pathCache hash newCopyInfoFromSource]
         in *.
  all: fresh_source Hr.
  all: do 3 (repeat match goal with
             | H1 : ?t = _, H2 : ?t = _ |- _ => rewrite H1 in H2
             end; simplify_eq).
  all: try (match goal with
            | Hb : negb (ImageID ?i =? "") = true |- _ =>
                pose proof (Hc i eq_refl (eqb_negb_ne _ _ Hb))
            end; congruence).
  all: reflexivity.
Qed.

Lemma tags_differ h subfiles : "file:" +:+ h <> hashStringSlice env "dir" subfiles.
Proof. unfold hashStringSlice. simpl. discriminate. Qed.

(** What calcCopyInfo computes afresh: for a file the fingerprint
    "file:" + hash, for a directory a fingerprint that starts with
    "dir:", and the two are never equal, whatever the hash and the
    digest are. *)
Theorem file_and_directory_fingerprints_differ
    (o1 : copier) (w1 : World) (src1 : Source) (p1 : string) (aw1 : bool)
    (fi1 : FileInfo) (h : string)
    (o2 : copier) (w2 : World) (src2 : Source) (p2 : string) (aw2 : bool)
    (fi2 : FileInfo) (fp : string) :
  freshResolution env o1 w1 src1 p1 aw1 ->
  StatAt env src1 (normalizeOrigPath p1) = (fi1, None) -> IsDir fi1 = false ->
  Hash src1 (normalizeOrigPath p1) = (h, None) ->
  freshResolution env o2 w2 src2 p2 aw2 ->
  StatAt env src2 (normalizeOrigPath p2) = (fi2, None) -> IsDir fi2 = true ->
  FullPath env src2 (normalizeOrigPath p2) = (fp, None) ->
  walkable env src2 (filepath_WalkDir env fp) ->
  exists f d,
    result (calcCopyInfo env p1 aw1 o1 w1) = ([f], None)
    /\ result (calcCopyInfo env p2 aw2 o2 w2) = ([d], None)
    /\ hash f = "file:" +:+ h
    /\ strings_HasPrefix (hash d) "dir:" = true
    /\ hash f <> hash d.
Proof.
  intros Hf1 Hs1 Hd1 Hh Hf2 Hs2 Hd2 Hfp Hw.
  eexists _, _.
  split; [exact (calcCopyInfo_file o1 w1 src1 p1 aw1 fi1 h Hf1 Hs1 Hd1 Hh)|].
  split; [exact (calcCopyInfo_directory env o2 w2 src2 p2 aw2 fi2 fp Hf2 Hs2 Hd2 Hfp Hw)|].
  split; [reflexivity|]. split; [reflexivity|].
  apply tags_differ.
Qed.

End Kinds.

(** ** Normalisation of the source path *)

Section Normalisation.
Context (env : Env).

Lemma substring_full s : String.substring 0 (String.length s) s = s.
Proof. induction s as [|c s IH]; simpl; [done|by rewrite IH]. Qed.

Lemma HasPrefix_app prefix s : strings_HasPrefix (prefix +:+ s) prefix = true.
Proof.
  induction prefix as [|a prefix IH]; simpl; [done|].
  by rewrite Ascii.eqb_refl.
Qed.

Lemma TrimPrefix_app prefix s : strings_TrimPrefix (prefix +:+ s) prefix = s.
Proof.
  unfold strings_TrimPrefix. rewrite HasPrefix_app.
  induction prefix as [|a prefix IH]; simpl.
  - rewrite Nat.sub_0_r. apply substring_full.
  - exact IH.
Qed.

Lemma TrimPrefix_none s prefix :
  strings_HasPrefix s prefix = false -> strings_TrimPrefix s prefix = s.
Proof. intros H. unfold strings_TrimPrefix. by rewrite H. Qed.

Lemma normalizeOrigPath_normal p :
  strings_HasPrefix p "/" = false -> strings_HasPrefix p "./" = false ->
  normalizeOrigPath p = p.
Proof.
  intros H1 H2. unfold normalizeOrigPath. rewrite filepath_FromSlash_id.
  change (string_of_char os_PathSeparator) with "/".
  change ("." +:+ "/") with "./".
  by rewrite (TrimPrefix_none p "/" H1), (TrimPrefix_none p "./" H2).
Qed.

Lemma normalizeOrigPath_separator p :
  strings_HasPrefix p "./" = false -> normalizeOrigPath ("/" +:+ p) = p.
Proof.
  intros H2. unfold normalizeOrigPath. rewrite filepath_FromSlash_id.
  change (string_of_char os_PathSeparator) with "/".
  change ("." +:+ "/") with "./".
  by rewrite (TrimPrefix_app "/" p), (TrimPrefix_none p "./" H2).
Qed.

Lemma normalizeOrigPath_dot p : normalizeOrigPath ("./" +:+ p) = p.
Proof.
  unfold normalizeOrigPath. rewrite filepath_FromSlash_id.
  change (string_of_char os_PathSeparator) with "/".
  change ("." +:+ "/") with "./".
  rewrite (TrimPrefix_none ("./" +:+ p) "/") by reflexivity.
  apply TrimPrefix_app.
Qed.

(** calcCopyInfo reads its path argument twice: for validation, as it
    is, and normalized. *)
Lemma calcCopyInfo_normalized p q aw o w :
  validateCopySourcePath env (imageSource o) q
  = validateCopySourcePath env (imageSource o) p ->
  normalizeOrigPath q = normalizeOrigPath p ->
  calcCopyInfo env q aw o w = calcCopyInfo env p aw o w.
Proof.
  intros Hv Hn. unfold calcCopyInfo, calcCopyInfoBody.
  rewrite !(M_bind_eq getCopier).
  unfold result, copierOf, worldOf, eventsOf, getCopier. cbn [fst snd].
  by rewrite Hv, Hn.
Qed.

(** C10 (amended). calcCopyInfo trims one leading separator and then
    one leading "./" from the path.  For a path p that starts with
    neither, p, the separator followed by p and "./" followed by p
    normalize to p, and -- when validation treats the three alike --
    resolve to the same result, wildcards disabled or not. *)
Theorem normalized_paths_resolve_alike (p : string) (aw : bool) (o : copier) (w : World) :
  strings_HasPrefix p "/" = false -> strings_HasPrefix p "./" = false ->
  validateCopySourcePath env (imageSource o) ("/" +:+ p)
  = validateCopySourcePath env (imageSource o) p ->
  validateCopySourcePath env (imageSource o) ("./" +:+ p)
  = validateCopySourcePath env (imageSource o) p ->
  (forall q, normalizeOrigPath q
             = strings_TrimPrefix
                 (strings_TrimPrefix (filepath_FromSlash q)
                    (string_of_char os_PathSeparator))
                 ("." +:+ string_of_char os_PathSeparator))
  /\ normalizeOrigPath p = p
  /\ normalizeOrigPath ("/" +:+ p) = p
  /\ normalizeOrigPath ("./" +:+ p) = p
  /\ calcCopyInfo env ("/" +:+ p) aw o w = calcCopyInfo env p aw o w
  /\ calcCopyInfo env ("./" +:+ p) aw o w = calcCopyInfo env p aw o w.
Proof.
  intros H1 H2 Hv1 Hv2.
  pose proof (normalizeOrigPath_normal p H1 H2) as Hp.
  pose proof (normalizeOrigPath_separator p H2) as Hs.
  pose proof (normalizeOrigPath_dot p) as Hd.
  split; [reflexivity|]. do 3 (split; [done|]). split.
  - apply calcCopyInfo_normalized; [exact Hv1 | by rewrite Hs, Hp].
  - apply calcCopyInfo_normalized; [exact Hv2 | by rewrite Hd, Hp].
Qed.

End Normalisation.

(** ** Resolution against the local build context *)

Section ReadOnly.
Context (env : Env).

Lemma readOnly_ret {A} (a : A) : readOnly (mret a).
Proof. by intros o w _. Qed.

Lemma readOnly_bind {A B} (m : M A) (k : A -> M B) :
  readOnly m -> (forall a, readOnly (k a)) -> readOnly (m ≫= k).
Proof.
  intros Hm Hk o w Hn. rewrite M_bind_eq.
  destruct (Hm o w Hn) as [Ho Hw].
  unfold copierOf, worldOf in *. cbn [fst snd].
  rewrite Ho, Hw. by apply Hk.
Qed.

Lemma readOnly_walkDir {S} (fn : S -> string -> error -> M (S * error)) entries :
  (forall acc p e, readOnly (fn acc p e)) ->
  forall acc, readOnly (walkDir fn entries acc).
Proof.
  intros Hfn. induction entries as [|[p e] rest IH]; intros acc; simpl.
  - apply readOnly_ret.
  - apply readOnly_bind; [apply Hfn|].
    intros [acc' [x|]]; simpl; [apply readOnly_ret | apply IH].
Qed.

Lemma calcCopyInfoBody_readOnly cw p aw :
  (forall q, readOnly (cw q)) -> readOnly (calcCopyInfoBody env cw p aw).
Proof.
  intros Hcw o w Hn.
  destruct (calcCopyInfoBody env cw p aw o w) as [[[r o'] w'] evs] eqn:H.
  unfold copierOf, worldOf. simpl.
  unfold calcCopyInfoBody, storeInPathCache in H. run_all.
  all: try (split; reflexivity).
  all: try congruence.
  all: match goal with
       | Hx : _ ?q ?o2 ?w2 = (_, ?o3, ?w3, _), Hn' : imageSource ?o2 = None
         |- ?o3 = _ /\ ?w3 = _ =>
           pose proof (Hcw q o2 w2 Hn') as Hro; rewrite Hx in Hro; exact Hro
       end.
Qed.

Lemma calcCopyInfo_readOnly p aw : readOnly (calcCopyInfo env p aw).
Proof.
  apply calcCopyInfoBody_readOnly. intros q. unfold copyWithWildcards.
  apply readOnly_bind; [by intros o w _|]. intros o.
  destruct (source o); [|apply readOnly_ret].
  apply readOnly_bind; [by intros o' w' _|]. intros _.
  apply readOnly_bind.
  - apply readOnly_walkDir. intros acc q' e. unfold copyWithWildcards_fn.
    destruct e; [apply readOnly_ret|].
    destruct (filepath_Rel env (Root s) q') as [rel [e|]]; [apply readOnly_ret|].
    destruct (String.eqb rel "."); [apply readOnly_ret|].
    destruct (filepath_Match env q rel) as [[] ?]; simpl; [|apply readOnly_ret].
    apply readOnly_bind.
    + apply calcCopyInfoBody_readOnly. intros _. apply readOnly_ret.
    + intros [sub [x|]]; apply readOnly_ret.
  - intros [infos [x|]]; apply readOnly_ret.
Qed.

Lemma getCopyInfosForSourcePaths_loop_readOnly sources dest :
  Forall (fun orig => urlutil_IsURL env orig = false) sources ->
  forall infos, readOnly (getCopyInfosForSourcePaths_loop env sources dest infos).
Proof.
  induction 1 as [|orig rest Hurl _ IH]; intros infos; simpl.
  - apply readOnly_ret.
  - apply readOnly_bind.
    + unfold getCopyInfoForSourcePath. rewrite Hurl. apply calcCopyInfo_readOnly.
    + intros [sub [e|]]; [apply readOnly_ret | apply IH].
Qed.

Lemma createCopyInstruction_readOnly sd cmd :
  Forall (fun orig => urlutil_IsURL env orig = false) (SourcePaths sd) ->
  readOnly (createCopyInstruction env sd cmd).
Proof.
  intros Hurl. unfold createCopyInstruction. cbv zeta. apply readOnly_bind.
  - unfold getCopyInfosForSourcePaths. apply readOnly_bind.
    + by apply getCopyInfosForSourcePaths_loop_readOnly.
    + intros [infos [e|]]; [apply readOnly_ret|].
      destruct (Nat.eqb _ _); apply readOnly_ret.
  - intros [infos [e|]]; [apply readOnly_ret|].
    destruct (_ && _); apply readOnly_ret.
Qed.

(** X1. A copier without image source, the local build context, is
    left exactly as it was by a resolution, wildcards included: source,
    active layer, tracked temporary directories and the path cache are
    all unchanged.  The same holds for a whole instruction none of whose
    sources is a URL. *)
Theorem local_resolution_is_read_only
    (p : string) (aw : bool) (sd : SourcesAndDest) (cmd : string)
    (o : copier) (w : World) :
  imageSource o = None ->
  (copierOf (calcCopyInfo env p aw o w) = o
   /\ worldOf (calcCopyInfo env p aw o w) = w)
  /\ (Forall (fun orig => urlutil_IsURL env orig = false) (SourcePaths sd) ->
      copierOf (createCopyInstruction env sd cmd o w) = o
      /\ worldOf (createCopyInstruction env sd cmd o w) = w).
Proof.
  intros Hn. split.
  - by apply calcCopyInfo_readOnly.
  - intros Hurl. by apply createCopyInstruction_readOnly.
Qed.

Lemma calcCopyInfo_false p o w :
  calcCopyInfo env p false o w = calcCopyInfoNoWildcards env p o w.
Proof. reflexivity. Qed.

Lemma walkDir_cons {S} (fn : S -> string -> error -> M (S * error)) p e rest acc :
  walkDir fn ((p, e) :: rest) acc
  = (r ← fn acc p e;
     match snd r with
     | Some x => mret (fst r, Some x)
     | None => walkDir fn rest (fst r)
     end).
Proof. reflexivity. Qed.

(** One step of the walk of copyWithWildcards, for the local context. *)
Lemma copyWithWildcards_fn_local o w root pattern acc q rel :
  imageSource o = None ->
  filepath_Rel env root q = (rel, None) ->
  fst (copyWithWildcards_fn env root pattern acc q None o w)
  = (if String.eqb rel "." then (acc, None)
     else if fst (filepath_Match env pattern rel)
     then match snd (result (calcCopyInfoNoWildcards env rel o w)) with
          | Some e => (acc, Some e)
          | None => (acc ++ fst (result (calcCopyInfoNoWildcards env rel o w)), None)
          end
     else (acc, None), o, w).
Proof.
  intros Hn Hrel. unfold copyWithWildcards_fn. rewrite Hrel.
  destruct (String.eqb rel "."); [reflexivity|].
  destruct (filepath_Match env pattern rel) as [[] merr]; cbn [fst negb];
    [|reflexivity].
  rewrite M_bind_eq.
  pose proof (calcCopyInfoBody_readOnly
                (fun _ => mret ([] : list copyInfo, Some (Panic "unreachable")))
                rel false (fun _ => readOnly_ret _) o w Hn) as [Ho Hw'].
  fold (calcCopyInfoNoWildcards env rel) in Ho, Hw'.
  destruct (calcCopyInfoNoWildcards env rel o w) as [[[[sub [x|]] o1] w1] evs];
    unfold result, copierOf, worldOf in *; cbn [fst snd] in *; subst; reflexivity.
Qed.

Lemma wildcard_walk_local o w src pattern entries :
  imageSource o = None ->
  walkable env src entries ->
  Forall (fun rel => snd (result (calcCopyInfoNoWildcards env rel o w)) = None)
         (wildcardMatches env (Root src) pattern entries) ->
  forall acc,
    fst (walkDir (copyWithWildcards_fn env (Root src) pattern) entries acc o w)
    = ((acc ++ List.flat_map
                 (fun rel => fst (result (calcCopyInfoNoWildcards env rel o w)))
                 (wildcardMatches env (Root src) pattern entries), None), o, w).
Proof.
  intros Hn Hw. induction Hw as [|[q e] rest [He Hrel] _ IH]; intros Hok acc.
  - simpl. by rewrite app_nil_r.
  - simpl in He, Hrel. subst e.
    destruct (filepath_Rel env (Root src) q) as [rel e] eqn:Erel.
    simpl in Hrel. subst e.
    pose proof (copyWithWildcards_fn_local o w (Root src) pattern acc q rel Hn Erel)
      as Hfn.
    unfold wildcardMatches in Hok |- *. cbn [List.flat_map fst] in Hok |- *.
    fold (wildcardMatches env (Root src) pattern rest) in Hok, IH |- *.
    rewrite Erel in Hok |- *. cbn [fst] in Hok |- *.
    rewrite walkDir_cons, M_bind_eq.
    destruct (copyWithWildcards_fn env (Root src) pattern acc q None o w)
      as [[[[acc' err'] o1] w1] evs1].
    unfold result, copierOf, worldOf, eventsOf. cbn [fst snd] in Hfn |- *.
    destruct (String.eqb rel ".").
    { simplify_eq. by apply IH. }
    destruct (fst (filepath_Match env pattern rel)).
    2:{ simplify_eq. by apply IH. }
    cbn [app] in Hok. apply Forall_cons in Hok as [Hhead Htail].
    rewrite Hhead in Hfn. simplify_eq.
    rewrite IH by exact Htail. cbn [List.flat_map app]. by rewrite <- app_assoc.
Qed.

Lemma copyWithWildcards_local o w src pattern :
  imageSource o = None -> source o = Some src ->
  walkable env src (filepath_WalkDir env (Root src)) ->
  Forall (fun rel => snd (result (calcCopyInfoNoWildcards env rel o w)) = None)
         (wildcardMatches env (Root src) pattern (filepath_WalkDir env (Root src))) ->
  fst (copyWithWildcards env pattern o w)
  = ((List.flat_map
        (fun rel => fst (result (calcCopyInfoNoWildcards env rel o w)))
        (wildcardMatches env (Root src) pattern (filepath_WalkDir env (Root src))),
      None), o, w).
Proof.
  intros Hn Hs Hw Hok.
  pose proof (wildcard_walk_local o w src pattern _ Hn Hw Hok []) as Hwalk.
  destruct (copyWithWildcards env pattern o w) as [[[r o'] w'] evs] eqn:H.
  unfold copyWithWildcards in H. run_all.
  all: repeat match goal with
       | H1 : ?t = _, H2 : ?t = _ |- _ => rewrite H1 in H2
       end; simplify_eq.
  all: match goal with
       | Hx : walkDir _ _ _ _ _ = _ |- _ =>
           rewrite Hx in Hwalk; cbn [fst snd] in Hwalk; simplify_eq
       end.
  reflexivity.
Qed.

(** A pattern resolved against the local context. *)
Lemma calcCopyInfo_wildcards_local o w src pattern :
  imageSource o = None -> source o = Some src ->
  validateCopySourcePath env None pattern = None ->
  containsWildcards env (normalizeOrigPath pattern) = true ->
  walkable env src (filepath_WalkDir env (Root src)) ->
  let matches :=
    wildcardMatches env (Root src) (normalizeOrigPath pattern)
                    (filepath_WalkDir env (Root src)) in
  Forall (fun rel => snd (result (calcCopyInfo env rel false o w)) = None) matches ->
  fst (calcCopyInfo env pattern true o w)
  = ((List.flat_map (fun rel => fst (result (calcCopyInfo env rel false o w))) matches,
      None), o, w).
Proof.
  intros Hn Hs Hv Hc Hw matches Hok.
  pose proof (copyWithWildcards_local o w src (normalizeOrigPath pattern)
                Hn Hs Hw Hok) as Hcw.
  fold matches in Hcw.
  destruct (calcCopyInfo env pattern true o w) as [[[r o'] w'] evs] eqn:H.
  unfold calcCopyInfo, calcCopyInfoBody in H. run_all.
  all: try congruence.
  all: repeat match goal with
       | H1 : ?t = _, H2 : ?t = _ |- _ => rewrite H1 in H2
       end; simplify_eq.
  all: match goal with
       | Hx : copyWithWildcards _ _ _ _ = _ |- _ =>
           rewrite Hx in Hcw; cbn [fst snd] in Hcw; simplify_eq
       end.
  reflexivity.
Qed.

(** X2. A pattern resolved against the local build context yields the
    copyInfos of the matching entries in the order of the walk of the
    source root: the concatenation, over the entries whose path
    relative to the root is not "." and matches the pattern, of what
    calcCopyInfo(rel, false) yields for each, provided each of these
    resolutions succeeds. *)
Theorem wildcards_resolve_in_walk_order
    (pattern : string) (o : copier) (w : World) (src : Source) :
  imageSource o = None -> source o = Some src ->
  validateCopySourcePath env None pattern = None ->
  containsWildcards env (normalizeOrigPath pattern) = true ->
  walkable env src (filepath_WalkDir env (Root src)) ->
  let matches :=
    wildcardMatches env (Root src) (normalizeOrigPath pattern)
                    (filepath_WalkDir env (Root src)) in
  Forall (fun rel => snd (result (calcCopyInfo env rel false o w)) = None) matches ->
  result (calcCopyInfo env pattern true o w)
  = (List.flat_map (fun rel => fst (result (calcCopyInfo env rel false o w))) matches,
     None).
Proof.
  intros Hn Hs Hv Hc Hw matches Hok. unfold result.
  by rewrite (calcCopyInfo_wildcards_local o w src pattern Hn Hs Hv Hc Hw Hok).
Qed.

(** X3. A pattern that matches no entry of the local build context
    makes the instruction fail with "no source files were specified",
    wrapped with the name of the command, and leaves the copier as it
    was. *)
Theorem wildcard_without_match
    (sd : SourcesAndDest) (cmd pattern : string) (o : copier) (w : World)
    (src : Source) :
  SourcePaths sd = [pattern] ->
  urlutil_IsURL env pattern = false ->
  imageSource o = None -> source o = Some src ->
  validateCopySourcePath env None pattern = None ->
  containsWildcards env (normalizeOrigPath pattern) = true ->
  walkable env src (filepath_WalkDir env (Root src)) ->
  wildcardMatches env (Root src) (normalizeOrigPath pattern)
                  (filepath_WalkDir env (Root src)) = [] ->
  fst (createCopyInstruction env sd cmd o w)
  = ((emptyInstruction sd cmd,
      Some (Wrapf (Errorf "no source files were specified") (cmd +:+ " failed"))),
     o, w).
Proof.
  intros Hsd Hurl Hn Hs Hv Hc Hw Hm.
  pose proof (calcCopyInfo_wildcards_local o w src pattern Hn Hs Hv Hc Hw) as Hcalc.
  cbv zeta in Hcalc. rewrite Hm in Hcalc. specialize (Hcalc (List.Forall_nil _)).
  cbn [List.flat_map] in Hcalc.
  destruct (createCopyInstruction env sd cmd o w) as [[[r o'] w'] evs] eqn:H.
  unfold createCopyInstruction, getCopyInfosForSourcePaths in H.
  rewrite Hsd in H. cbn [getCopyInfosForSourcePaths_loop] in H.
  unfold getCopyInfoForSourcePath in H. rewrite Hurl in H. cbn [negb] in H.
  cbv zeta in H. cbn [dest] in H.
  run_all.
  all: repeat match goal with
       | Hx : calcCopyInfo _ _ _ _ _ = _ |- _ =>
           rewrite Hx in Hcalc; cbn [fst snd] in Hcalc; simplify_eq
       end.
  all: try discriminate.
  all: reflexivity.
Qed.

End ReadOnly.

(** ** Failing sources *)

Section Abort.
Context (env : Env).

Lemma getCopyInfosForSourcePaths_loop_abort pre orig post d sub e o2 w2 evs2 :
  forall acc o w infos o1 w1 evs1,
    getCopyInfosForSourcePaths_loop env pre d acc o w = ((infos, None), o1, w1, evs1) ->
    getCopyInfoForSourcePath env orig d o1 w1 = ((sub, Some e), o2, w2, evs2) ->
    getCopyInfosForSourcePaths_loop env (pre ++ orig :: post) d acc o w
    = (([], Some e), o2, w2, evs1 ++ evs2).
Proof.
  induction pre as [|a pre IH]; intros acc o w infos o1 w1 evs1 Hpre Horig.
  - cbn [getCopyInfosForSourcePaths_loop] in Hpre. run_all.
    cbn [app getCopyInfosForSourcePaths_loop]. rewrite M_bind_eq, Horig.
    unfold result, copierOf, worldOf, eventsOf, mret, M_ret. cbn [fst snd].
    by rewrite app_nil_r.
  - cbn [app getCopyInfosForSourcePaths_loop] in Hpre |- *.
    rewrite M_bind_eq in Hpre |- *.
    destruct (getCopyInfoForSourcePath env a d o w) as [[[[s [x|]] oa] wa] ea].
    + unfold result, copierOf, worldOf, eventsOf in Hpre. cbn [fst snd] in Hpre.
      unfold mret, M_ret in Hpre. cbn [fst snd] in Hpre. simplify_eq.
    + unfold result, copierOf, worldOf, eventsOf in Hpre |- *.
      cbn [fst snd] in Hpre |- *.
      destruct (getCopyInfosForSourcePaths_loop env pre d (acc ++ s) oa wa)
        as [[[r' o'] w'] e'] eqn:Hloop.
      cbn [fst snd] in Hpre. simplify_eq.
      rewrite (IH _ _ _ _ _ _ _ Hloop Horig). cbn [fst snd].
      by rewrite app_assoc.
Qed.

(** X4. Sources are resolved in order and the first failure ends the
    instruction: when the sources before [orig] resolve and [orig]
    fails with [e], createCopyInstruction returns the error [e] wrapped
    with "<cmd> failed" and an instruction without infos; the sources
    after [orig] are never looked at, and what the earlier resolutions
    did to the copier, its tracked temporary directories for one, stays
    for Cleanup. *)
Theorem first_failing_source_aborts
    (sd : SourcesAndDest) (cmd : string) (pre post : list string) (orig : string)
    (infos sub : list copyInfo) (e : err)
    (o o1 o2 : copier) (w w1 w2 : World) (evs1 evs2 : list Event) :
  SourcePaths sd = pre ++ orig :: post ->
  getCopyInfosForSourcePaths_loop env pre (filepath_FromSlash (DestPath sd)) [] o w
  = ((infos, None), o1, w1, evs1) ->
  getCopyInfoForSourcePath env orig (filepath_FromSlash (DestPath sd)) o1 w1
  = ((sub, Some e), o2, w2, evs2) ->
  createCopyInstruction env sd cmd o w
  = ((emptyInstruction sd cmd, Some (Wrapf e (cmd +:+ " failed"))),
     o2, w2, evs1 ++ evs2).
Proof.
  intros Hsd Hpre Horig.
  pose proof (getCopyInfosForSourcePaths_loop_abort pre orig post _ _ _ _ _ _
                _ _ _ _ _ _ _ Hpre Horig) as Hloop.
  unfold createCopyInstruction, getCopyInfosForSourcePaths.
  cbv zeta. cbn [dest]. rewrite Hsd, !M_bind_eq, Hloop.
  unfold result, copierOf, worldOf, eventsOf, mret, M_ret. cbn [fst snd].
  by rewrite !app_nil_r.
Qed.

(** X5. The downloader of COPY: an instruction whose first source is a
    URL fails with "source can't be a URL for COPY", wrapped with
    "<cmd> failed"; nothing is fetched, no event is emitted, and copier
    and world are left as they were. *)
Theorem copy_rejects_urls
    (sd : SourcesAndDest) (cmd url : string) (rest : list string)
    (o : copier) (w : World) :
  download o = errOnSourceDownload ->
  SourcePaths sd = url :: rest ->
  urlutil_IsURL env url = true ->
  createCopyInstruction env sd cmd o w
  = ((emptyInstruction sd cmd,
      Some (Wrapf (Errorf "source can't be a URL for COPY") (cmd +:+ " failed"))),
     o, w, []).
Proof.
  intros Hd Hsd Hurl.
  assert (Horig : getCopyInfoForSourcePath env url
                    (filepath_FromSlash (DestPath sd)) o w
                  = (([], Some (Errorf "source can't be a URL for COPY")), o, w, [])).
  { destruct (getCopyInfoForSourcePath env url _ o w) as [[[r o'] w'] evs] eqn:H.
    unfold getCopyInfoForSourcePath in H. rewrite Hurl in H. cbn [negb] in H.
    do 3 run_step. rewrite Hd in *. unfold errOnSourceDownload in *.
    run_all. reflexivity. }
  pose proof (getCopyInfosForSourcePaths_loop_abort [] url rest _ _ _ _ _ _
                [] o w [] o w [] eq_refl Horig) as Hloop.
  unfold createCopyInstruction, getCopyInfosForSourcePaths.
  cbv zeta. cbn [dest]. rewrite Hsd, !M_bind_eq.
  cbn [app] in Hloop. rewrite Hloop. reflexivity.
Qed.

End Abort.

(** ** Errors of a single-path resolution *)

Section ResolutionErrors.
Context (env : Env).

(** A fresh resolution whose stat fails. *)
Lemma calcCopyInfo_stat_error o w src p aw fi e :
  freshResolution env o w src p aw ->
  StatAt env src (normalizeOrigPath p) = (fi, Some e) ->
  let r := calcCopyInfo env p aw o w in
  let notFound := WithStack (PathError "stat" (normalizeOrigPath p) os_ErrNotExist) in
  result r
  = ([], Some (if isNotExist e
               then match imageSource o with
                    | None =>
                        Wrapf notFound
                          "file not found in build context or excluded by .dockerignore"
                    | Some _ => notFound
                    end
               else e))
  /\ countEv isCacheEvent (eventsOf r)
     = match imageSource o with
       | Some im => if String.eqb (ImageID im) "" then 0 else 1
       | None => 0
       end
  /\ pathCache (worldOf r) = pathCache w
  /\ (forall root q, EvHash root q ∉ eventsOf r)
  /\ (forall q, EvWalkDir q ∉ eventsOf r).
Proof.
  intros (Hv & Hr & Hnw & Hc) Hstat r notFound. subst r notFound.
  destruct (calcCopyInfo env p aw o w) as [[[r o'] w'] evs] eqn:H.
  unfold result, eventsOf, worldOf. cbn [fst snd].
  unfold calcCopyInfo, calcCopyInfoBody, copyInfoForFile, storeInPathCache in H.
  unfold resolvesFrom in Hr.
  run_all.
  all: cbn [source set_source set_activeLayer pathCache hash newCopyInfoFromSource]
         in *.
  all: fresh_source Hr.
  all: do 3 (repeat match goal with
             | H1 : ?t = _, H2 : ?t = _ |- _ => rewrite H1 in H2
             end; simplify_eq).
  all: try (match goal with
            | Hb : negb (ImageID ?i =? "") = true |- _ =>
                pose proof (Hc i eq_refl (eqb_negb_ne _ _ Hb))
            end; congruence).
  all: repeat match goal with
       | Hb : negb (_ =? _) = _ |- _ =>
           apply (f_equal negb) in Hb; rewrite negb_involutive in Hb;
           cbn [negb] in Hb
       end.
  all: repeat match goal with
       | Hb : _ = true |- _ => rewrite !Hb
       | Hb : _ = false |- _ => rewrite !Hb
       end.
  all: (split; [reflexivity|]).
  all: (split; [reflexivity|]).
  all: (split; [reflexivity|]).
  all: split; intros; intros Hin;
    repeat (apply elem_of_cons in Hin as [Hin|Hin]; [discriminate Hin|]);
    by apply elem_of_nil in Hin.
Qed.

(** X6. A source that does not exist: when the stat of the path fails
    with an error that is os.ErrNotExist, a fresh resolution fails with
    a PathError that names the path as the instruction gave it (after
    normalisation), not the path the stat reported; against the local
    build context this error is wrapped with "file not found in build
    context or excluded by .dockerignore", against an image it is not.
    Either way the error still is os.ErrNotExist, nothing was hashed or
    walked, and the cache holds what it held.  Another stat error is
    returned as it is. *)
Theorem missing_source_error
    (p : string) (aw : bool) (o : copier) (w : World) (src : Source)
    (fi : FileInfo) (e : err) :
  freshResolution env o w src p aw ->
  StatAt env src (normalizeOrigPath p) = (fi, Some e) ->
  let r := calcCopyInfo env p aw o w in
  let notFound := WithStack (PathError "stat" (normalizeOrigPath p) os_ErrNotExist) in
  fst (result r) = []
  /\ (isNotExist e = true ->
      snd (result r)
      = Some (match imageSource o with
              | None =>
                  Wrapf notFound
                    "file not found in build context or excluded by .dockerignore"
              | Some _ => notFound
              end)
      /\ (forall e', snd (result r) = Some e' -> isNotExist e' = true))
  /\ (isNotExist e = false -> snd (result r) = Some e)
  /\ pathCache (worldOf r) = pathCache w
  /\ (forall root q, EvHash root q ∉ eventsOf r)
  /\ (forall q, EvWalkDir q ∉ eventsOf r).
Proof.
  intros Hf Hstat r notFound.
  destruct (calcCopyInfo_stat_error o w src p aw fi e Hf Hstat)
    as (Hres & _ & Hcache & Hh & Hwd).
  fold r in Hres, Hcache, Hh, Hwd. fold notFound in Hres.
  rewrite Hres. cbn [fst snd].
  split; [reflexivity|]. split.
  { intros He. rewrite He. split; [reflexivity|].
    intros e' He'. simplify_eq. by destruct (imageSource o). }
  split; [intros He; by rewrite He|].
  split; [exact Hcache|]. split; [exact Hh | exact Hwd].
Qed.

(** X7. When the layer of an image source cannot be set up.  If
    NewRWLayer fails, the resolution returns its error and the copier
    holds no layer, so Cleanup has nothing to release.  If the layer is
    created but NewLazySource fails on its root, the resolution fails
    with that error wrapped with "failed to create context for copy
    from <root>"; the copier then holds the layer, and Cleanup releases
    it.  In both cases the layer store was asked once and nothing was
    read or cached. *)
Theorem layer_setup_failure
    (p : string) (aw : bool) (o : copier) (w : World) (im : imageMount) :
  imageSource o = Some im -> activeLayer o = None ->
  validateCopySourcePath env (Some im) p = None ->
  let r := calcCopyInfo env p aw o w in
  let l := fst (NewRWLayer im (layerCalls w)) in
  (forall e, snd (NewRWLayer im (layerCalls w)) = Some e ->
     result r = ([], Some e)
     /\ activeLayer (copierOf r) = None /\ source (copierOf r) = source o
     /\ eventsOf r = [EvNewRWLayer l (Some e)]
     /\ countEv isRelease (eventsOf (Cleanup (copierOf r) (worldOf r))) = 0)
  /\ (snd (NewRWLayer im (layerCalls w)) = None ->
      forall s e, NewLazySource env (layerRoot l) = (s, Some e) ->
        result r
        = ([], Some (Wrapf e ("failed to create context for copy from "
                                +:+ layerRoot l)))
        /\ activeLayer (copierOf r) = Some l /\ source (copierOf r) = s
        /\ eventsOf r = [EvNewRWLayer l None]
        /\ eventsOf (Cleanup (copierOf r) (worldOf r))
           = List.map EvRemoveAll (tmpPaths o) ++ [EvRelease l]).
Proof.
  intros Him Hal Hv r l. subst r l.
  destruct (calcCopyInfo env p aw o w) as [[[r o'] w'] evs] eqn:H.
  rewrite Cleanup_run.
  unfold result, eventsOf, worldOf, copierOf, cleanupEvents. cbn [fst snd].
  unfold calcCopyInfo, calcCopyInfoBody in H.
  split.
  - intros e He.
    destruct (NewRWLayer im (layerCalls w)) as [l x] eqn:El. cbn [fst snd] in *.
    subst x.
    do 2 run_step. rewrite Him in Hrun0. rewrite Hv, Hal in Hrun0.
    run_all.
    all: repeat match goal with
         | H1 : ?t = _, H2 : ?t = _ |- _ => rewrite H1 in H2
         end; simplify_eq.
    cbn [fst snd]. rewrite Hal. by rewrite countEv_app, countEv_removeAll.
  - intros Hok s e Hs.
    destruct (NewRWLayer im (layerCalls w)) as [l x] eqn:El. cbn [fst snd] in *.
    subst x.
    do 2 run_step. rewrite Him in Hrun0. rewrite Hv, Hal in Hrun0.
    run_all.
    all: repeat match goal with
         | H1 : ?t = _, H2 : ?t = _ |- _ => rewrite H1 in H2
         end; simplify_eq.
    cbn [fst snd activeLayer set_activeLayer set_source source tmpPaths].
    done.
Qed.

End ResolutionErrors.

(** ** The path cache across resolutions *)

Section CacheRoundTrip.
Context (env : Env).

(** A fresh resolution against an image that succeeds leaves its
    fingerprint in the cache. *)
Lemma fresh_resolution_stores o w src p aw im infos :
  freshResolution env o w src p aw ->
  imageSource o = Some im ->
  result (calcCopyInfo env p aw o w) = (infos, None) ->
  exists h,
    infos = [newCopyInfoFromSource src (normalizeOrigPath p) h]
    /\ pathCache (worldOf (calcCopyInfo env p aw o w))
         !! (ImageID im +:+ normalizeOrigPath p) = Some h.
Proof.
  intros (Hv & Hr & Hnw & Hc) Him.
  destruct (calcCopyInfo env p aw o w) as [[[r o'] w'] evs] eqn:H.
  unfold result, worldOf. cbn [fst snd]. intros ->.
  unfold calcCopyInfo, calcCopyInfoBody, copyInfoForFile, storeInPathCache in H.
  unfold resolvesFrom in Hr.
  run_all.
  all: cbn [source set_source set_activeLayer pathCache hash newCopyInfoFromSource]
         in *.
  all: fresh_source Hr.
  all: do 3 (repeat match goal with
             | H1 : ?t = _, H2 : ?t = _ |- _ => rewrite H1 in H2
             end; simplify_eq).
  all: try (match goal with
            | Hb : negb (ImageID ?i =? "") = true |- _ =>
                pose proof (Hc i eq_refl (eqb_negb_ne _ _ Hb))
            end; congruence).
  all: eexists; (split; [reflexivity|]); cbn [pathCache]; apply lookup_insert_eq.
Qed.

(** A resolution that finds the path in the cache. *)
Lemma cached_resolution o w src p aw im h :
  imageSource o = Some im -> ImageID im <> "" ->
  validateCopySourcePath env (Some im) p = None ->
  resolvesFrom env o w src ->
  aw && containsWildcards env (normalizeOrigPath p) = false ->
  pathCache w !! (ImageID im +:+ normalizeOrigPath p) = Some h ->
  let r := calcCopyInfo env p aw o w in
  result r = ([newCopyInfoFromSource src (normalizeOrigPath p) h], None)
  /\ countEv isReadEvent (eventsOf r) = 0
  /\ pathCache (worldOf r) = pathCache w.
Proof.
  intros Him Hid Hv Hr Hnw Hc r. subst r. rewrite <- Him in Hv.
  destruct (calcCopyInfo env p aw o w) as [[[r o'] w'] evs] eqn:H.
  unfold result, worldOf, eventsOf. cbn [fst snd].
  unfold calcCopyInfo, calcCopyInfoBody, copyInfoForFile, storeInPathCache in H.
  unfold resolvesFrom in Hr.
  run_all.
  all: cbn [source set_source set_activeLayer pathCache hash newCopyInfoFromSource]
         in *.
  all: fresh_source Hr.
  all: do 3 (repeat match goal with
             | H1 : ?t = _, H2 : ?t = _ |- _ => rewrite H1 in H2
             end; simplify_eq).
  all: try (match goal with
            | Hb : negb (ImageID ?i =? "") = false |- _ =>
                apply (f_equal negb) in Hb; rewrite negb_involutive in Hb;
                cbn [negb] in Hb; apply String.eqb_eq in Hb
            end; congruence).
  all: repeat split.
Qed.

(** X8. The path cache saves the second hashing.  After a fresh
    resolution of a path against an image with a known ImageID has
    succeeded, a resolution of the same path by any copier over an image
    with that ImageID, in a world whose cache still holds the entry,
    yields the same fingerprint without stat, hash or walk, and leaves
    the cache as it is. *)
Theorem cache_round_trip
    (p : string) (aw aw2 : bool) (o o2 : copier) (w w2 : World)
    (src src2 : Source) (im im2 : imageMount) (infos : list copyInfo) :
  freshResolution env o w src p aw ->
  imageSource o = Some im -> ImageID im <> "" ->
  result (calcCopyInfo env p aw o w) = (infos, None) ->
  imageSource o2 = Some im2 -> ImageID im2 = ImageID im ->
  validateCopySourcePath env (Some im2) p = None ->
  resolvesFrom env o2 w2 src2 ->
  aw2 && containsWildcards env (normalizeOrigPath p) = false ->
  pathCache w2 !! (ImageID im +:+ normalizeOrigPath p)
  = pathCache (worldOf (calcCopyInfo env p aw o w))
      !! (ImageID im +:+ normalizeOrigPath p) ->
  let r2 := calcCopyInfo env p aw2 o2 w2 in
  snd (result r2) = None
  /\ List.map hash (fst (result r2)) = List.map hash infos
  /\ List.map path (fst (result r2)) = List.map path infos
  /\ countEv isReadEvent (eventsOf r2) = 0
  /\ pathCache (worldOf r2) = pathCache w2.
Proof.
  intros Hf Him Hid Hres Him2 Hid2 Hv2 Hr2 Hnw2 Hkeep r2.
  destruct (fresh_resolution_stores o w src p aw im infos Hf Him Hres)
    as (h & -> & Hstored).
  rewrite Hstored, <- Hid2 in Hkeep. rewrite <- Hid2 in Hid.
  destruct (cached_resolution o2 w2 src2 p aw2 im2 h Him2 Hid Hv2 Hr2 Hnw2 Hkeep)
    as (Hres2 & Hread & Hcache).
  fold r2 in Hres2, Hread, Hcache. rewrite Hres2. by repeat split.
Qed.

(** ** What a resolution returns *)

Lemma taggedInfos_ret infos e :
  Forall (fun ci => tagged env (hash ci)) infos ->
  taggedInfos env (mret (infos, e)).
Proof. intros Hi o w Hw. by split. Qed.

Lemma tagged_file x : tagged env ("file:" +:+ x).
Proof. left. by exists x. Qed.

Lemma tagged_dir l : tagged env (hashStringSlice env "dir" l).
Proof. right. by exists l. Qed.

Lemma cacheTagged_insert w key h n :
  cacheTagged env w -> tagged env h ->
  cacheTagged env {| pathCache := <[key := h]> (pathCache w); layerCalls := n |}.
Proof.
  intros Hw Hh k v. cbn [pathCache]. rewrite lookup_insert_Some.
  intros [[_ <-]|[_ Hk]]; [done | by eapply Hw].
Qed.

Lemma calcCopyInfoBody_tagged cw p aw :
  (forall q, taggedInfos env (cw q)) -> taggedInfos env (calcCopyInfoBody env cw p aw).
Proof.
  intros Hcw o w Hw.
  destruct (calcCopyInfoBody env cw p aw o w) as [[[r o'] w'] evs] eqn:H.
  unfold result, worldOf. cbn [fst snd].
  unfold calcCopyInfoBody, copyInfoForFile, storeInPathCache in H. run_all.
  all: cbn [hash newCopyInfoFromSource newCopyInfos pathCache layerCalls] in *.
  all: try match goal with
       | Hx : _ ?q ?o2 ?w2 = (?r3, _, ?w3, _)
         |- Forall _ (fst ?r3) /\ cacheTagged _ ?w3 =>
           let Ht := fresh in
           assert (Ht : cacheTagged env w2) by (intros k v; apply Hw);
           pose proof (Hcw q o2 w2 Ht) as Hro; rewrite Hx in Hro; exact Hro
       end.
  all: split.
  all: try (apply List.Forall_nil).
  all: try (apply List.Forall_cons; [|apply List.Forall_nil];
            cbn [hash newCopyInfoFromSource]).
  all: try apply tagged_file.
  all: try apply tagged_dir.
  all: try (by eapply Hw).
  all: try (intros k v; apply Hw).
  all: try (apply cacheTagged_insert;
            [intros k v; apply Hw | first [apply tagged_file | apply tagged_dir]]).
Qed.

Lemma taggedInfos_walk root pattern entries :
  forall acc o w,
    Forall (fun ci => tagged env (hash ci)) acc ->
    cacheTagged env w ->
    Forall (fun ci => tagged env (hash ci))
           (fst (result (walkDir (copyWithWildcards_fn env root pattern)
                                 entries acc o w)))
    /\ cacheTagged env
         (worldOf (walkDir (copyWithWildcards_fn env root pattern) entries acc o w)).
Proof.
  induction entries as [|[q e] rest IH]; intros acc o w Hacc Hw.
  - by split.
  - rewrite walkDir_cons, M_bind_eq.
    destruct (copyWithWildcards_fn env root pattern acc q e o w)
      as [[[[acc' err'] o1] w1] evs1] eqn:Hfn.
    unfold result, copierOf, worldOf, eventsOf. cbn [fst snd].
    assert (Forall (fun ci => tagged env (hash ci)) acc'
            /\ cacheTagged env w1) as [Hacc' Hw1].
    { unfold copyWithWildcards_fn in Hfn. run_all.
      all: try (split; assumption).
      all: match goal with
           | Hx : calcCopyInfoNoWildcards _ ?rel ?o2 ?w2 = (?r3, _, ?w3, _) |- _ =>
               pose proof (calcCopyInfoBody_tagged
                             (fun _ => mret ([] : list copyInfo,
                                             Some (Panic "unreachable")))
                             rel false
                             (fun _ => taggedInfos_ret [] _ (List.Forall_nil _))
                             o2 w2 Hw) as [Hi Hw'];
               fold (calcCopyInfoNoWildcards env rel) in Hi, Hw';
               rewrite Hx in Hi, Hw'; unfold result, worldOf in Hi, Hw';
               cbn [fst snd] in Hi, Hw'
           end.
      all: split; [|assumption].
      all: first [assumption | by apply Forall_app_2]. }
    destruct err' as [x|]; cbn [fst snd].
    + by split.
    + by apply IH.
Qed.

(** X9. What is resolved from the build context or an image, wildcards
    included: every fingerprint returned is that of a file ("file:" and
    the hash of the source) or that of a directory (hashStringSlice
    "dir" of member hashes), provided the cache held such fingerprints
    only, which then remains so. *)
Theorem resolved_fingerprints_are_tagged
    (p : string) (aw : bool) (o : copier) (w : World) :
  cacheTagged env w ->
  let r := calcCopyInfo env p aw o w in
  Forall (fun ci => tagged env (hash ci)) (fst (result r))
  /\ cacheTagged env (worldOf r).
Proof.
  revert o w. change (taggedInfos env (calcCopyInfo env p aw)).
  apply calcCopyInfoBody_tagged. intros q o w Hw.
  destruct (copyWithWildcards env q o w) as [[[r o'] w'] evs] eqn:H.
  unfold result, worldOf. cbn [fst snd].
  unfold copyWithWildcards in H. run_all.
  all: try (split; [apply List.Forall_nil | assumption]).
  all: match goal with
       | Hx : @walkDir M _ _ _ (copyWithWildcards_fn _ ?root ?pat) ?entries [] ?o2 ?w2
              = _ |- _ =>
           pose proof (taggedInfos_walk root pat entries [] o2 w2
                         (List.Forall_nil _) Hw)
             as [Hi Hw'];
           rewrite Hx in Hi, Hw'; unfold result, worldOf in Hi, Hw';
           cbn [fst snd] in Hi, Hw'
       end.
  all: split; first [assumption | apply List.Forall_nil].
Qed.

End CacheRoundTrip.

(** ** Temporary directories of downloads *)

Section TmpPaths.
Context (env : Env).

Lemma contextInfos_ret infos e :
  Forall (fun ci => noDecompress ci = false) infos -> contextInfos (mret (infos, e)).
Proof. intros Hi o w. by split. Qed.

Lemma calcCopyInfoBody_contextInfos cw p aw :
  (forall q, contextInfos (cw q)) -> contextInfos (calcCopyInfoBody env cw p aw).
Proof.
  intros Hcw o w.
  destruct (calcCopyInfoBody env cw p aw o w) as [[[r o'] w'] evs] eqn:H.
  unfold result, copierOf. cbn [fst snd].
  unfold calcCopyInfoBody, copyInfoForFile, storeInPathCache in H. run_all.
  all: cbn [tmpPaths set_source set_activeLayer newCopyInfos] in *.
  all: try match goal with
       | Hx : _ ?q ?o2 ?w2 = (?r3, ?o3, _, _)
         |- tmpPaths ?o3 = _ /\ Forall _ (fst ?r3) =>
           pose proof (Hcw q o2 w2) as Hro; rewrite Hx in Hro; exact Hro
       end.
  all: split; [reflexivity|].
  all: repeat constructor.
Qed.

Lemma contextInfos_walk root pattern entries :
  forall acc o w,
    Forall (fun ci => noDecompress ci = false) acc ->
    tmpPaths (copierOf (walkDir (copyWithWildcards_fn env root pattern)
                                entries acc o w)) = tmpPaths o
    /\ Forall (fun ci => noDecompress ci = false)
              (fst (result (walkDir (copyWithWildcards_fn env root pattern)
                                    entries acc o w))).
Proof.
  induction entries as [|[q e] rest IH]; intros acc o w Hacc.
  - by split.
  - rewrite walkDir_cons, M_bind_eq.
    destruct (copyWithWildcards_fn env root pattern acc q e o w)
      as [[[[acc' err'] o1] w1] evs1] eqn:Hfn.
    unfold result, copierOf, worldOf, eventsOf. cbn [fst snd].
    assert (tmpPaths o1 = tmpPaths o
            /\ Forall (fun ci => noDecompress ci = false) acc') as [Ho1 Hacc'].
    { unfold copyWithWildcards_fn in Hfn. run_all.
      all: try (split; [reflexivity | assumption]).
      all: match goal with
           | Hx : calcCopyInfoNoWildcards _ ?rel ?o2 ?w2 = (?r3, _, _, _) |- _ =>
               pose proof (calcCopyInfoBody_contextInfos
                             (fun _ => mret ([] : list copyInfo,
                                             Some (Panic "unreachable")))
                             rel false
                             (fun _ => contextInfos_ret [] _ (List.Forall_nil _))
                             o2 w2) as [Ht Hi];
               fold (calcCopyInfoNoWildcards env rel) in Ht, Hi;
               rewrite Hx in Ht, Hi; unfold result, copierOf in Ht, Hi;
               cbn [fst snd] in Ht, Hi
           end.
      all: split; [assumption|].
      all: first [assumption | by apply Forall_app_2]. }
    destruct err' as [x|]; cbn [fst snd].
    + by split.
    + rewrite <- Ho1. by apply IH.
Qed.

Lemma calcCopyInfo_contextInfos p aw : contextInfos (calcCopyInfo env p aw).
Proof.
  apply calcCopyInfoBody_contextInfos. intros q o w.
  destruct (copyWithWildcards env q o w) as [[[r o'] w'] evs] eqn:H.
  unfold result, copierOf. cbn [fst snd].
  unfold copyWithWildcards in H. run_all.
  all: try (split; [reflexivity | apply List.Forall_nil]).
  all: match goal with
       | Hx : @walkDir M _ _ _ (copyWithWildcards_fn _ ?root ?pat) ?entries [] ?o2 ?w2
              = _ |- _ =>
           pose proof (contextInfos_walk root pat entries [] o2 w2
                         (List.Forall_nil _)) as [Ht Hi];
           rewrite Hx in Ht, Hi; unfold result, copierOf in Ht, Hi;
           cbn [fst snd] in Ht, Hi
       end.
  all: split; first [assumption | apply List.Forall_nil].
Qed.

Lemma downloadsTracked_mono o o' ext infos :
  tmpPaths o' = tmpPaths o ++ ext ->
  downloadsTracked o infos -> downloadsTracked o' infos.
Proof.
  intros Ht Hi. unfold downloadsTracked in *.
  eapply Forall_impl; [exact Hi|]. intros ci Hci Hno.
  rewrite Ht. apply elem_of_app. left. by apply Hci.
Qed.

(** One source: the tracked directories only grow, and the roots of the
    downloads resolved are among them. *)
Lemma getCopyInfoForSourcePath_tracked orig dest o w :
  let r := getCopyInfoForSourcePath env orig dest o w in
  (exists ext, tmpPaths (copierOf r) = tmpPaths o ++ ext)
  /\ downloadsTracked (copierOf r) (fst (result r)).
Proof.
  intros r. subst r.
  destruct (urlutil_IsURL env orig) eqn:Hurl.
  - destruct (getCopyInfoForSourcePath env orig dest o w) as [[[r o'] w'] evs] eqn:H.
    unfold getCopyInfoForSourcePath in H. rewrite Hurl in H. cbn [negb] in H.
    unfold result, copierOf. cbn [fst snd]. run_all.
    all: cbn [tmpPaths set_tmpPaths newCopyInfos].
    all: try (split; [exists []; by rewrite app_nil_r | apply List.Forall_nil]).
    split; [by eexists|].
    apply List.Forall_cons; [|apply List.Forall_nil].
    intros _. cbn [root set_noDecompress newCopyInfoFromSource tmpPaths].
    apply elem_of_app. right. apply list_elem_of_here.
  - unfold getCopyInfoForSourcePath. rewrite Hurl. cbn [negb].
    destruct (calcCopyInfo_contextInfos orig true o w) as [Ht Hi].
    split; [exists []; by rewrite app_nil_r, Ht|].
    eapply Forall_impl; [exact Hi|]. intros ci Hci Hno. congruence.
Qed.

Lemma getCopyInfosForSourcePaths_loop_tracked sources dest :
  forall acc o w,
    downloadsTracked o acc ->
    let r := getCopyInfosForSourcePaths_loop env sources dest acc o w in
    (exists ext, tmpPaths (copierOf r) = tmpPaths o ++ ext)
    /\ downloadsTracked (copierOf r) (fst (result r)).
Proof.
  induction sources as [|orig rest IH]; intros acc o w Hacc r; subst r.
  - split; [exists []; by rewrite app_nil_r | exact Hacc].
  - cbn [getCopyInfosForSourcePaths_loop]. rewrite M_bind_eq.
    destruct (getCopyInfoForSourcePath_tracked orig dest o w) as [[ext Ht] Hi].
    destruct (getCopyInfoForSourcePath env orig dest o w)
      as [[[[sub [e|]] o1] w1] evs1].
    + unfold result, copierOf, worldOf, eventsOf, mret, M_ret in *.
      cbn [fst snd] in *. split; [by exists ext | apply List.Forall_nil].
    + unfold result, copierOf, worldOf, eventsOf in Ht, Hi |- *.
      cbn [fst snd] in Ht, Hi |- *. cbv beta iota zeta. cbn [fst snd].
      assert (Hacc1 : downloadsTracked o1 (acc ++ sub)).
      { apply Forall_app_2; [|exact Hi]. by eapply downloadsTracked_mono. }
      destruct (IH (acc ++ sub) o1 w1 Hacc1) as [[ext' Ht'] Hi'].
      unfold result, copierOf in Ht', Hi'. split; [|exact Hi'].
      exists (ext ++ ext'). rewrite app_assoc, <- Ht. exact Ht'.
Qed.

Lemma createCopyInstruction_tracked sd cmd o w :
  let r := createCopyInstruction env sd cmd o w in
  (exists ext, tmpPaths (copierOf r) = tmpPaths o ++ ext)
  /\ downloadsTracked (copierOf r) (infos (fst (result r))).
Proof.
  intros r. subst r.
  destruct (getCopyInfosForSourcePaths_loop_tracked
              (SourcePaths sd) (filepath_FromSlash (DestPath sd)) [] o w
              (List.Forall_nil _)) as [Ht Hi].
  destruct (createCopyInstruction env sd cmd o w) as [[[r o'] w'] evs] eqn:H.
  unfold result, copierOf. cbn [fst snd].
  unfold createCopyInstruction, getCopyInfosForSourcePaths in H.
  cbv zeta in H. cbn [dest] in H. run_all.
  all: match goal with
       | Hx : getCopyInfosForSourcePaths_loop _ _ _ _ _ _ = _ |- _ =>
           rewrite Hx in Ht, Hi; unfold result, copierOf in Ht, Hi;
           cbn [fst snd] in Ht, Hi
       end.
  all: split; [exact Ht|].
  all: cbn [infos set_infos]; first [exact Hi | apply List.Forall_nil].
Qed.

(** X10. Every download of an instruction is removed by Cleanup.  The
    temporary directories a copier tracks only grow while an
    instruction is resolved; the root of every copyInfo that comes from
    a URL (those with noDecompress set) is among them, and Cleanup
    calls RemoveAll on it, along with everything that was tracked
    before. *)
Theorem downloads_are_removed_by_Cleanup
    (sd : SourcesAndDest) (cmd : string) (o : copier) (w : World) :
  let r := createCopyInstruction env sd cmd o w in
  let c := Cleanup (copierOf r) (worldOf r) in
  (forall ci, ci ∈ infos (fst (result r)) -> noDecompress ci = true ->
     root ci ∈ tmpPaths (copierOf r) /\ EvRemoveAll (root ci) ∈ eventsOf c)
  /\ (forall p, p ∈ tmpPaths o -> EvRemoveAll p ∈ eventsOf c)
  /\ tmpPaths (copierOf c) = [].
Proof.
  intros r c. subst c. rewrite Cleanup_run.
  unfold eventsOf at 1 2, copierOf at 3. cbn [fst snd].
  destruct (createCopyInstruction_tracked sd cmd o w) as [[ext Ht] Hi].
  fold r in Ht, Hi.
  assert (Hrm : forall p, p ∈ tmpPaths (copierOf r) ->
                  EvRemoveAll p ∈ cleanupEvents (copierOf r)).
  { intros p Hp. unfold cleanupEvents. apply elem_of_app. left.
    apply list_elem_of_fmap. by exists p. }
  split; [|split; [|reflexivity]].
  - intros ci Hci Hno. unfold downloadsTracked in Hi.
    rewrite Forall_forall in Hi. specialize (Hi ci Hci Hno).
    split; [exact Hi | by apply Hrm].
  - intros p Hp. apply Hrm. rewrite Ht. apply elem_of_app. by left.
Qed.

(** X11. Local sources are never exempt from extraction: every
    copyInfo resolved from a source that is not a URL has noDecompress
    unset, so that noDecompress marks exactly the downloads, and such a
    resolution tracks no temporary directory. *)
Theorem noDecompress_marks_downloads
    (orig dest : string) (o : copier) (w : World) :
  let r := getCopyInfoForSourcePath env orig dest o w in
  Forall (fun ci => noDecompress ci = urlutil_IsURL env orig) (fst (result r))
  /\ (urlutil_IsURL env orig = false -> tmpPaths (copierOf r) = tmpPaths o).
Proof.
  intros r. subst r. destruct (urlutil_IsURL env orig) eqn:Hurl.
  - split; [|discriminate].
    by apply getCopyInfoForSourcePath_noDecompress.
  - unfold getCopyInfoForSourcePath. rewrite Hurl. cbn [negb].
    destruct (calcCopyInfo_contextInfos orig true o w) as [Ht Hi].
    split; [exact Hi | intros _; exact Ht].
Qed.

End TmpPaths.

(** ** Failing downloads *)

Section DownloadFailure.
Context (env : Env).

(** X12. A download that fails after its temporary directory was made
    removes that directory as its last act, after closing the file when
    the file had been opened; a download that succeeds removes nothing.
    Whatever the outcome, the only file opened is the one in that
    directory named after the derived filename, or __unnamed__ when
    there is none. *)
Theorem failed_download_removes_tmpdir
    (url u_Path : string) (resp : Response) (tmpDir : string) :
  url_Parse env url = (u_Path, None) ->
  GetWithStatusError env url = (resp, None) ->
  longpath_MkdirTemp env "" "docker-remote" = (tmpDir, None) ->
  let r := downloadSource env url in
  let filename := getFilenameForDownload env u_Path resp in
  let tmpFileName :=
    filepath_Join env tmpDir
      (if String.eqb filename "" then unnamedFilename else filename) in
  (forall e, snd (fst r) = Some e ->
     countEv isRemoveAll (snd r) = 1
     /\ (exists pre, snd r = pre ++ [EvRemoveAll tmpDir])
     /\ (os_OpenFile env tmpFileName = None ->
         exists pre, snd r = pre ++ [EvClose tmpFileName; EvRemoveAll tmpDir]))
  /\ (snd (fst r) = None -> countEv isRemoveAll (snd r) = 0)
  /\ (forall name, EvOpenFile name ∈ snd r -> name = tmpFileName).
Proof.
  intros Hu Hg Hm r filename tmpFileName. subst r filename tmpFileName.
  destruct (downloadSource env url) as [[[remote p] err] evs] eqn:H.
  cbn [fst snd]. unfold downloadSource in H. rewrite Hu, Hg, Hm in H.
  run_all.
  all: split; [intros e' He'; simplify_eq|
               split; [intros He'; simplify_eq; try reflexivity|]].
  all: try (split; [reflexivity|]).
  all: try (split;
         [eexists;
          repeat first [reflexivity
                       | rewrite app_nil_r
                       | rewrite <- app_assoc
                       | (cbn [app]; reflexivity)]
         | intros Ho; try congruence]).
  all: try (intros name Hin;
            repeat (apply elem_of_cons in Hin as [Hin|Hin];
                    [first [discriminate Hin | by simplify_eq]|]);
            by apply elem_of_nil in Hin).
  all: try (match goal with
            | |- exists pre, ?l = pre ++ [?a; ?b] =>
                first [ by exists []
                      | by eexists [_] | by eexists [_; _] | by eexists [_; _; _]
                      | by eexists [_; _; _; _] | by eexists [_; _; _; _; _]
                      | by eexists [_; _; _; _; _; _]
                      | by eexists [_; _; _; _; _; _; _]
                      | by eexists [_; _; _; _; _; _; _; _] ]
            | |- exists pre, ?l = pre ++ [?a] =>
                first [ by exists []
                      | by eexists [_] | by eexists [_; _] | by eexists [_; _; _]
                      | by eexists [_; _; _; _] | by eexists [_; _; _; _; _]
                      | by eexists [_; _; _; _; _; _]
                      | by eexists [_; _; _; _; _; _; _]
                      | by eexists [_; _; _; _; _; _; _; _]
                      | by eexists [_; _; _; _; _; _; _; _; _] ]
            end).
Qed.

Lemma takeWhile_Forall {A} (f : A -> bool) l :
  Forall (fun c => f c = true) (takeWhile f l).
Proof.
  induction l as [|x l IH]; simpl; [constructor|].
  destruct (f x) eqn:E; by constructor.
Qed.

(** The base of a path that neither is empty nor ends with the
    separator is a path element. *)
Lemma filepath_Base_isName p :
  String.eqb p "" = false -> strings_HasSuffix p "/" = false ->
  isName (filepath_Base p).
Proof.
  intros Hne Hsuf. unfold filepath_Base. rewrite Hne.
  unfold strings_HasSuffix in Hsuf. rewrite String_rev_list in Hsuf.
  destruct (List.rev (list_ascii_of_string p)) as [|c l] eqn:El.
  { exfalso. apply (f_equal (@List.rev _)) in El.
    rewrite List.rev_involutive in El. simpl in El.
    rewrite <- (string_of_list_ascii_of_string p), El in Hne. discriminate. }
  change (String.rev "/") with "/" in Hsuf.
  change (string_of_list_ascii (c :: l)) with (String c (string_of_list_ascii l))
    in Hsuf.
  rewrite HasPrefix_cons in Hsuf.
  assert (Hc : os_IsPathSeparator c = false).
  { unfold os_IsPathSeparator, os_PathSeparator. rewrite Ascii.eqb_sym.
    destruct (Ascii.eqb "/" c); [by destruct (string_of_list_ascii l)|done]. }
  rewrite dropWhile_head by exact Hc.
  cbn [takeWhile]. rewrite Hc. cbn [negb].
  set (tw := takeWhile (fun c0 => negb (os_IsPathSeparator c0)) l).
  assert (Htw : Forall (fun c0 => os_IsPathSeparator c0 = false) (c :: tw)).
  { constructor; [exact Hc|].
    eapply Forall_impl; [apply takeWhile_Forall|].
    intros x Hx. cbv beta in Hx. by destruct (os_IsPathSeparator x). }
  split.
  - cbn [List.rev]. intros Hempty.
    pose proof (string_of_list_ascii_nonempty c (List.rev tw)) as Hn.
    rewrite Hempty in Hn. discriminate.
  - rewrite list_ascii_of_string_of_list_ascii.
    apply Forall_forall. intros x Hx. rewrite Forall_forall in Htw.
    apply Htw. apply list_elem_of_In. apply List.in_rev.
    by apply list_elem_of_In.
Qed.

(** X13. The name a download is stored under cannot leave its
    temporary directory by way of a separator: whatever the URL path
    and the response headers, the filename derived is empty or a single
    path element, not empty and without separator. *)
Theorem download_filename_is_one_element (path : string) (resp : Response) :
  getFilenameForDownload env path resp = ""
  \/ isName (getFilenameForDownload env path resp).
Proof.
  rewrite getFilenameForDownload_eq. cbv zeta.
  destruct (negb (String.eqb path "") && negb (strings_HasSuffix path "/")) eqn:E1.
  { right. apply andb_prop in E1 as [Hp Hs].
    apply filepath_Base_isName; by apply negb_true_iff. }
  match goal with |- context [if ?c then _ else _] => destruct c eqn:E2 end;
    [|by left].
  right. apply andb_prop in E2 as [E2 Hs]. apply andb_prop in E2 as [_ Hp].
  apply filepath_Base_isName; by apply negb_true_iff.
Qed.

(** X14. A download whose name cannot be determined is left behind.
    When ADD fetches a URL without a derivable filename to a
    destination that ends with "/", the resolution fails after the
    download has completed: the temporary directory was made, yet it
    is not removed by the resolution and is not tracked, so that
    Cleanup does no more than it would have done before. *)
Theorem unnamed_download_is_left_behind
    (orig dest : string) (o : copier) (w : World) (remote : Source) :
  urlutil_IsURL env orig = true ->
  download o = newRemoteSourceDownloader env ->
  fst (downloadSource env orig) = (Some remote, "", None) ->
  strings_HasSuffix dest "/" = true ->
  let r := getCopyInfoForSourcePath env orig dest o w in
  let c := Cleanup (copierOf r) (worldOf r) in
  is_Some (snd (result r))
  /\ EvMkdirTemp ∈ eventsOf r
  /\ countEv isRemoveAll (eventsOf r) = 0
  /\ tmpPaths (copierOf r) = tmpPaths o
  /\ eventsOf c = eventsOf (Cleanup o w).
Proof.
  intros Hurl Hd Hdl Hsuf r c. subst c r.
  destruct (downloadSource_success env orig _ _ Hdl)
    as (u_Path & resp & tmpDir & _ & _ & _ & _ & _ & Hevs).
  cbv zeta in Hevs.
  destruct (getCopyInfoForSourcePath env orig dest o w) as [[[r o'] w'] evs] eqn:H.
  rewrite !Cleanup_run.
  unfold result, eventsOf, copierOf, worldOf. cbn [fst snd].
  unfold getCopyInfoForSourcePath in H. rewrite Hurl in H. cbn [negb] in H.
  do 3 run_step. rewrite Hd in *. unfold newRemoteSourceDownloader in *.
  destruct (downloadSource env orig) as [[[rm pth] er] devs].
  cbn [fst snd] in Hdl, Hevs. simplify_eq.
  cbv beta iota zeta in *. cbn [String.eqb andb] in *. rewrite Hsuf in *.
  run_all.
  split; [by eexists|]. rewrite app_nil_r. cbn [app].
  split; [apply elem_of_cons; right; apply list_elem_of_here|].
  split; [reflexivity|]. split; reflexivity.
Qed.

End DownloadFailure.

(** ** The copy executor *)

Section Executor.
Context (env : Env).

Ltac elem_cases Hin :=
  repeat (apply elem_of_app in Hin as [Hin|Hin]);
  repeat (apply elem_of_cons in Hin as [Hin|Hin];
          [first [discriminate Hin | simplify_eq]|]);
  try (by apply elem_of_nil in Hin).

Lemma isExistingDirectory_run p :
  isExistingDirectory env p
  = ((existsAsDirectory env p,
      match os_Stat env p with
      | (_, Some e) => if isNotExist e then None else Some e
      | (_, None) => None
      end), [EvOsStat p]).
Proof.
  unfold isExistingDirectory, existsAsDirectory. rewrite IO_bind_eq.
  destruct (os_Stat env p) as [st [e|]]; [|reflexivity].
  by destruct (isNotExist e).
Qed.

(** X15. Copying a directory.  When the source is a directory,
    performCopyForInfo copies it with CopyWithTar onto the destination
    path itself, whether or not the destination path ends with the
    separator or exists; it opens, untars and file-copies nothing; and
    when an identity is given, fixPermissions runs after a successful
    copy only, with overrideSkip set exactly when the destination was
    not an existing directory before the copy. *)
Theorem directory_copy
    (dest source : copyInfo) (options : copyFileOptions)
    (srcPath destPath : string) (fi : FileInfo) :
  copyInfo_fullPath env source = (srcPath, None) ->
  copyInfo_fullPath env dest = (destPath, None) ->
  os_Stat env srcPath = (fi, None) -> IsDir fi = true ->
  let r := performCopyForInfo env dest source options in
  countEv isExtractEvent (snd r) = 0
  /\ (forall s d, EvCopyFileWithTar s d ∉ snd r)
  /\ (forall s d, EvCopyWithTar s d ∈ snd r -> s = srcPath /\ d = destPath)
  /\ (forall s d id skip, EvFixPermissions s d id skip ∈ snd r ->
        opt_identity options = Some id /\ s = srcPath /\ d = destPath
        /\ skip = negb (existsAsDirectory env destPath)
        /\ archiver_CopyWithTar env srcPath destPath = None
        /\ fst r = fixPermissions env srcPath destPath id skip)
  /\ (fst r = None -> EvCopyWithTar srcPath destPath ∈ snd r).
Proof.
  intros Hs Hd Hst Hdir r. subst r.
  unfold performCopyForInfo. rewrite Hs, Hd, Hst, Hdir.
  rewrite IO_bind_eq. cbn [fst snd io_emit]. cbv beta iota zeta.
  unfold copyDirectory. rewrite isExistingDirectory_run.
  rewrite IO_bind_eq. cbn [fst snd]. cbv beta iota zeta.
  destruct (os_Stat env destPath) as [st [e|]] eqn:Est.
  1: destruct (isNotExist e) eqn:Ene.
  2: { cbn [fst snd mret IO_ret app]. unfold mret, IO_ret. cbn [fst snd app].
       split; [reflexivity|].
       split; [intros s d Hin; elem_cases Hin|].
       split; [intros s d Hin; elem_cases Hin|].
       split; [intros s d id skip Hin; elem_cases Hin|]. discriminate. }
  all: rewrite IO_bind_eq; cbn [fst snd io_emit].
  all: destruct (archiver_CopyWithTar env srcPath destPath) as [ce|] eqn:Ec.
  all: destruct (opt_identity options) as [id|] eqn:Eid.
  all: rewrite ?IO_bind_eq; unfold mret, IO_ret; cbn [fst snd io_emit app].
  all: (split; [reflexivity|]).
  all: (split; [intros s d Hin; elem_cases Hin|]).
  all: (split; [intros s d Hin; elem_cases Hin; by split|]).
  all: (split; [intros s d id' skip Hin; elem_cases Hin; by repeat split|]).
  all: try discriminate.
  all: intros _; apply elem_of_cons; right; apply elem_of_cons; right;
       apply list_elem_of_here.
Qed.

(** X16. Extracting a local archive.  For a source that is not exempt
    from extraction and is not a directory, with decompression asked
    for and a path that IsArchivePath recognises, performCopyForInfo
    opens the source, untars it into the destination path and closes
    it, and returns what Untar returns.  It does not look at the
    destination, creates no directory, copies no file, and applies no
    ownership: the identity of the options is not used on this
    branch. *)
Theorem archive_extraction
    (dest source : copyInfo) (options : copyFileOptions)
    (srcPath destPath : string) (fi : FileInfo) :
  copyInfo_fullPath env source = (srcPath, None) ->
  copyInfo_fullPath env dest = (destPath, None) ->
  os_Stat env srcPath = (fi, None) -> IsDir fi = false ->
  decompress options = true -> archive_IsArchivePath env srcPath = true ->
  noDecompress source = false ->
  let r := performCopyForInfo env dest source options in
  (os_Open env srcPath = None ->
   r = (archiver_Untar env srcPath destPath,
        [EvOsStat srcPath; EvOsOpen srcPath; EvUntar srcPath destPath;
         EvClose srcPath]))
  /\ (forall e, os_Open env srcPath = Some e ->
        r = (Some e, [EvOsStat srcPath; EvOsOpen srcPath]))
  /\ countEv isChown (snd r) = 0
  /\ EvOsStat destPath ∉ List.tail (snd r).
Proof.
  intros Hs Hd Hst Hdir Hdec Harch Hno r. subst r.
  unfold performCopyForInfo. rewrite Hs, Hd, Hst, Hdir, Hdec, Harch, Hno.
  cbn [andb negb]. rewrite !IO_bind_eq. cbn [fst snd io_emit].
  destruct (os_Open env srcPath) as [e|].
  - unfold mret, IO_ret. cbn [fst snd app].
    split; [discriminate|]. split; [by intros ? [= <-]|].
    split; [reflexivity|]. cbn [List.tail]. intros Hin. elem_cases Hin.
  - rewrite ?IO_bind_eq. unfold mret, IO_ret. cbn [fst snd io_emit app].
    split; [reflexivity|]. split; [discriminate|].
    split; [reflexivity|]. cbn [List.tail]. intros Hin. elem_cases Hin.
Qed.

(** The plain-file branch, with its events. *)
Lemma performCopyForInfo_file dest source options srcPath destPath fi :
  copyInfo_fullPath env source = (srcPath, None) ->
  copyInfo_fullPath env dest = (destPath, None) ->
  os_Stat env srcPath = (fi, None) -> IsDir fi = false ->
  decompress options && archive_IsArchivePath env srcPath
    && negb (noDecompress source) = false ->
  performCopyForInfo env dest source options
  = match os_Stat env destPath with
    | (_, Some e) =>
        if isNotExist e
        then (fst (copyFile env srcPath (fileTarget env dest source destPath)
                     (opt_identity options)),
              [EvOsStat srcPath; EvOsStat destPath]
              ++ snd (copyFile env srcPath (fileTarget env dest source destPath)
                        (opt_identity options)))
        else (Some e, [EvOsStat srcPath; EvOsStat destPath])
    | (_, None) =>
        (fst (copyFile env srcPath (fileTarget env dest source destPath)
                (opt_identity options)),
         [EvOsStat srcPath; EvOsStat destPath]
         ++ snd (copyFile env srcPath (fileTarget env dest source destPath)
                   (opt_identity options)))
    end.
Proof.
  intros Hs Hd Hst Hdir Hno.
  rewrite (performCopyForInfo_plain env dest source options srcPath destPath fi
             Hs Hd Hst Hdir Hno).
  rewrite isExistingDirectory_run. rewrite !IO_bind_eq.
  cbn [fst snd io_emit]. unfold fileTarget.
  destruct (os_Stat env destPath) as [st [e|]]; [|reflexivity].
  by destruct (isNotExist e).
Qed.

(** The events of copyFile, step by step. *)
Lemma copyFile_run s d id :
  copyFile env s d id
  = match id with
    | None =>
        match os_MkdirAll env (filepath_Dir env d) with
        | Some e => (Some e, [EvMkdirAll (filepath_Dir env d)])
        | None =>
            match archiver_CopyFileWithTar env s d with
            | Some e => (Some (Wrapf e "failed to copy file"),
                         [EvMkdirAll (filepath_Dir env d); EvCopyFileWithTar s d])
            | None => (None,
                       [EvMkdirAll (filepath_Dir env d); EvCopyFileWithTar s d])
            end
        end
    | Some i =>
        match user_MkdirAllAndChown env (filepath_Dir env d) (UID i) (GID i) with
        | Some e => (Some (Wrapf e "failed to create new directory"),
                     [EvMkdirAllAndChown (filepath_Dir env d) (UID i) (GID i)])
        | None =>
            match archiver_CopyFileWithTar env s d with
            | Some e => (Some (Wrapf e "failed to copy file"),
                         [EvMkdirAllAndChown (filepath_Dir env d) (UID i) (GID i);
                          EvCopyFileWithTar s d])
            | None => (fixPermissions env s d i false,
                       [EvMkdirAllAndChown (filepath_Dir env d) (UID i) (GID i);
                        EvCopyFileWithTar s d; EvFixPermissions s d i false])
            end
        end
    end.
Proof.
  unfold copyFile. destruct id as [i|].
  - destruct (user_MkdirAllAndChown env _ _ _); [reflexivity|].
    destruct (archiver_CopyFileWithTar env s d); reflexivity.
  - destruct (os_MkdirAll env _); [reflexivity|].
    destruct (archiver_CopyFileWithTar env s d); reflexivity.
Qed.

(** X17. Where a plain file goes.  For a source that is not a
    directory and is not extracted, the one file copy performCopyForInfo
    may make goes to the destination path itself, unless the
    destination exists as a directory or the destination as written
    ends with the separator: then it goes to the base name of the source
    path as written, under the destination path.  The copy is made only
    after the parent directory of the target was created, and a
    successful run has made it. *)
Theorem file_copy_target
    (dest source : copyInfo) (options : copyFileOptions)
    (srcPath destPath : string) (fi : FileInfo) :
  copyInfo_fullPath env source = (srcPath, None) ->
  copyInfo_fullPath env dest = (destPath, None) ->
  os_Stat env srcPath = (fi, None) -> IsDir fi = false ->
  decompress options && archive_IsArchivePath env srcPath
    && negb (noDecompress source) = false ->
  let r := performCopyForInfo env dest source options in
  let target :=
    if existsAsDirectory env destPath
       || strings_HasSuffix (path dest) (string_of_char os_PathSeparator)
    then filepath_Join env destPath (filepath_Base (path source))
    else destPath in
  (forall s d, EvCopyFileWithTar s d ∈ snd r ->
     s = srcPath /\ d = target
     /\ match opt_identity options with
        | None => os_MkdirAll env (filepath_Dir env target) = None
        | Some id =>
            user_MkdirAllAndChown env (filepath_Dir env target) (UID id) (GID id)
            = None
        end)
  /\ (forall s d, EvCopyWithTar s d ∉ snd r)
  /\ (fst r = None ->
      EvCopyFileWithTar srcPath target ∈ snd r
      /\ archiver_CopyFileWithTar env srcPath target = None).
Proof.
  intros Hs Hd Hst Hdir Hno r target. subst r.
  rewrite (performCopyForInfo_file dest source options srcPath destPath fi
             Hs Hd Hst Hdir Hno).
  fold (fileTarget env dest source destPath) in target. subst target.
  rewrite copyFile_run.
  set (target := fileTarget env dest source destPath).
  destruct (os_Stat env destPath) as [st [e|]].
  1: destruct (isNotExist e).
  all: destruct (opt_identity options) as [id|].
  all: try destruct (user_MkdirAllAndChown env _ _ _) eqn:Emk.
  all: try destruct (os_MkdirAll env _) eqn:Emk.
  all: try destruct (archiver_CopyFileWithTar env srcPath target) eqn:Ecp.
  all: cbn [fst snd app].
  all: (split; [intros s d Hin; elem_cases Hin; by repeat split|]).
  all: (split; [intros s d Hin; elem_cases Hin|]).
  all: try discriminate.
  all: intros Hok; split; [|reflexivity].
  all: repeat first [apply list_elem_of_here | apply list_elem_of_further].
Qed.

(** X18. Ownership.  Without an identity in the options,
    performCopyForInfo never calls fixPermissions nor MkdirAllAndChown;
    with one it never calls the plain MkdirAll.  Whenever fixPermissions
    is called it is the last thing done, once, with the identity of the
    options, after the copy to that destination succeeded, and its
    result is the result of the whole copy. *)
Theorem ownership_is_applied_last
    (dest source : copyInfo) (options : copyFileOptions) :
  let r := performCopyForInfo env dest source options in
  (opt_identity options = None -> countEv isChown (snd r) = 0)
  /\ (is_Some (opt_identity options) -> forall p, EvMkdirAll p ∉ snd r)
  /\ (forall s d id skip, EvFixPermissions s d id skip ∈ snd r ->
        opt_identity options = Some id
        /\ fst r = fixPermissions env s d id skip
        /\ (exists pre, snd r = pre ++ [EvFixPermissions s d id skip]
                        /\ countEv isFixPermissions pre = 0)
        /\ (archiver_CopyWithTar env s d = None
            \/ archiver_CopyFileWithTar env s d = None)).
Proof.
  intros r. subst r. unfold performCopyForInfo.
  destruct (copyInfo_fullPath env source) as [srcPath [e|]].
  { unfold mret, IO_ret. cbn [fst snd].
    split; [done|]. split; [intros _ p Hin; elem_cases Hin|].
    intros s d id skip Hin. elem_cases Hin. }
  destruct (copyInfo_fullPath env dest) as [destPath [e|]].
  { unfold mret, IO_ret. cbn [fst snd].
    split; [done|]. split; [intros _ p Hin; elem_cases Hin|].
    intros s d id skip Hin. elem_cases Hin. }
  rewrite IO_bind_eq. cbn [fst snd io_emit].
  destruct (os_Stat env srcPath) as [fi [e|]].
  { unfold mret, IO_ret. cbn [fst snd app].
    split; [done|]. split; [intros _ p Hin; elem_cases Hin|].
    intros s d id skip Hin. elem_cases Hin. }
  destruct (IsDir fi).
  { unfold copyDirectory. rewrite isExistingDirectory_run.
    rewrite IO_bind_eq. cbn [fst snd]. cbv beta iota zeta.
    destruct (os_Stat env destPath) as [st [e|]].
    1: destruct (isNotExist e).
    all: rewrite ?IO_bind_eq; cbn [fst snd io_emit].
    all: try destruct (archiver_CopyWithTar env srcPath destPath) eqn:Ec.
    all: destruct (opt_identity options) as [id|].
    all: rewrite ?IO_bind_eq; unfold mret, IO_ret; cbn [fst snd io_emit app].
    all: (split; [first [done | discriminate]|]).
    all: (split; [intros Hs p Hin; elem_cases Hin; by destruct Hs|]).
    all: intros s d id' skip Hin; elem_cases Hin.
    all: split; [reflexivity|]; split; [reflexivity|].
    all: split; [by eexists [_; _; _] | by left]. }
  destruct (decompress options && archive_IsArchivePath env srcPath
            && negb (noDecompress source)).
  { rewrite !IO_bind_eq. cbn [fst snd io_emit].
    destruct (os_Open env srcPath).
    all: rewrite ?IO_bind_eq; unfold mret, IO_ret; cbn [fst snd io_emit app].
    all: (split; [done|]).
    all: (split; [intros Hs p Hin; elem_cases Hin|]).
    all: intros s d id' skip Hin; elem_cases Hin. }
  rewrite isExistingDirectory_run. rewrite IO_bind_eq. cbn [fst snd].
  cbv beta iota zeta.
  set (target := if existsAsDirectory env destPath || _ then _ else destPath).
  assert (Hcf := copyFile_run srcPath target (opt_identity options)).
  destruct (os_Stat env destPath) as [st [e|]].
  1: destruct (isNotExist e).
  2: { unfold mret, IO_ret. cbn [fst snd app].
       split; [done|]. split; [intros _ p Hin; elem_cases Hin|].
       intros s d id skip Hin. elem_cases Hin. }
  all: rewrite Hcf; clear Hcf.
  all: destruct (opt_identity options) as [id|].
  all: try destruct (user_MkdirAllAndChown env _ _ _) eqn:Emk.
  all: try destruct (os_MkdirAll env _) eqn:Emk.
  all: try destruct (archiver_CopyFileWithTar env srcPath target) eqn:Ecp.
  all: cbn [fst snd app].
  all: (split; [first [done | discriminate]|]).
  all: (split; [intros Hs p Hin; elem_cases Hin; by destruct Hs|]).
  all: intros s d id' skip Hin; elem_cases Hin.
  all: split; [reflexivity|]; split; [reflexivity|].
  all: split; [by eexists [_; _; _; _] | by right].
Qed.

(** X19. Nothing is written before the copy is known to be possible.
    When the source path or the destination path cannot be resolved, or
    the stat of the source fails, or, for a source that is not a local
    archive to extract, the stat of the destination fails with an error
    other than os.ErrNotExist, performCopyForInfo fails without a
    single call that changes the target filesystem.  A failing stat of
    the source is reported as "source path not found". *)
Theorem failed_checks_write_nothing
    (dest source : copyInfo) (options : copyFileOptions) :
  let r := performCopyForInfo env dest source options in
  let srcPath := fst (copyInfo_fullPath env source) in
  let destPath := fst (copyInfo_fullPath env dest) in
  (forall e, snd (copyInfo_fullPath env source) = Some e ->
     r = (Some e, []))
  /\ (snd (copyInfo_fullPath env source) = None ->
      forall e, snd (copyInfo_fullPath env dest) = Some e -> r = (Some e, []))
  /\ (snd (copyInfo_fullPath env source) = None ->
      snd (copyInfo_fullPath env dest) = None ->
      (forall e, snd (os_Stat env srcPath) = Some e ->
         r = (Some (Wrapf e "source path not found"), [EvOsStat srcPath]))
      /\ (forall fi e st,
            os_Stat env srcPath = (fi, None) ->
            IsDir fi = true
            \/ decompress options && archive_IsArchivePath env srcPath
               && negb (noDecompress source) = false ->
            os_Stat env destPath = (st, Some e) -> isNotExist e = false ->
            is_Some (fst r) /\ countEv isCopyEvent (snd r) = 0)).
Proof.
  intros r srcPath destPath. subst r srcPath destPath.
  unfold performCopyForInfo.
  destruct (copyInfo_fullPath env source) as [srcPath [e|]]; cbn [fst snd].
  { split; [by intros ? [= <-]|]. split; discriminate. }
  split; [discriminate|].
  destruct (copyInfo_fullPath env dest) as [destPath [e|]]; cbn [fst snd].
  { split; [by intros _ ? [= <-]|]. intros _ Hx. discriminate Hx. }
  split; [intros _ ? Hx; discriminate Hx|]. intros _ _.
  rewrite IO_bind_eq. cbn [fst snd io_emit].
  destruct (os_Stat env srcPath) as [fi [e|]]; cbn [fst snd].
  { split; [by intros ? [= <-]|]. intros ? ? ? Hx. discriminate Hx. }
  split; [discriminate|].
  intros fi' e st [= <-] Hbranch Hdst Hne.
  destruct (IsDir fi).
  { unfold copyDirectory. rewrite isExistingDirectory_run, Hdst, Hne.
    rewrite IO_bind_eq. unfold mret, IO_ret. cbn [fst snd app].
    split; [by eexists | reflexivity]. }
  destruct Hbranch as [Hx|Hno]; [discriminate Hx|]. rewrite Hno.
  rewrite isExistingDirectory_run, Hdst, Hne.
  rewrite IO_bind_eq. unfold mret, IO_ret. cbn [fst snd app].
  split; [by eexists | reflexivity].
Qed.

End Executor.

(** ** One source, one copyInfo *)

Section Shape.
Context (env : Env).

Lemma calcCopyInfo_single p aw o w :
  aw && containsWildcards env (normalizeOrigPath p) = false ->
  let r := calcCopyInfo env p aw o w in
  snd (result r) = None ->
  exists src h,
    source (copierOf r) = Some src
    /\ fst (result r) = [newCopyInfoFromSource src (normalizeOrigPath p) h].
Proof.
  intros Hnw r. subst r.
  destruct (calcCopyInfo env p aw o w) as [[[r o'] w'] evs] eqn:H.
  unfold result, copierOf. cbn [fst snd].
  unfold calcCopyInfo, calcCopyInfoBody, copyInfoForFile, storeInPathCache in H.
  run_all.
  all: cbn [fst snd source set_source set_activeLayer newCopyInfos] in *.
  all: intros Hok; try discriminate Hok.
  all: try congruence.
  all: eexists _, _; (split; [first [eassumption | reflexivity]|]); reflexivity.
Qed.

(** X20. A source that is a URL, or a path without wildcards, resolves
    to exactly one copyInfo when it resolves at all; only wildcards
    make one source yield several, or none.  For a path, that copyInfo
    carries the normalized path and the root of the source the copier
    holds after the call. *)
Theorem one_source_one_copyInfo
    (orig dest : string) (o : copier) (w : World) :
  urlutil_IsURL env orig = true
  \/ containsWildcards env (normalizeOrigPath orig) = false ->
  let r := getCopyInfoForSourcePath env orig dest o w in
  snd (result r) = None ->
  List.length (fst (result r)) = 1
  /\ (urlutil_IsURL env orig = false ->
      exists src h,
        source (copierOf r) = Some src
        /\ fst (result r) = [newCopyInfoFromSource src (normalizeOrigPath orig) h]).
Proof.
  intros Hcase r. subst r.
  destruct (urlutil_IsURL env orig) eqn:Hurl.
  - destruct (getCopyInfoForSourcePath env orig dest o w) as [[[r o'] w'] evs] eqn:H.
    unfold getCopyInfoForSourcePath in H. rewrite Hurl in H. cbn [negb] in H.
    unfold result, copierOf. cbn [fst snd]. run_all.
    all: cbn [fst snd]; intros Hok; try discriminate Hok.
    split; [reflexivity | discriminate].
  - destruct Hcase as [Hx|Hnw]; [discriminate Hx|].
    unfold getCopyInfoForSourcePath. rewrite Hurl. cbn [negb]. intros Hok.
    assert (Hnw' : true && containsWildcards env (normalizeOrigPath orig) = false)
      by exact Hnw.
    destruct (calcCopyInfo_single orig true o w Hnw' Hok) as (src & h & Hs & Hi).
    split; [by rewrite Hi|]. intros _. by exists src, h.
Qed.

End Shape.

(** ** Walks that fail *)

Section PartialWalk.
Context (env : Env).

Lemma walkSource_walk_error src pre q e post :
  walkable env src pre ->
  forall acc,
    snd (fst (walkDir (walkSource_fn env src) (pre ++ (q, Some e) :: post) acc))
    = Some e.
Proof.
  induction 1 as [|[p' e'] rest [He Hrel] _ IH]; intros acc.
  - reflexivity.
  - simpl in He, Hrel. subst e'. cbn [app walkDir]. rewrite IO_bind_eq.
    destruct (walkSource_fn env src acc p' None) as [[acc' x] evs1] eqn:Hfn.
    cbn [fst snd].
    assert (x = None) as ->.
    { unfold walkSource_fn in Hfn.
      destruct (filepath_Rel env (Root src) p') as [rel y]. simpl in Hrel. subst y.
      run_all; reflexivity. }
    apply IH.
Qed.

(** X21. No fingerprint from a partial walk.  When the walk of a
    directory reports an error for an entry, after entries that raised
    none, walkSource fails with that error, and a resolution that gets
    as far as walking this directory fails with it too and stores
    nothing in the cache. *)
Theorem partial_walk_gives_no_fingerprint
    (o : copier) (w : World) (src : Source) (p : string) (aw : bool)
    (fi : FileInfo) (fp : string)
    (pre post : list (string * error)) (q : string) (e : err) :
  freshResolution env o w src p aw ->
  StatAt env src (normalizeOrigPath p) = (fi, None) -> IsDir fi = true ->
  FullPath env src (normalizeOrigPath p) = (fp, None) ->
  filepath_WalkDir env fp = pre ++ (q, Some e) :: post ->
  walkable env src pre ->
  let r := calcCopyInfo env p aw o w in
  fst (walkSource env src (normalizeOrigPath p)) = ([], Some e)
  /\ result r = ([], Some e)
  /\ (forall key v, EvCacheStore key v ∉ eventsOf r)
  /\ pathCache (worldOf r) = pathCache w.
Proof.
  intros (Hv & Hr & Hnw & Hc) Hstat Hdir Hfp Hwalk Hpre r. subst r.
  assert (Hws : fst (walkSource env src (normalizeOrigPath p)) = ([], Some e)).
  { unfold walkSource. rewrite Hfp, Hwalk. rewrite !IO_bind_eq. cbn [fst snd].
    pose proof (walkSource_walk_error src pre q e post Hpre []) as Herr.
    destruct (walkDir (walkSource_fn env src) (pre ++ (q, Some e) :: post) [])
      as [[subfiles x] evs]. cbn [fst snd] in Herr |- *. by subst x. }
  split; [exact Hws|].
  destruct (calcCopyInfo env p aw o w) as [[[r o'] w'] evs] eqn:H.
  unfold result, eventsOf, worldOf. cbn [fst snd].
  unfold calcCopyInfo, calcCopyInfoBody, copyInfoForFile, storeInPathCache in H.
  unfold resolvesFrom in Hr.
  run_all.
  all: cbn [source set_source set_activeLayer pathCache hash newCopyInfoFromSource
            zeroCopyInfo] in *.
  all: fresh_source Hr.
  all: do 3 (repeat match goal with
             | H1 : ?t = _, H2 : ?t = _ |- _ => rewrite H1 in H2
             end; simplify_eq).
  all: try (match goal with
            | Hb : negb (ImageID ?i =? "") = true |- _ =>
                pose proof (Hc i eq_refl (eqb_negb_ne _ _ Hb))
            end; congruence).
  all: repeat match goal with
       | Hx : walkSource _ _ _ = _ |- _ =>
           rewrite Hx in Hws; cbn [fst snd] in Hws; simplify_eq
       end.
  all: try discriminate.
  all: (split; [reflexivity|]).
  all: (split; [|reflexivity]).
  all: intros key v Hin.
  all: repeat (apply elem_of_app in Hin as [Hin|Hin]).
  all: repeat (apply elem_of_cons in Hin as [Hin|Hin]; [discriminate Hin|]).
  all: try (by apply elem_of_nil in Hin).
  all: match goal with
       | Hx : walkSource _ ?s ?p' = (_, ?l) |- _ =>
           pose proof (walkSource_plain env s p') as Hp; rewrite Hx in Hp;
           cbn [snd] in Hp; pose proof (plain_elem _ _ Hp Hin) as Hpe;
           discriminate Hpe
       end.
Qed.

End PartialWalk.

(** ** Concrete runs *)

Section ConcreteRuns.
Import Fixture.

Lemma pathCache_discipline_witness :
  let o := imageCopier "img" in
  let w := {| pathCache := {[ "imgx" := "file:h(x)" ]}; layerCalls := 0 |} in
  false && containsWildcards env (normalizeOrigPath "x") = false
  /\ wellBehaved (download o)
  /\ result (calcCopyInfo env "x" false o w)
     = ([{| root := "/layer"; path := "x"; hash := "file:h(x)";
            noDecompress := false |}], None)
  /\ countEv isReadEvent (eventsOf (calcCopyInfo env "x" false o w)) = 0.
Proof.
  intros o w.
  assert (Hwb : wellBehaved (download o)) by (intros url; apply List.Forall_nil).
  split; [reflexivity|]. split; [exact Hwb|].
  destruct (pathCache_discipline env "x" false o w eq_refl Hwb) as (_ & Hhit & _).
  destruct (Hhit "imgx" "file:h(x)") as (src & Hsrc & Hres & Hquiet & _).
  - assert (eventsOf (calcCopyInfo env "x" false o w)
            = [EvNewRWLayer {| layerRoot := "/layer" |} None; EvCacheLoad "imgx"])
      as -> by (vm_compute; reflexivity).
    apply elem_of_cons. right. apply list_elem_of_here.
  - vm_compute. reflexivity.
  - split; [|exact Hquiet]. rewrite Hres.
    assert (Some src = Some layerSource) as Heq
      by (rewrite <- Hsrc; vm_compute; reflexivity).
    inversion Heq. reflexivity.
Defined.

(** C1. The code does not keep to the claim.  calcCopyInfo reads the
    cache only for an image source whose ImageID is not empty, but
    storeInPathCache stores for every image source.  An image without
    ImageID that resolves imgx leaves its fingerprint under the key
    imgx, without having read the cache; the image img that resolves x
    afterwards finds this entry under its own key, img + x, and returns
    the fingerprint of imgx for x, where a resolution in an empty cache
    returns that of x. *)
Lemma pathCache_entry_without_identity_is_read_back :
  let layerEnv := with_StatAt env statWithImgx in
  let r1 := calcCopyInfo layerEnv "imgx" true (imageCopier "") world0 in
  let r2 := calcCopyInfo layerEnv "x" true (imageCopier "img") (worldOf r1) in
  let fresh := calcCopyInfo layerEnv "x" true (imageCopier "img") world0 in
  eventsOf r1
  = [EvNewRWLayer {| layerRoot := "/layer" |} None;
     EvStatAt "/layer" "imgx"; EvHash "/layer" "imgx";
     EvCacheStore "imgx" "file:h(imgx)"]
  /\ pathCache (worldOf r1) !! "imgx" = Some "file:h(imgx)"
  /\ eventsOf r2
     = [EvNewRWLayer {| layerRoot := "/layer" |} None; EvCacheLoad "imgx"]
  /\ result r2
     = ([{| root := "/layer"; path := "x"; hash := "file:h(imgx)";
            noDecompress := false |}], None)
  /\ result fresh
     = ([{| root := "/layer"; path := "x"; hash := "file:h(x)";
            noDecompress := false |}], None).
Proof.
  intros layerEnv r1 r2 fresh.
  assert (H1 : r1
               = (([{| root := "/layer"; path := "imgx"; hash := "file:h(imgx)";
                       noDecompress := false |}], None),
                  set_source
                    (set_activeLayer (imageCopier "") (Some {| layerRoot := "/layer" |}))
                    (Some layerSource),
                  {| pathCache := <["imgx" := "file:h(imgx)"]> ∅; layerCalls := 1 |},
                  [EvNewRWLayer {| layerRoot := "/layer" |} None;
                   EvStatAt "/layer" "imgx"; EvHash "/layer" "imgx";
                   EvCacheStore "imgx" "file:h(imgx)"])) by reflexivity.
  subst r2. rewrite H1. unfold eventsOf, worldOf, result. cbn [fst snd pathCache].
  split; [reflexivity|]. split; [apply lookup_insert_eq|].
  split; [reflexivity|]. split; reflexivity.
Qed.

(** C3, as stated, fails: ADD of two URLs to /dest is refused by the
    rule, but only after both were downloaded: temporary directories
    were made and files written before the construction failed. *)
Lemma multi_source_error_follows_downloads :
  let sd := {| DestPath := "/dest";
               SourcePaths := ["http://host/archive.tar"; "http://host/dl/"] |} in
  let r := createCopyInstruction env sd "ADD" localCopier world0 in
  snd (result r)
  = Some (Errorf "When using ADD with more than one source file, the destination must be a directory and end with a /")
  /\ List.filter isFilesystemMutation (eventsOf r)
     = [EvMkdirTemp; EvOpenFile "/tmp/docker-remote1/archive.tar";
        EvIoCopy "/tmp/docker-remote1/archive.tar";
        EvChtimes "/tmp/docker-remote1/archive.tar" 1445412480%Z 1445412480%Z;
        EvMkdirTemp; EvOpenFile "/tmp/docker-remote1/a.txt";
        EvIoCopy "/tmp/docker-remote1/a.txt";
        EvChtimes "/tmp/docker-remote1/a.txt" 0%Z 0%Z]
  /\ ~ (forall (sd : SourcesAndDest) (cmd : string) (o : copier) (w : World),
         snd (result (createCopyInstruction env sd cmd o w))
         = Some (Errorf ("When using " +:+ cmd +:+
             " with more than one source file, the destination must be a directory and end with a /")) ->
         countEv isFilesystemMutation
           (eventsOf (createCopyInstruction env sd cmd o w)) = 0).
Proof.
  intros sd r.
  assert (Herr : snd (result r)
                 = Some (Errorf "When using ADD with more than one source file, the destination must be a directory and end with a /"))
    by reflexivity.
  assert (Hmut : List.filter isFilesystemMutation (eventsOf r)
                 = [EvMkdirTemp; EvOpenFile "/tmp/docker-remote1/archive.tar";
                    EvIoCopy "/tmp/docker-remote1/archive.tar";
                    EvChtimes "/tmp/docker-remote1/archive.tar"
                      1445412480%Z 1445412480%Z;
                    EvMkdirTemp; EvOpenFile "/tmp/docker-remote1/a.txt";
                    EvIoCopy "/tmp/docker-remote1/a.txt";
                    EvChtimes "/tmp/docker-remote1/a.txt" 0%Z 0%Z])
    by reflexivity.
  split; [exact Herr|]. split; [exact Hmut|].
  intros H. specialize (H sd "ADD" localCopier world0 Herr).
  fold r in H. unfold countEv in H. rewrite Hmut in H. discriminate H.
Qed.

(** C8. The code does not keep to the claim for a file that comes from
    a URL.  copyInfoForFile puts "file:" before the hash of the source,
    so the file x of the build context gets the fingerprint file:h(x);
    getCopyInfoForSourcePath takes the hash of a downloaded file as it
    is, so archive.tar fetched from a URL gets the fingerprint
    h(archive.tar), without the tag of its kind. *)
Lemma downloaded_file_fingerprint_is_untagged :
  let r := getCopyInfoForSourcePath env "http://host/archive.tar" "/dest"
             localCopier world0 in
  let l := getCopyInfoForSourcePath env "x" "/dest" localCopier world0 in
  result r
  = ([{| root := "/tmp/docker-remote1"; path := "archive.tar";
         hash := "h(archive.tar)"; noDecompress := true |}], None)
  /\ Forall (fun ci => strings_HasPrefix (hash ci) "file:" = false) (fst (result r))
  /\ result l
     = ([{| root := "/ctx"; path := "x"; hash := "file:h(x)";
            noDecompress := false |}], None).
Proof.
  intros r l.
  assert (Hr : result r
               = ([{| root := "/tmp/docker-remote1"; path := "archive.tar";
                      hash := "h(archive.tar)"; noDecompress := true |}], None))
    by reflexivity.
  split; [exact Hr|]. rewrite Hr. cbn [fst].
  split; [|reflexivity].
  apply List.Forall_cons; [reflexivity | apply List.Forall_nil].
Qed.

Lemma localCopier_fresh p :
  hasStar (normalizeOrigPath p) = false ->
  freshResolution env localCopier world0 ctxSource p true.
Proof.
  intros Hp. split; [reflexivity|]. split; [reflexivity|].
  split; [exact Hp|]. intros im Him. discriminate Him.
Qed.

Lemma directory_fingerprint_witness :
  let enumerate := fun p => List.rev (walkAny p) in
  freshResolution env localCopier world0 ctxSource "dir" true
  /\ StatAt env ctxSource (normalizeOrigPath "dir") = ({| IsDir := true |}, None)
  /\ IsDir {| IsDir := true |} = true
  /\ FullPath env ctxSource (normalizeOrigPath "dir") = ("/ctx/dir", None)
  /\ walkable env ctxSource (filepath_WalkDir env "/ctx/dir")
  /\ filepath_WalkDir env "/ctx/dir" ≡ₚ enumerate "/ctx/dir"
  /\ result (calcCopyInfo (with_WalkDir env enumerate) "dir" true localCopier world0)
     = result (calcCopyInfo env "dir" true localCopier world0).
Proof.
  intros enumerate.
  assert (Hf : freshResolution env localCopier world0 ctxSource "dir" true)
    by (apply localCopier_fresh; reflexivity).
  assert (Hw : walkable env ctxSource (filepath_WalkDir env "/ctx/dir"))
    by (repeat constructor).
  assert (Hp : filepath_WalkDir env "/ctx/dir" ≡ₚ enumerate "/ctx/dir")
    by apply Permutation_rev.
  repeat (split; [first [exact Hf | exact Hw | exact Hp | reflexivity]|]).
  exact (proj2 (directory_fingerprint env localCopier world0 ctxSource "dir" true
                  {| IsDir := true |} "/ctx/dir" enumerate
                  Hf eq_refl eq_refl eq_refl Hw Hp)).
Defined.

(** C2, as stated, fails: the walk of the directory dir visits dir
    itself, its path relative to the source root is not ".", and its
    hash is one of the members. *)
Lemma directory_own_entry_is_hashed :
  ~ (forall (env : Env) (o : copier) (w : World) (src : Source) (p : string)
            (aw : bool) (fi : FileInfo) (fp : string),
       freshResolution env o w src p aw ->
       StatAt env src (normalizeOrigPath p) = (fi, None) -> IsDir fi = true ->
       FullPath env src (normalizeOrigPath p) = (fp, None) ->
       walkable env src (filepath_WalkDir env fp) ->
       result (calcCopyInfo env p aw o w)
       = ([newCopyInfoFromSource src (normalizeOrigPath p)
             (hashStringSlice env "dir"
                (sort_Strings
                   (spec_directoryMembers env src fp (filepath_WalkDir env fp))))],
          None)).
Proof.
  intros H.
  specialize (H env localCopier world0 ctxSource "dir" true
                {| IsDir := true |} "/ctx/dir"
                (localCopier_fresh "dir" eq_refl) eq_refl eq_refl eq_refl).
  assert (Hw : walkable env ctxSource (filepath_WalkDir env "/ctx/dir"))
    by (repeat constructor).
  specialize (H Hw). vm_compute in H. discriminate H.
Qed.

Lemma multi_source_needs_directory_witness :
  let sd := {| DestPath := "/dest"; SourcePaths := ["x"; "dir"] |} in
  let sd1 := {| DestPath := "/dest"; SourcePaths := ["x"] |} in
  wellBehaved (download localCopier)
  /\ countEv isCopyEvent
       (eventsOf (createCopyInstruction env sd "COPY" localCopier world0)) = 0
  /\ snd (result (createCopyInstruction env sd "COPY" localCopier world0))
     = Some (Errorf "When using COPY with more than one source file, the destination must be a directory and end with a /")
  /\ snd (result (createCopyInstruction env sd1 "COPY" localCopier world0)) = None.
Proof.
  intros sd sd1.
  assert (Hwb : wellBehaved (download localCopier))
    by apply newRemoteSourceDownloader_wellBehaved.
  split; [exact Hwb|].
  destruct (multi_source_needs_directory env sd "COPY" localCopier world0)
    as (_ & _ & _ & Hcopy & _ & Hres).
  destruct (multi_source_needs_directory env sd1 "COPY" localCopier world0)
    as (_ & _ & _ & _ & _ & Hres1).
  split; [exact (Hcopy Hwb)|]. split.
  - destruct (Hres _ eq_refl) as [Hmany _].
    rewrite Hmany; [reflexivity | simpl; lia | reflexivity].
  - destruct (Hres1 _ eq_refl) as [_ Hone].
    rewrite Hone; [reflexivity | left; reflexivity].
Defined.

Lemma layer_lifecycle_witness :
  let rs := [ReqCalcCopyInfo "*" true; ReqCalcCopyInfo "x" false;
             ReqSourcePaths ["dir"; "x"] "/dest/"] in
  wellBehaved (download (imageCopier "img"))
  /\ countEv isCreated (eventsOf (session env rs (imageCopier "img") world0)) <= 1.
Proof.
  intros rs.
  assert (Hwb : wellBehaved (download (imageCopier "img")))
    by (intros url; apply List.Forall_nil).
  split; [exact Hwb|].
  exact (proj1 (layer_lifecycle env rs (imageCopier "img") world0 Hwb)).
Defined.

Lemma remote_content_is_not_extracted_witness :
  let source := {| root := "/tmp/docker-remote1"; path := "archive.tar";
                   hash := "h(archive.tar)"; noDecompress := true |} in
  let dest := {| root := "/layer"; path := "/dest/"; hash := "";
                 noDecompress := false |} in
  let options := {| decompress := true; opt_identity := None |} in
  urlutil_IsURL env "http://host/archive.tar" = true
  /\ noDecompress source = true
  /\ archive_IsArchivePath env "/tmp/docker-remote1/archive.tar" = true
  /\ Forall (fun ci => noDecompress ci = true)
       (fst (result (getCopyInfoForSourcePath env "http://host/archive.tar" "/dest/"
                       localCopier world0)))
  /\ countEv isExtractEvent (snd (performCopyForInfo env dest source options)) = 0.
Proof.
  intros source dest options.
  destruct (remote_content_is_not_extracted env "http://host/archive.tar" "/dest/"
              localCopier world0 dest source options) as [Hurl Hcopy].
  split; [reflexivity|]. split; [reflexivity|]. split; [reflexivity|].
  split; [exact (Hurl eq_refl) | exact (proj1 (Hcopy eq_refl))].
Defined.

Lemma filename_for_download_witness :
  isName "archive.tar"
  /\ getFilenameForDownload env ("/pub" +:+ "/" +:+ "archive.tar")
       (response "http://host/pub/archive.tar") = "archive.tar".
Proof.
  assert (Hn : isName "archive.tar") by (split; [discriminate | repeat constructor]).
  split; [exact Hn|].
  exact (proj2 (filename_for_download env "" (response "http://host/pub/archive.tar"))
               "/pub" "archive.tar" Hn).
Defined.

(** C5, as stated, fails: the filename parameter sub/a.txt is present and
    does not end with "/", yet the derived name is its base, a.txt. *)
Lemma content_disposition_filename_is_based :
  ~ (forall (env : Env) (path : string) (resp : Response)
            (media : string) (params : gmap string string) (f : string),
       path = "" \/ strings_HasSuffix path "/" = true ->
       mime_ParseMediaType env (Header_Get resp "Content-Disposition")
       = (media, params, None) ->
       params !! "filename" = Some f ->
       strings_HasSuffix f "/" = false ->
       getFilenameForDownload env path resp = f).
Proof.
  intros H.
  specialize (H env "/dl/" (response "http://host/dl/") "attachment"
                {[ "filename" := "sub/a.txt" ]} "sub/a.txt").
  assert (Hname : getFilenameForDownload env "/dl/" (response "http://host/dl/")
                  = "a.txt") by (vm_compute; reflexivity).
  rewrite Hname in H.
  assert (Habs : "a.txt" = "sub/a.txt"); [|discriminate Habs].
  apply H; [right; reflexivity | reflexivity | reflexivity | reflexivity].
Qed.

Lemma download_mtime_witness :
  fst (downloadSource env "http://host/archive.tar")
  = (Some tmpSource, "archive.tar", None)
  /\ snd (downloadSource env "http://host/archive.tar")
     = [EvHttpGet "http://host/archive.tar"; EvMkdirTemp;
        EvOpenFile "/tmp/docker-remote1/archive.tar";
        EvIoCopy "/tmp/docker-remote1/archive.tar"; EvFprintln;
        EvClose "/tmp/docker-remote1/archive.tar";
        EvChtimes "/tmp/docker-remote1/archive.tar" 1445412480%Z 1445412480%Z]
  /\ system_Chtimes env "/tmp/docker-remote1/archive.tar" 1445412480%Z 1445412480%Z
     = None.
Proof.
  assert (Hok : fst (downloadSource env "http://host/archive.tar")
                = (Some tmpSource, "archive.tar", None)) by reflexivity.
  split; [exact Hok|].
  destruct (download_mtime env _ _ _ Hok)
    as (resp & tmpDir & name & Hget & Hmk & _ & Hname & _ & Hev).
  inversion Hget; subst resp. inversion Hmk; subst tmpDir.
  cbv zeta in Hev. destruct Hev as (_ & Htrace & _ & Hch). subst name.
  split; [exact Htrace | exact Hch].
Defined.

Lemma unnamed_download_witness :
  urlutil_IsURL env "http://host/" = true
  /\ fst (download localCopier "http://host/") = (Some tmpSource, "", None)
  /\ result (getCopyInfoForSourcePath env "http://host/" "/dest/" localCopier world0)
     = ([], Some (Errorf "cannot determine filename for source http://host/")).
Proof.
  assert (Hok : fst (download localCopier "http://host/") = (Some tmpSource, "", None))
    by reflexivity.
  split; [reflexivity|]. split; [exact Hok|].
  destruct (unnamed_download env "http://host/" "/dest/" localCopier world0
              tmpSource eq_refl Hok) as (_ & Hdir & _).
  exact (Hdir eq_refl).
Defined.

Lemma file_and_directory_fingerprints_differ_witness :
  freshResolution env localCopier world0 ctxSource "x" true
  /\ freshResolution env localCopier world0 ctxSource "dir" true
  /\ walkable env ctxSource (filepath_WalkDir env "/ctx/dir")
  /\ exists f d,
       result (calcCopyInfo env "x" true localCopier world0) = ([f], None)
       /\ result (calcCopyInfo env "dir" true localCopier world0) = ([d], None)
       /\ hash f = "file:" +:+ "h(x)"
       /\ strings_HasPrefix (hash d) "dir:" = true
       /\ hash f <> hash d.
Proof.
  assert (Hw : walkable env ctxSource (filepath_WalkDir env "/ctx/dir"))
    by (repeat constructor).
  split; [exact (localCopier_fresh "x" eq_refl)|].
  split; [exact (localCopier_fresh "dir" eq_refl)|].
  split; [exact Hw|].
  exact (file_and_directory_fingerprints_differ env
           localCopier world0 ctxSource "x" true {| IsDir := false |} "h(x)"
           localCopier world0 ctxSource "dir" true {| IsDir := true |} "/ctx/dir"
           (localCopier_fresh "x" eq_refl) eq_refl eq_refl eq_refl
           (localCopier_fresh "dir" eq_refl) eq_refl eq_refl eq_refl Hw).
Defined.

Lemma normalized_paths_resolve_alike_witness :
  strings_HasPrefix "x" "/" = false /\ strings_HasPrefix "x" "./" = false
  /\ validateCopySourcePath env (imageSource localCopier) ("/" +:+ "x")
     = validateCopySourcePath env (imageSource localCopier) "x"
  /\ validateCopySourcePath env (imageSource localCopier) ("./" +:+ "x")
     = validateCopySourcePath env (imageSource localCopier) "x"
  /\ calcCopyInfo env ("/" +:+ "x") false localCopier world0
     = calcCopyInfo env "x" false localCopier world0
  /\ calcCopyInfo env ("./" +:+ "x") false localCopier world0
     = calcCopyInfo env "x" false localCopier world0.
Proof.
  do 4 (split; [reflexivity|]).
  exact (proj2 (proj2 (proj2 (proj2
           (normalized_paths_resolve_alike env "x" false localCopier world0
              eq_refl eq_refl eq_refl eq_refl))))).
Defined.

(** C10, as stated, fails: only one leading separator is trimmed, so
    //x resolves to the path /x where /x resolves to the path x. *)
Lemma leading_separator_is_trimmed_once :
  ~ (forall (env : Env) (p : string) (o : copier) (w : World),
       result (calcCopyInfo env ("/" +:+ p) false o w)
       = result (calcCopyInfo env p false o w)
       /\ result (calcCopyInfo env ("./" +:+ p) false o w)
          = result (calcCopyInfo env p false o w)).
Proof.
  intros H. destruct (H env "/x" localCopier world0) as [H1 _].
  vm_compute in H1. discriminate H1.
Qed.

Lemma local_resolution_is_read_only_witness :
  let sd := {| DestPath := "/dest/"; SourcePaths := ["x"; "*"] |} in
  imageSource localCopier = None
  /\ copierOf (calcCopyInfo env "*" true localCopier world0) = localCopier
  /\ worldOf (createCopyInstruction env sd "COPY" localCopier world0) = world0.
Proof.
  intros sd.
  destruct (local_resolution_is_read_only env "*" true sd "COPY"
              localCopier world0 eq_refl) as [[Ho _] Hsd].
  split; [reflexivity|]. split; [exact Ho|].
  apply Hsd. repeat constructor.
Defined.

Lemma local_walk_walkable :
  walkable env ctxSource (filepath_WalkDir env (Root ctxSource)).
Proof. repeat constructor. Qed.

Lemma wildcards_resolve_in_walk_order_witness :
  map path (fst (result (calcCopyInfo env "*" true localCopier world0)))
  = ["dir"; "x"].
Proof.
  pose proof (wildcards_resolve_in_walk_order env "*" localCopier world0 ctxSource
                eq_refl eq_refl eq_refl eq_refl local_walk_walkable) as H.
  cbv zeta in H.
  change (wildcardMatches env (Root ctxSource) (normalizeOrigPath "*")
            (filepath_WalkDir env (Root ctxSource))) with ["dir"; "x"] in H.
  rewrite H; [reflexivity|].
  apply List.Forall_cons; [reflexivity|].
  apply List.Forall_cons; [reflexivity|]. apply List.Forall_nil.
Defined.

Lemma wildcard_without_match_witness :
  let sd := {| DestPath := "/dest/"; SourcePaths := ["*.go"] |} in
  snd (fst (fst (fst (createCopyInstruction env sd "COPY" localCopier world0))))
  = Some (Wrapf (Errorf "no source files were specified") "COPY failed").
Proof.
  intros sd.
  by rewrite (wildcard_without_match env sd "COPY" "*.go" localCopier world0 ctxSource
                eq_refl eq_refl eq_refl eq_refl eq_refl eq_refl
                local_walk_walkable eq_refl).
Defined.

Lemma first_failing_source_aborts_witness :
  let sd := {| DestPath := "/dest/"; SourcePaths := ["x"; "missing"; "dir"] |} in
  createCopyInstruction env sd "ADD" localCopier world0
  = ((emptyInstruction sd "ADD",
      Some (Wrapf
              (Wrapf (WithStack (PathError "stat" "missing" os_ErrNotExist))
                 "file not found in build context or excluded by .dockerignore")
              "ADD failed")),
     localCopier, world0,
     [EvStatAt "/ctx" "x"; EvHash "/ctx" "x"; EvStatAt "/ctx" "missing"]).
Proof.
  intros sd.
  exact (first_failing_source_aborts env sd "ADD" ["x"] ["dir"] "missing"
           [newCopyInfoFromSource ctxSource "x" "file:h(x)"] []
           (Wrapf (WithStack (PathError "stat" "missing" os_ErrNotExist))
              "file not found in build context or excluded by .dockerignore")
           localCopier localCopier localCopier world0 world0 world0
           [EvStatAt "/ctx" "x"; EvHash "/ctx" "x"] [EvStatAt "/ctx" "missing"]
           eq_refl eq_refl eq_refl).
Defined.

Lemma copy_rejects_urls_witness :
  let sd := {| DestPath := "/dest/"; SourcePaths := ["http://host/a.txt"; "x"] |} in
  createCopyInstruction env sd "COPY" (imageCopier "img") world0
  = ((emptyInstruction sd "COPY",
      Some (Wrapf (Errorf "source can't be a URL for COPY") "COPY failed")),
     imageCopier "img", world0, []).
Proof.
  intros sd.
  apply (copy_rejects_urls env sd "COPY" "http://host/a.txt" ["x"]); reflexivity.
Defined.

Lemma missing_source_error_witness :
  result (calcCopyInfo env "./missing" true localCopier world0)
  = ([], Some (Wrapf (WithStack (PathError "stat" "missing" os_ErrNotExist))
                 "file not found in build context or excluded by .dockerignore")).
Proof.
  destruct (missing_source_error env "./missing" true localCopier world0 ctxSource
              {| IsDir := false |} (PathError "lstat" "missing" os_ErrNotExist)
              (localCopier_fresh "./missing" eq_refl) eq_refl)
    as (Hnil & Hnot & _).
  destruct (Hnot eq_refl) as [Herr _].
  rewrite (surjective_pairing (result _)), Hnil, Herr. reflexivity.
Defined.

Lemma layer_setup_failure_witness :
  (result (calcCopyInfo env "x" true Faulty.brokenImageCopier world0)
   = ([], Some (External "no layer"))
   /\ activeLayer (copierOf (calcCopyInfo env "x" true Faulty.brokenImageCopier world0))
      = None)
  /\ (let r := calcCopyInfo (Faulty.env Faulty.LazySourceFails) "x" true
                 (imageCopier "img") world0 in
      result r
      = ([], Some (Wrapf (External "cannot create lazy source")
                     "failed to create context for copy from /layer"))
      /\ eventsOf (Cleanup (copierOf r) (worldOf r))
         = [EvRelease {| layerRoot := "/layer" |}]).
Proof.
  split.
  - destruct (layer_setup_failure env "x" true Faulty.brokenImageCopier world0
                Faulty.brokenImage eq_refl eq_refl eq_refl) as [Hfail _].
    destruct (Hfail (External "no layer") eq_refl) as (Hres & Hal & _).
    split; [exact Hres | exact Hal].
  - intros r.
    destruct (layer_setup_failure (Faulty.env Faulty.LazySourceFails) "x" true
                (imageCopier "img") world0 (image "img") eq_refl eq_refl eq_refl)
      as [_ Hlazy].
    destruct (Hlazy eq_refl None (External "cannot create lazy source") eq_refl)
      as (Hres & _ & _ & _ & Hc).
    split; [exact Hres | exact Hc].
Defined.

Lemma imageCopier_fresh p :
  hasStar (normalizeOrigPath p) = false ->
  freshResolution env (imageCopier "img") world0 layerSource p true.
Proof.
  intros Hp. split; [reflexivity|]. split; [by split|].
  split; [exact Hp|]. intros im _ _. apply lookup_empty.
Qed.

Lemma cache_round_trip_witness :
  let w1 := worldOf (calcCopyInfo env "x" true (imageCopier "img") world0) in
  let r2 := calcCopyInfo env "x" false (imageCopier "img") w1 in
  List.map hash (fst (result r2)) = ["file:h(x)"]
  /\ countEv isReadEvent (eventsOf r2) = 0.
Proof.
  intros w1 r2.
  destruct (cache_round_trip env "x" true false (imageCopier "img") (imageCopier "img")
              world0 w1 layerSource layerSource (image "img") (image "img")
              [newCopyInfoFromSource layerSource "x" "file:h(x)"]
              (imageCopier_fresh "x" eq_refl) eq_refl
              ltac:(discriminate) eq_refl eq_refl eq_refl eq_refl
              ltac:(by split) eq_refl eq_refl)
    as (_ & Hh & _ & Hread & _).
  split; [exact Hh | exact Hread].
Defined.

Lemma resolved_fingerprints_are_tagged_witness :
  cacheTagged env world0
  /\ Forall (fun ci => tagged env (hash ci))
            (fst (result (calcCopyInfo env "*" true (imageCopier "img") world0))).
Proof.
  assert (Hw : cacheTagged env world0).
  { intros k h Hk. change (pathCache world0) with (∅ : gmap string string) in Hk.
    rewrite lookup_empty in Hk. discriminate Hk. }
  split; [exact Hw|].
  exact (proj1 (resolved_fingerprints_are_tagged env "*" true (imageCopier "img")
                  world0 Hw)).
Defined.

Lemma downloads_are_removed_by_Cleanup_witness :
  let sd := {| DestPath := "/dest/";
               SourcePaths := ["x"; "http://host/archive.tar"] |} in
  let r := createCopyInstruction env sd "ADD" (Faulty.addCopier Faulty.NoFault) world0 in
  let c := Cleanup (copierOf r) (worldOf r) in
  EvRemoveAll "/tmp/docker-remote0" ∈ eventsOf c
  /\ tmpPaths (copierOf c) = [].
Proof.
  intros sd r c.
  destruct (downloads_are_removed_by_Cleanup env sd "ADD"
              (Faulty.addCopier Faulty.NoFault) world0) as (_ & Hold & Hnil).
  split; [|exact Hnil].
  apply Hold. apply list_elem_of_here.
Defined.

Lemma noDecompress_marks_downloads_witness :
  Forall (fun ci => noDecompress ci = false)
         (fst (result (getCopyInfoForSourcePath env "dir" "/dest/" localCopier world0)))
  /\ tmpPaths (copierOf (getCopyInfoForSourcePath env "dir" "/dest/" localCopier world0))
     = [].
Proof.
  destruct (noDecompress_marks_downloads env "dir" "/dest/" localCopier world0)
    as [Hi Ht].
  split; [exact Hi | exact (Ht eq_refl)].
Defined.

Lemma failed_download_removes_tmpdir_witness :
  downloadSource (Faulty.env Faulty.IoCopyFails) "http://host/archive.tar"
  = ((None, "", Some (External "connection reset")),
     [EvHttpGet "http://host/archive.tar"; EvMkdirTemp;
      EvOpenFile "/tmp/docker-remote1/archive.tar";
      EvIoCopy "/tmp/docker-remote1/archive.tar";
      EvClose "/tmp/docker-remote1/archive.tar";
      EvRemoveAll "/tmp/docker-remote1"])
  /\ countEv isRemoveAll
       (snd (downloadSource (Faulty.env Faulty.IoCopyFails) "http://host/archive.tar"))
     = 1.
Proof.
  destruct (failed_download_removes_tmpdir (Faulty.env Faulty.IoCopyFails)
              "http://host/archive.tar" "/archive.tar"
              (response "http://host/archive.tar") "/tmp/docker-remote1"
              eq_refl eq_refl eq_refl) as (Hfail & _ & _).
  destruct (Hfail (External "connection reset") eq_refl) as (Hone & _ & _).
  split; [reflexivity | exact Hone].
Defined.

Lemma download_filename_is_one_element_witness :
  isName (getFilenameForDownload env "/dl/" (response "http://host/dl/")).
Proof.
  destruct (download_filename_is_one_element env "/dl/" (response "http://host/dl/"))
    as [Hempty|Hname]; [discriminate Hempty | exact Hname].
Defined.

Lemma unnamed_download_is_left_behind_witness :
  let r := getCopyInfoForSourcePath env "http://host/" "/dest/" localCopier world0 in
  EvMkdirTemp ∈ eventsOf r
  /\ countEv isRemoveAll (eventsOf r) = 0
  /\ tmpPaths (copierOf r) = []
  /\ eventsOf (Cleanup (copierOf r) (worldOf r)) = [].
Proof.
  intros r.
  destruct (unnamed_download_is_left_behind env "http://host/" "/dest/" localCopier
              world0 tmpSource eq_refl eq_refl eq_refl eq_refl)
    as (_ & Hmk & Hrm & Ht & Hc).
  split; [exact Hmk|]. split; [exact Hrm|]. split; [exact Ht | exact Hc].
Defined.

Lemma directory_copy_witness :
  let r := performCopyForInfo (Faulty.env Faulty.NoFault)
             (Faulty.inRootfs "opt") (Faulty.inContext "dir") Faulty.asUser in
  EvFixPermissions "/ctx/dir" "/rootfs/opt"
    {| UID := 1000; GID := 1000; SID := "" |} true ∈ snd r
  /\ EvCopyWithTar "/ctx/dir" "/rootfs/opt" ∈ snd r
  /\ countEv isExtractEvent (snd r) = 0.
Proof.
  intros r.
  destruct (directory_copy (Faulty.env Faulty.NoFault)
              (Faulty.inRootfs "opt") (Faulty.inContext "dir") Faulty.asUser
              "/ctx/dir" "/rootfs/opt" {| IsDir := true |}
              eq_refl eq_refl eq_refl eq_refl) as (Hq & _ & _ & _ & Hok).
  split; [|split; [exact (Hok eq_refl) | exact Hq]].
  vm_compute. do 3 apply list_elem_of_further. apply list_elem_of_here.
Defined.

Lemma archive_extraction_witness :
  performCopyForInfo (Faulty.env Faulty.NoFault)
    (Faulty.inRootfs "etc") (Faulty.inContext "a.tar") Faulty.asUser
  = (None, [EvOsStat "/ctx/a.tar"; EvOsOpen "/ctx/a.tar";
            EvUntar "/ctx/a.tar" "/rootfs/etc"; EvClose "/ctx/a.tar"]).
Proof.
  destruct (archive_extraction (Faulty.env Faulty.NoFault)
              (Faulty.inRootfs "etc") (Faulty.inContext "a.tar") Faulty.asUser
              "/ctx/a.tar" "/rootfs/etc" {| IsDir := false |}
              eq_refl eq_refl eq_refl eq_refl eq_refl eq_refl eq_refl)
    as (Hok & _).
  exact (Hok eq_refl).
Defined.

Lemma file_copy_target_witness :
  EvCopyFileWithTar "/ctx/x" "/rootfs/etc/x"
    ∈ snd (performCopyForInfo (Faulty.env Faulty.NoFault)
             (Faulty.inRootfs "etc") (Faulty.inContext "x") Faulty.asRoot)
  /\ EvCopyFileWithTar "/ctx/x" "/rootfs/motd"
    ∈ snd (performCopyForInfo (Faulty.env Faulty.NoFault)
             (Faulty.inRootfs "motd") (Faulty.inContext "x") Faulty.asRoot).
Proof.
  split.
  - destruct (file_copy_target (Faulty.env Faulty.NoFault)
                (Faulty.inRootfs "etc") (Faulty.inContext "x") Faulty.asRoot
                "/ctx/x" "/rootfs/etc" {| IsDir := false |}
                eq_refl eq_refl eq_refl eq_refl eq_refl) as (_ & _ & Hok).
    exact (proj1 (Hok eq_refl)).
  - destruct (file_copy_target (Faulty.env Faulty.NoFault)
                (Faulty.inRootfs "motd") (Faulty.inContext "x") Faulty.asRoot
                "/ctx/x" "/rootfs/motd" {| IsDir := false |}
                eq_refl eq_refl eq_refl eq_refl eq_refl) as (_ & _ & Hok).
    exact (proj1 (Hok eq_refl)).
Defined.

Lemma ownership_is_applied_last_witness :
  countEv isChown
    (snd (performCopyForInfo (Faulty.env Faulty.NoFault)
            (Faulty.inRootfs "etc") (Faulty.inContext "x") Faulty.asRoot)) = 0
  /\ countEv isFixPermissions
       (snd (performCopyForInfo (Faulty.env Faulty.CopyFileFails)
               (Faulty.inRootfs "etc") (Faulty.inContext "x") Faulty.asUser)) = 0.
Proof.
  split.
  - exact (proj1 (ownership_is_applied_last (Faulty.env Faulty.NoFault)
                    (Faulty.inRootfs "etc") (Faulty.inContext "x") Faulty.asRoot)
                 eq_refl).
  - reflexivity.
Defined.

Lemma failed_checks_write_nothing_witness :
  countEv isCopyEvent
    (snd (performCopyForInfo (Faulty.env Faulty.NoFault)
            (Faulty.inRootfs "locked") (Faulty.inContext "x") Faulty.asRoot)) = 0
  /\ performCopyForInfo (Faulty.env Faulty.NoFault)
       (Faulty.inRootfs "etc") (Faulty.inContext "gone") Faulty.asRoot
     = (Some (Wrapf (PathError "stat" "/ctx/gone" os_ErrNotExist)
                "source path not found"),
        [EvOsStat "/ctx/gone"]).
Proof.
  destruct (failed_checks_write_nothing (Faulty.env Faulty.NoFault)
              (Faulty.inRootfs "locked") (Faulty.inContext "x") Faulty.asRoot)
    as (_ & _ & Hchecks).
  destruct (Hchecks eq_refl eq_refl) as [_ Hdst].
  destruct (failed_checks_write_nothing (Faulty.env Faulty.NoFault)
              (Faulty.inRootfs "etc") (Faulty.inContext "gone") Faulty.asRoot)
    as (_ & _ & Hchecks2).
  destruct (Hchecks2 eq_refl eq_refl) as [Hsrc _].
  split.
  - exact (proj2 (Hdst {| IsDir := false |}
                    (PathError "stat" "/rootfs/locked" (External "permission denied"))
                    {| IsDir := false |} eq_refl (or_intror eq_refl) eq_refl eq_refl)).
  - exact (Hsrc (PathError "stat" "/ctx/gone" os_ErrNotExist) eq_refl).
Defined.

Lemma one_source_one_copyInfo_witness :
  List.length
    (fst (result (getCopyInfoForSourcePath env "dir" "/dest" localCopier world0))) = 1
  /\ List.length
       (fst (result (getCopyInfoForSourcePath env "http://host/archive.tar" "/dest"
                       localCopier world0))) = 1.
Proof.
  split.
  - exact (proj1 (one_source_one_copyInfo env "dir" "/dest" localCopier world0
                    (or_intror eq_refl) eq_refl)).
  - exact (proj1 (one_source_one_copyInfo env "http://host/archive.tar" "/dest"
                    localCopier world0 (or_introl eq_refl) eq_refl)).
Defined.

Lemma partial_walk_gives_no_fingerprint_witness :
  let denied := fun _ : string =>
    [("/ctx/dir", None); ("/ctx/dir/a", None);
     ("/ctx/dir/b", Some (External "permission denied"))] in
  result (calcCopyInfo (with_WalkDir env denied) "dir" true localCopier world0)
  = ([], Some (External "permission denied")).
Proof.
  intros denied.
  assert (Hfresh : freshResolution (with_WalkDir env denied) localCopier world0
                     ctxSource "dir" true).
  { split; [reflexivity|]. split; [reflexivity|]. split; [reflexivity|].
    intros im Him. discriminate Him. }
  assert (Hpre : walkable (with_WalkDir env denied) ctxSource
                   [("/ctx/dir", None); ("/ctx/dir/a", None)])
    by (repeat constructor).
  exact (proj1 (proj2 (partial_walk_gives_no_fingerprint (with_WalkDir env denied)
                         localCopier world0 ctxSource "dir" true
                         {| IsDir := true |} "/ctx/dir"
                         [("/ctx/dir", None); ("/ctx/dir/a", None)] []
                         "/ctx/dir/b" (External "permission denied")
                         Hfresh eq_refl eq_refl eq_refl eq_refl Hpre))).
Defined.

End ConcreteRuns.
